(** * The agent execution core of run-bigpig/llm-agent

    A shallow embedding of the Go sources: the multi-tenant memory
    backends ([pkg/memory]), the plan executor ([pkg/executionplan]), the
    tool-call loop of the OpenAI adapter, the agent runtime ([pkg/agent])
    and the workflow orchestrator ([pkg/orchestration]).

    Conventions.
    - A Go [string] is a Rocq [string] (a sequence of bytes).
    - A Go [error] is the text of [err.Error()]; [fmt.Errorf("p: %w", e)]
      is the concatenation ["p: " +:+ e]; a [(T, error)] result is [Res T];
      a bare [error] result is an [option string] ([None] is [nil]).
    - A Go [int] is a [Z]; lengths are [Z.of_nat (length _)].
    - A Go [map[string]T] is a [gmap string T].
    - The first part of the file holds the definitions, the second part
      the lemmas and theorems about them. *)

From Stdlib Require Import ZArith Lia String Ascii List Permutation.
From Stdlib Require QArith.
From stdpp Require Import gmap strings list pretty.

Open Scope Z_scope.

(** ** Results and dynamic values *)

Inductive Res (A : Type) : Type :=
| Ok (a : A)
| Err (e : string).
Arguments Ok {A} a.
Arguments Err {A} e.

Definition is_ok {A} (r : Res A) : bool :=
  match r with Ok _ => true | Err _ => false end.

(** A Go call either returns or panics (a failed type assertion). *)
Inductive Outcome (A : Type) : Type :=
| Return (r : Res A)
| Panic.
Arguments Return {A} r.
Arguments Panic {A}.

(** A value of Go type [interface{}] as [encoding/json] produces it. A JSON
    number is kept as its literal. *)
#[local] Unset Elimination Schemes.
Inductive Any : Type :=
| ANull
| ABool (b : bool)
| ANum (literal : string)
| AStr (s : string)
| AList (l : list Any)
| AMap (m : list (string * Any)).
#[local] Set Elimination Schemes.

(** The newline and double-quote characters, and [strings.Join]. *)
Definition nl : string := String (ascii_of_nat 10) EmptyString.
Definition dquote : string := String (ascii_of_nat 34) EmptyString.

Fixpoint Join (elems : list string) (sep : string) : string :=
  match elems with
  | [] => EmptyString
  | [x] => x
  | x :: rest => x +:+ sep +:+ Join rest sep
  end.

(** [context.Context], restricted to the two values the core reads:
    [ctx.Value(orgIDKey).(string)] and
    [ctx.Value(ConversationIDKey).(string)]. [None] stands for a missing
    value or one that is not a string. *)
Record Context : Type := mkContext {
  ctx_org_id : option string;
  ctx_conversation_id : option string
}.

Definition Background : Context := mkContext None None.

(** ** pkg/multitenancy/context.go *)
Module Multitenancy.

Definition ErrNoOrgID : string := "no organization ID found in context".

Definition WithOrgID (ctx : Context) (orgID : string) : Context :=
  mkContext (Some orgID) (ctx_conversation_id ctx).

Definition GetOrgID (ctx : Context) : Res string :=
  match ctx_org_id ctx with
  | None => Err ErrNoOrgID
  | Some orgID => if decide (orgID = EmptyString) then Err ErrNoOrgID else Ok orgID
  end.

Definition HasOrgID (ctx : Context) : bool := is_ok (GetOrgID ctx).

End Multitenancy.

(** ** pkg/multitenancy/config.go *)
Module Tenants.
Import Multitenancy.

Definition ErrTenantNotFound : string := "tenant not found".

Record TenantConfig : Type := mkTenantConfig {
  OrgID : string;
  LLMAPIKeys : gmap string string;
  VectorStoreConfig : gmap string Any;
  DataStoreConfig : gmap string Any;
  Custom : gmap string Any
}.

(** The manager maps an organization id to the registered configuration.
    The Go map holds pointers; the model holds the value a pointer has
    when it is registered. The mutex only serialises the accesses. *)
Record ConfigManager : Type := mkConfigManager {
  configs : gmap string TenantConfig
}.

Definition NewConfigManager : ConfigManager := mkConfigManager ∅.

Definition RegisterTenant (m : ConfigManager) (config : TenantConfig)
    : option string * ConfigManager :=
  if decide (OrgID config = EmptyString)
  then (Some "organization ID is required", m)
  else (None, mkConfigManager (<[OrgID config := config]> (configs m))).

Definition GetTenantConfig (m : ConfigManager) (ctx : Context) : Res TenantConfig :=
  match GetOrgID ctx with
  | Err err => Err err
  | Ok orgID =>
      match configs m !! orgID with
      | None => Err ErrTenantNotFound
      | Some config => Ok config
      end
  end.

Definition GetLLMAPIKey (m : ConfigManager) (ctx : Context) (provider : string)
    : Res string :=
  match GetTenantConfig m ctx with
  | Err err => Err err
  | Ok config =>
      match LLMAPIKeys config !! provider with
      | None => Err ("API key not found for provider: " +:+ provider)
      | Some apiKey => Ok apiKey
      end
  end.

Definition GetVectorStoreConfig (m : ConfigManager) (ctx : Context)
    : Res (gmap string Any) :=
  match GetTenantConfig m ctx with
  | Err err => Err err
  | Ok config => Ok (VectorStoreConfig config)
  end.

Definition GetDataStoreConfig (m : ConfigManager) (ctx : Context)
    : Res (gmap string Any) :=
  match GetTenantConfig m ctx with
  | Err err => Err err
  | Ok config => Ok (DataStoreConfig config)
  end.

Definition GetCustomConfig (m : ConfigManager) (ctx : Context) (key : string) : Res Any :=
  match GetTenantConfig m ctx with
  | Err err => Err err
  | Ok config =>
      match Custom config !! key with
      | None => Err ("custom config not found for key: " +:+ key)
      | Some value => Ok value
      end
  end.

(** A run of [RegisterTenant] calls on one manager, errors ignored. *)
Definition registerAll (m : ConfigManager) (registrations : list TenantConfig)
    : ConfigManager :=
  fold_left (fun m config => snd (RegisterTenant m config)) registrations m.

End Tenants.

(** ** pkg/interfaces/memory.go *)
Module Interfaces.

Record Message : Type := mkMessage {
  Role : string;
  Content : string;
  Metadata : list (string * Any)
}.

Record GetMessagesOptions : Type := mkGetMessagesOptions {
  Limit : Z;
  Roles : list string;
  Query : string
}.

Definition GetMessagesOption : Type := GetMessagesOptions -> GetMessagesOptions.

Definition WithLimit (limit : Z) : GetMessagesOption :=
  fun o => mkGetMessagesOptions limit (Roles o) (Query o).

Definition WithRoles (roles : list string) : GetMessagesOption :=
  fun o => mkGetMessagesOptions (Limit o) roles (Query o).

Definition WithQuery (query : string) : GetMessagesOption :=
  fun o => mkGetMessagesOptions (Limit o) (Roles o) query.

(** [opts := &GetMessagesOptions{}; for _, option := range options { option(opts) }] *)
Definition applyGetMessagesOptions (options : list GetMessagesOption) : GetMessagesOptions :=
  fold_left (fun o f => f o) options (mkGetMessagesOptions 0 [] EmptyString).

End Interfaces.

(** ** pkg/memory *)
Module Memory.
Import Interfaces.

(** *** Conversation ids (the [memory] context key and conversation_buffer.go) *)

Definition WithConversationID (ctx : Context) (conversationID : string) : Context :=
  mkContext (ctx_org_id ctx) (Some conversationID).

Definition GetConversationID (ctx : Context) : string * bool :=
  match ctx_conversation_id ctx with
  | Some id => (id, true)
  | None => (EmptyString, false)
  end.

(** The helper shared by both backends: it returns the organization id and
    the conversation id already combined as ["org:conversation"]. *)
Definition getConversationID (ctx : Context) : Res string :=
  match Multitenancy.GetOrgID ctx with
  | Err err => Err ("organization ID not found in context: " +:+ err)
  | Ok orgID =>
      match GetConversationID ctx with
      | (_, false) => Err "conversation ID not found in context"
      | (conversationID, true) => Ok (orgID +:+ ":" +:+ conversationID)
      end
  end.

(** The role filter and the limit that both [GetMessages] apply. *)
Definition filterRoles (roles : list string) (messages : list Message) : list Message :=
  if decide (0 < Z.of_nat (length roles))
  then filter (fun msg => Role msg ∈ roles) messages
  else messages.

Definition applyLimit (limit : Z) (messages : list Message) : list Message :=
  if (0 <? limit) && (limit <? Z.of_nat (length messages))
  then drop (Z.to_nat (Z.of_nat (length messages) - limit)) messages
  else messages.

(** *** ConversationBuffer (conversation_buffer.go) *)

Record ConversationBuffer : Type := mkConversationBuffer {
  messages : gmap string (list Message);
  maxSize : Z
}.

Definition Option : Type := ConversationBuffer -> ConversationBuffer.

Definition WithMaxSize (size : Z) : Option :=
  fun c => mkConversationBuffer (messages c) size.

Definition NewConversationBuffer (options : list Option) : ConversationBuffer :=
  fold_left (fun buffer option => option buffer) options (mkConversationBuffer ∅ 100).

(** [AddMessage]: append, then keep the last [maxSize] messages when the
    list got longer than a positive [maxSize]. *)
Definition AddMessage (c : ConversationBuffer) (ctx : Context) (message : Message)
  : option string * ConversationBuffer :=
  match getConversationID ctx with
  | Err err => (Some err, c)
  | Ok conversationID =>
      let appended := (messages c !!! conversationID) ++ [message] in
      let len := Z.of_nat (length appended) in
      let kept :=
        if (0 <? maxSize c) && (maxSize c <? len)
        then drop (Z.to_nat (len - maxSize c)) appended
        else appended in
      (None, mkConversationBuffer (<[conversationID := kept]> (messages c)) (maxSize c))
  end.

Definition GetMessages (c : ConversationBuffer) (ctx : Context)
    (options : list GetMessagesOption) : Res (list Message) :=
  match getConversationID ctx with
  | Err err => Err err
  | Ok conversationID =>
      match messages c !! conversationID with
      | None => Ok []
      | Some msgs =>
          let opts := applyGetMessagesOptions options in
          Ok (applyLimit (Limit opts) (filterRoles (Roles opts) msgs))
      end
  end.

Definition Clear (c : ConversationBuffer) (ctx : Context) : option string * ConversationBuffer :=
  match getConversationID ctx with
  | Err err => (Some err, c)
  | Ok conversationID =>
      (None, mkConversationBuffer (delete conversationID (messages c)) (maxSize c))
  end.

(** A client's calls on one buffer, and the messages a conversation key
    has received since it was last cleared. *)
Inductive BufferOp : Type :=
| OpAddMessage (ctx : Context) (message : Message)
| OpClear (ctx : Context).

Definition applyOp (c : ConversationBuffer) (op : BufferOp) : ConversationBuffer :=
  match op with
  | OpAddMessage ctx message => snd (AddMessage c ctx message)
  | OpClear ctx => snd (Clear c ctx)
  end.

Definition runOps (ops : list BufferOp) (c : ConversationBuffer) : ConversationBuffer :=
  fold_left applyOp ops c.

Definition recordOp (key : string) (history : list Message) (op : BufferOp) : list Message :=
  match op with
  | OpAddMessage ctx message =>
      match getConversationID ctx with
      | Ok k => if decide (k = key) then history ++ [message] else history
      | Err _ => history
      end
  | OpClear ctx =>
      match getConversationID ctx with
      | Ok k => if decide (k = key) then [] else history
      | Err _ => history
      end
  end.

Definition added (key : string) (ops : list BufferOp) : list Message :=
  fold_left (recordOp key) ops [].

(** *** RedisMemory (redis_memory.go) *)
Module Redis.

(** The commands the backend sends to the Redis server. *)
Inductive RedisCmd : Type :=
| RPush (key value : string)
| Expire (key : string) (ttl : Z)
| LRange (key : string) (start stop : Z)
| Del (key : string).

Definition cmdKey (cmd : RedisCmd) : string :=
  match cmd with
  | RPush key _ | Expire key _ | LRange key _ _ | Del key => key
  end.

(** The server as the backend sees it: the reply to a command, given the
    commands sent before it. *)
Definition RedisClient : Type := list RedisCmd -> RedisCmd -> Res (list string).

(** [encoding/json] on [interfaces.Message]. *)
Record JSONCodec : Type := mkJSONCodec {
  MarshalMessage : Message -> Res string;
  UnmarshalMessage : string -> Res Message
}.

(** [BackoffFactor] only scales the sleep between attempts and is left out;
    durations are nanoseconds. *)
Record RetryOptions : Type := mkRetryOptions {
  MaxRetries : Z;
  RetryInterval : Z
}.

Record RedisMemory : Type := mkRedisMemory {
  client : RedisClient;
  ttl : Z;
  keyPrefix : string;
  compressionEnabled : bool;
  encryptionKey : option string;
  maxMessageSize : Z;
  retryOptions : RetryOptions
}.

Definition RedisOption : Type := RedisMemory -> RedisMemory.

Definition WithTTL (t : Z) : RedisOption :=
  fun r => mkRedisMemory (client r) t (keyPrefix r) (compressionEnabled r)
             (encryptionKey r) (maxMessageSize r) (retryOptions r).

Definition WithKeyPrefix (prefix : string) : RedisOption :=
  fun r => mkRedisMemory (client r) (ttl r) prefix (compressionEnabled r)
             (encryptionKey r) (maxMessageSize r) (retryOptions r).

Definition WithCompression (enabled : bool) : RedisOption :=
  fun r => mkRedisMemory (client r) (ttl r) (keyPrefix r) enabled
             (encryptionKey r) (maxMessageSize r) (retryOptions r).

(** [None] is a nil key. *)
Definition WithEncryption (key : option string) : RedisOption :=
  fun r => mkRedisMemory (client r) (ttl r) (keyPrefix r) (compressionEnabled r)
             key (maxMessageSize r) (retryOptions r).

Definition WithMaxMessageSize (size : Z) : RedisOption :=
  fun r => mkRedisMemory (client r) (ttl r) (keyPrefix r) (compressionEnabled r)
             (encryptionKey r) size (retryOptions r).

Definition WithRetryOptions (options : RetryOptions) : RedisOption :=
  fun r => mkRedisMemory (client r) (ttl r) (keyPrefix r) (compressionEnabled r)
             (encryptionKey r) (maxMessageSize r) options.

Definition hour : Z := 3600 * 1000000000.
Definition millisecond : Z := 1000000.

Definition NewRedisMemory (cl : RedisClient) (options : list RedisOption) : RedisMemory :=
  fold_left (fun memory option => option memory) options
    (mkRedisMemory cl (24 * hour) "agent:memory:" false None (1024 * 1024)
       (mkRetryOptions 3 (100 * millisecond))).

(** Compression and encryption are not implemented: the message comes back
    as it is, with no error. *)
Definition processMessage (r : RedisMemory) (message : Message) : Res Message :=
  Ok message.

(** The retry loop of [AddMessage]: [attempts] iterations are left,
    [retryErr] is the error of the last failed push. *)
Fixpoint rpushRetry (codec : JSONCodec) (r : RedisMemory) (key : string)
    (processedMessage : Message) (attempts : nat) (retryErr : option string)
    (log : list RedisCmd) : option string * list RedisCmd :=
  match attempts with
  | O =>
      (Some ("failed to add message to Redis after " +:+ pretty (MaxRetries (retryOptions r))
             +:+ " attempts: " +:+ default "%!w(<nil>)" retryErr), log)
  | S attempts' =>
      match MarshalMessage codec processedMessage with
      | Err err => (Some ("failed to marshal message: " +:+ err), log)
      | Ok messageJSON =>
          match client r log (RPush key messageJSON) with
          | Ok _ => (None, log ++ [RPush key messageJSON; Expire key (ttl r)])
          | Err err =>
              rpushRetry codec r key processedMessage attempts' (Some err)
                (log ++ [RPush key messageJSON])
          end
      end
  end.

Definition checkMessageSize (codec : JSONCodec) (r : RedisMemory) (message : Message)
  : option string :=
  if 0 <? maxMessageSize r then
    match MarshalMessage codec message with
    | Err err => Some ("failed to marshal message: " +:+ err)
    | Ok messageBytes =>
        if maxMessageSize r <? Z.of_nat (String.length messageBytes)
        then Some ("message size exceeds maximum allowed size of "
                   +:+ pretty (maxMessageSize r) +:+ " bytes")
        else None
    end
  else None.

Definition AddMessage (codec : JSONCodec) (r : RedisMemory) (ctx : Context)
    (message : Message) (log : list RedisCmd) : option string * list RedisCmd :=
  match getConversationID ctx with
  | Err err => (Some err, log)
  | Ok conversationID =>
      let orgID := match Multitenancy.GetOrgID ctx with
                   | Ok id => id
                   | Err _ => "default"
                   end in
      let key := keyPrefix r +:+ orgID +:+ ":" +:+ conversationID in
      match checkMessageSize codec r message with
      | Some err => (Some err, log)
      | None =>
          match (if compressionEnabled r || bool_decide (encryptionKey r <> None)
                 then processMessage r message else Ok message) with
          | Err err => (Some ("failed to process message: " +:+ err), log)
          | Ok processedMessage =>
              rpushRetry codec r key processedMessage
                (Z.to_nat (MaxRetries (retryOptions r) + 1)) None log
          end
      end
  end.

Fixpoint parseMessages (codec : JSONCodec) (results : list string) : Res (list Message) :=
  match results with
  | [] => Ok []
  | result :: rest =>
      match UnmarshalMessage codec result with
      | Err err => Err ("failed to unmarshal message: " +:+ err)
      | Ok message =>
          match parseMessages codec rest with
          | Err err => Err err
          | Ok msgs => Ok (message :: msgs)
          end
      end
  end.

Definition GetMessages (codec : JSONCodec) (r : RedisMemory) (ctx : Context)
    (options : list GetMessagesOption) (log : list RedisCmd)
  : Res (list Message) * list RedisCmd :=
  match getConversationID ctx with
  | Err err => (Err ("failed to get conversation ID: " +:+ err), log)
  | Ok conversationID =>
      let orgID := match Multitenancy.GetOrgID ctx with
                   | Ok id => id
                   | Err _ => "default"
                   end in
      let key := keyPrefix r +:+ orgID +:+ ":" +:+ conversationID in
      let opts := applyGetMessagesOptions options in
      match client r log (LRange key 0 (-1)) with
      | Err err => (Err ("failed to get messages from Redis: " +:+ err), log ++ [LRange key 0 (-1)])
      | Ok results =>
          match parseMessages codec results with
          | Err err => (Err err, log ++ [LRange key 0 (-1)])
          | Ok msgs =>
              (Ok (applyLimit (Limit opts) (filterRoles (Roles opts) msgs)),
               log ++ [LRange key 0 (-1)])
          end
      end
  end.

Definition Clear (r : RedisMemory) (ctx : Context) (log : list RedisCmd)
  : option string * list RedisCmd :=
  match getConversationID ctx with
  | Err err => (Some ("failed to get conversation ID: " +:+ err), log)
  | Ok conversationID =>
      let orgID := match Multitenancy.GetOrgID ctx with
                   | Ok id => id
                   | Err _ => "default"
                   end in
      let key := keyPrefix r +:+ orgID +:+ ":" +:+ conversationID in
      match client r log (Del key) with
      | Err err => (Some ("failed to clear memory in Redis: " +:+ err), log ++ [Del key])
      | Ok _ => (None, log ++ [Del key])
      end
  end.

End Redis.

End Memory.

(** ** pkg/interfaces/tool.go

    A tool is its name, its description and its two entry points; a call is
    a function of the context and the argument text. The parameter schema
    is not needed here. *)
Module Tools.

Record Tool : Type := mkTool {
  Name : string;
  Description : string;
  Run : Context -> string -> Res string;
  Execute : Context -> string -> Res string
}.

(** [for _, t := range tools { if t.Name() == name { tool = t; break } }] *)
Fixpoint findTool (tools : list Tool) (name : string) : option Tool :=
  match tools with
  | [] => None
  | t :: rest => if decide (Name t = name) then Some t else findTool rest name
  end.

End Tools.

(** ** pkg/executionplan *)
Module ExecutionPlans.
Import Tools.

(** Modelled from the spec: the declarations of [ExecutionPlan],
    [ExecutionStep] and the [Status...] constants are not among the
    sources; the fields are the ones the executor, the agent and the
    package test use, the statuses are the ones of the plan state machine. *)
Inductive ExecutionPlanStatus : Type :=
| StatusDraft
| StatusAwaitingApproval
| StatusApproved
| StatusExecuting
| StatusCompleted
| StatusFailed
| StatusCancelled.

#[export] Instance ExecutionPlanStatus_eq_dec : EqDecision ExecutionPlanStatus.
Proof. solve_decision. Defined.

(** The terminal statuses of the plan state machine. *)
Definition terminal (s : ExecutionPlanStatus) : bool :=
  match s with
  | StatusCompleted | StatusFailed | StatusCancelled => true
  | _ => false
  end.

Record ExecutionStep : Type := mkExecutionStep {
  ToolName : string;
  StepDescription : string;
  Input : string;
  Parameters : list (string * Any)
}.

Record ExecutionPlan : Type := mkExecutionPlan {
  Steps : list ExecutionStep;
  PlanDescription : string;
  TaskID : string;
  Status : ExecutionPlanStatus;
  CreatedAt : Z;
  UpdatedAt : Z;
  UserApproved : bool
}.

Definition setStatus (plan : ExecutionPlan) (s : ExecutionPlanStatus) : ExecutionPlan :=
  mkExecutionPlan (Steps plan) (PlanDescription plan) (TaskID plan) s
    (CreatedAt plan) (UpdatedAt plan) (UserApproved plan).

Definition setUserApproved (plan : ExecutionPlan) (b : bool) : ExecutionPlan :=
  mkExecutionPlan (Steps plan) (PlanDescription plan) (TaskID plan) (Status plan)
    (CreatedAt plan) (UpdatedAt plan) b.

(** What an execution does that can be seen from outside, in order: the
    writes to [plan.Status] and the calls of [tool.Execute]. *)
Inductive ExecEvent : Type :=
| SetStatus (s : ExecutionPlanStatus)
| ToolExecute (tool args : string).

(** *** store.go *)
Definition StorePlan (plans : gmap string ExecutionPlan) (plan : ExecutionPlan)
  : gmap string ExecutionPlan :=
  <[TaskID plan := plan]> plans.

Definition GetPlanByTaskID (plans : gmap string ExecutionPlan) (taskID : string)
  : option ExecutionPlan :=
  plans !! taskID.

Definition DeletePlan (plans : gmap string ExecutionPlan) (taskID : string)
  : bool * gmap string ExecutionPlan :=
  match plans !! taskID with
  | Some _ => (true, delete taskID plans)
  | None => (false, plans)
  end.

(** *** The executor *)
Record Executor : Type := mkExecutor {
  tools : gmap string Tool
}.

Definition NewExecutor (ts : list Tool) : Executor :=
  mkExecutor (fold_left (fun toolMap tool => <[Name tool := tool]> toolMap) ts ∅).

(** The loop over [plan.Steps]; [i] is the index of the first step of
    [steps], [results] the formatted results so far. It returns the
    results of all steps or the error of the first step that fails, and the
    tool calls made. *)
Fixpoint executeSteps (e : Executor) (ctx : Context) (i : Z) (steps : list ExecutionStep)
    (results : list string) : Res (list string) * list ExecEvent :=
  match steps with
  | [] => (Ok results, [])
  | step :: rest =>
      match tools e !! ToolName step with
      | None => (Err ("unknown tool: " +:+ ToolName step), [])
      | Some tool =>
          match Execute tool ctx (Input step) with
          | Err err =>
              (Err ("failed to execute step " +:+ pretty (i + 1) +:+ ": " +:+ err),
               [ToolExecute (ToolName step) (Input step)])
          | Ok result =>
              let '(r, log) :=
                executeSteps e ctx (i + 1) rest
                  (results ++ ["Step " +:+ pretty (i + 1) +:+ " (" +:+ StepDescription step
                               +:+ "): " +:+ result]) in
              (r, ToolExecute (ToolName step) (Input step) :: log)
          end
      end
  end.

(** [ExecutePlan] returns its result, the plan as it leaves it and the
    events of the execution. *)
Definition ExecutePlan (e : Executor) (ctx : Context) (plan : ExecutionPlan)
  : Res string * ExecutionPlan * list ExecEvent :=
  if negb (UserApproved plan)
  then (Err "execution plan has not been approved by the user", plan, [])
  else
    match executeSteps e ctx 0 (Steps plan) [] with
    | (Err err, log) =>
        (Err err, setStatus plan StatusFailed,
         SetStatus StatusExecuting :: log ++ [SetStatus StatusFailed])
    | (Ok results, log) =>
        (Ok ("Execution plan completed successfully!" +:+ nl +:+ nl
             +:+ Join results (nl +:+ nl)),
         setStatus plan StatusCompleted,
         SetStatus StatusExecuting :: log ++ [SetStatus StatusCompleted])
    end.

Definition CancelPlan (e : Executor) (plan : ExecutionPlan) : ExecutionPlan :=
  setStatus plan StatusCancelled.

Definition GetPlanStatus (e : Executor) (plan : ExecutionPlan) : ExecutionPlanStatus :=
  Status plan.

End ExecutionPlans.

(** ** pkg/interfaces/llm.go: generation options *)
Module LLMOptions.

(** The four sampling numbers are [float64] in Go; they are only carried
    into the request, and stand here as rationals. *)
Record LLMConfig : Type := mkLLMConfig {
  Temperature : QArith_base.Q;
  TopP : QArith_base.Q;
  FrequencyPenalty : QArith_base.Q;
  PresencePenalty : QArith_base.Q;
  StopSequences : list string;
  Reasoning : string
}.

Record ResponseFormat : Type := mkResponseFormat {
  FormatType : string;
  FormatName : string;
  Schema : list (string * Any)
}.

Record GenerateOptions : Type := mkGenerateOptions {
  Config : option LLMConfig;
  OrgID : string;
  SystemMessage : string;
  Format : option ResponseFormat
}.

Definition GenerateOption : Type := GenerateOptions -> GenerateOptions.

Definition WithSystemMessage (systemMessage : string) : GenerateOption :=
  fun o => mkGenerateOptions (Config o) (OrgID o) systemMessage (Format o).

Definition WithResponseFormat (format : ResponseFormat) : GenerateOption :=
  fun o => mkGenerateOptions (Config o) (OrgID o) (SystemMessage o) (Some format).

Definition WithLLMConfig (config : LLMConfig) : GenerateOption :=
  fun o => mkGenerateOptions (Some config) (OrgID o) (SystemMessage o) (Format o).

(** [params := &GenerateOptions{}; for _, opt := range options { if opt != nil { opt(params) } }] *)
Definition applyOptions (options : list (option GenerateOption)) : GenerateOptions :=
  fold_left (fun params opt => match opt with Some f => f params | None => params end)
    options (mkGenerateOptions None EmptyString EmptyString None).

End LLMOptions.

(** ** The OpenAI adapter: [GenerateWithTools] *)
Module OpenAI.
Import Tools LLMOptions.

Record ToolCall : Type := mkToolCall {
  ID : string;
  FunctionName : string;
  Arguments : string
}.

Record ChatCompletionMessage : Type := mkChatMessage {
  Role : string;
  Content : string;
  MsgName : string;
  ToolCallID : string;
  ToolCalls : list ToolCall
}.

(** A request; of each tool only the name and description are kept, the
    JSON schema built from its parameters is not. *)
Record ChatCompletionRequest : Type := mkChatRequest {
  Model : string;
  Messages : list ChatCompletionMessage;
  RequestTools : list (string * string);
  RequestConfig : LLMConfig;
  ParallelToolCalls : bool;
  RequestFormat : option ResponseFormat
}.

(** A response: the message of each choice. *)
Record ChatCompletionResponse : Type := mkChatResponse {
  Choices : list ChatCompletionMessage
}.

Record OpenAIClient : Type := mkOpenAIClient {
  CreateChatCompletion : ChatCompletionRequest -> Res ChatCompletionResponse;
  ClientModel : string
}.

(** The library functions the tool loop calls: [json.Unmarshal] into
    [struct { ToolUses []map[string]interface{} `json:"tool_uses"` }],
    [json.Marshal] of a parameter object, and [strings.TrimSpace]. *)
Record StdLib : Type := mkStdLib {
  UnmarshalToolUses : string -> Res (list (gmap string Any));
  MarshalParameters : list (string * Any) -> Res string;
  TrimSpace : string -> string
}.

Definition defaultLLMConfig : LLMConfig :=
  mkLLMConfig (QArith_base.Qmake 7 10) (QArith_base.Qmake 1 1)
    (QArith_base.Qmake 0 1) (QArith_base.Qmake 0 1) [] EmptyString.

Definition plainMessage (role content : string) : ChatCompletionMessage :=
  mkChatMessage role content EmptyString EmptyString [].

Definition toolMessage (content name toolCallID : string) : ChatCompletionMessage :=
  mkChatMessage "tool" content name toolCallID [].

(** The system message of the first request, after the reasoning mode has
    been worked into it. *)
Definition systemMessages (params : GenerateOptions) (config : LLMConfig)
  : list ChatCompletionMessage :=
  if decide (SystemMessage params <> EmptyString) then
    let systemMessage :=
      if decide (Reasoning config = "minimal") then
        SystemMessage params +:+ nl +:+ nl
        +:+ "When responding, briefly explain your thought process."
      else if decide (Reasoning config = "comprehensive") then
        SystemMessage params +:+ nl +:+ nl
        +:+ "When responding, please think step-by-step and explain your complete reasoning process in detail."
      else if decide (Reasoning config = "none") then
        SystemMessage params +:+ nl +:+ nl
        +:+ "Provide direct, concise answers without explaining your reasoning or showing calculations."
      else SystemMessage params in
    [plainMessage "system" systemMessage]
  else if decide (Reasoning config = "minimal") then
    [plainMessage "system" "When responding, briefly explain your thought process."]
  else if decide (Reasoning config = "comprehensive") then
    [plainMessage "system"
       "When responding, please think step-by-step and explain your complete reasoning process in detail."]
  else [].

(** [multi_tool_use.parallel] is renamed in place, so also in the assistant
    message that goes back to the provider. *)
Definition renameParallel (toolCall : ToolCall) : ToolCall :=
  if decide (FunctionName toolCall = "multi_tool_use.parallel")
  then mkToolCall (ID toolCall) "parallel_tool_use" (Arguments toolCall)
  else toolCall.

(** One goroutine of a parallel batch: the value it sends on [resultCh],
    or the panic of a failed type assertion on the decoded tool use. *)
Definition parallelWorker (lib : StdLib) (tools : list Tool) (ctx : Context)
    (toolUse : gmap string Any) : Outcome string :=
  match toolUse !! "recipient_name" with
  | Some (AStr toolName) =>
      match toolUse !! "parameters" with
      | Some (AMap parameters) =>
          match MarshalParameters lib parameters with
          | Err err => Return (Err err)
          | Ok paramsBytes =>
              match findTool tools toolName with
              | None => Return (Err ("tool not found: " +:+ toolName))
              | Some tool => Return (Execute tool ctx paramsBytes)
              end
          end
      | _ => Panic
      end
  | _ => Panic
  end.

(** What the workers send, by worker index; [None] when one of them
    panics (the process dies). *)
Fixpoint workerResults (outs : list (Outcome string)) : option (list (Res string)) :=
  match outs with
  | [] => Some []
  | Panic :: _ => None
  | Return r :: rest =>
      match workerResults rest with
      | Some rs => Some (r :: rs)
      | None => None
      end
  end.

(** The values on [resultCh] in the order the workers complete: [order]
    lists the worker indices in completion order. *)
Definition arrivals (order : list nat) (sent : list (Res string)) : list (nat * Res string) :=
  omap (fun index => match sent !! index with
                     | Some r => Some (index, r)
                     | None => None
                     end) order.

(** [for result := range resultCh]: the first error received ends the
    turn, a result is stored at its own index. *)
Fixpoint collect (received : list (nat * Res string)) (toolsResults : list string)
  : Res (list string) :=
  match received with
  | [] => Ok toolsResults
  | (_, Err err) :: _ => Err ("error executing tool: " +:+ err)
  | (index, Ok result) :: rest => collect rest (<[index := result]> toolsResults)
  end.

Definition runParallel (lib : StdLib) (tools : list Tool) (ctx : Context)
    (toolUses : list (gmap string Any)) (order : list nat) : Outcome (list string) :=
  match workerResults (map (parallelWorker lib tools ctx) toolUses) with
  | None => Panic
  | Some sent =>
      Return (collect (arrivals order sent) (replicate (length toolUses) EmptyString))
  end.

(** The loop over the tool calls of the response. [orders] gives the
    completion order of each parallel batch met, in turn; a batch without
    one completes in index order. *)
Fixpoint processToolCalls (lib : StdLib) (tools : list Tool) (ctx : Context)
    (toolCalls : list ToolCall) (orders : list (list nat))
    (messages : list ChatCompletionMessage) : Outcome (list ChatCompletionMessage) :=
  match toolCalls with
  | [] => Return (Ok messages)
  | toolCall :: rest =>
      if decide (FunctionName toolCall = "parallel_tool_use") then
        match UnmarshalToolUses lib (Arguments toolCall) with
        | Err _ => processToolCalls lib tools ctx rest orders messages
        | Ok toolUses =>
            let order := match orders with
                         | o :: _ => o
                         | [] => seq 0 (length toolUses)
                         end in
            match runParallel lib tools ctx toolUses order with
            | Panic => Panic
            | Return (Err err) => Return (Err err)
            | Return (Ok toolsResults) =>
                processToolCalls lib tools ctx rest (tail orders)
                  (messages ++ [toolMessage (Join toolsResults nl) "parallel_tool_use"
                                  (ID toolCall)])
            end
        end
      else
        match findTool tools (FunctionName toolCall) with
        | None => Return (Err ("tool not found: " +:+ FunctionName toolCall))
        | Some selectedTool =>
            if decide (Name selectedTool = EmptyString)
            then Return (Err ("tool not found: " +:+ FunctionName toolCall))
            else
              match Execute selectedTool ctx (Arguments toolCall) with
              | Err err =>
                  processToolCalls lib tools ctx rest orders
                    (messages ++ [toolMessage ("Error: " +:+ err) (Name selectedTool)
                                    (ID toolCall)])
              | Ok toolResult =>
                  processToolCalls lib tools ctx rest orders
                    (messages ++ [toolMessage toolResult (Name selectedTool) (ID toolCall)])
              end
        end
  end.

(** The second request, with the tool results, and what is returned. *)
Definition finalRequest (c : OpenAIClient) (config : LLMConfig) (params : GenerateOptions)
    (messages : list ChatCompletionMessage) : ChatCompletionRequest :=
  mkChatRequest (ClientModel c) messages [] config false (Format params).

Definition finalResponse (lib : StdLib) (c : OpenAIClient) (req : ChatCompletionRequest)
  : Res string :=
  match CreateChatCompletion c req with
  | Err err => Err ("failed to create final chat completion: " +:+ err)
  | Ok finalCompletion =>
      match Choices finalCompletion with
      | [] => Err "no completions returned"
      | choice :: _ => Ok (TrimSpace lib (Content choice))
      end
  end.

(** The reply that a plain (not wrapped) tool call adds to the
    conversation: the tool's result, or ["Error: "] and its error. *)
Definition toolReply (tools : list Tool) (ctx : Context) (toolCall : ToolCall)
  : list ChatCompletionMessage :=
  match findTool tools (FunctionName toolCall) with
  | None => []
  | Some selectedTool =>
      match Execute selectedTool ctx (Arguments toolCall) with
      | Err err => [toolMessage ("Error: " +:+ err) (Name selectedTool) (ID toolCall)]
      | Ok toolResult => [toolMessage toolResult (Name selectedTool) (ID toolCall)]
      end
  end.

(** A plain tool call that names a tool of the list. *)
Definition plainResolved (tools : list Tool) (toolCall : ToolCall) : Prop :=
  FunctionName toolCall <> "parallel_tool_use"
  /\ exists tool, findTool tools (FunctionName toolCall) = Some tool /\ Name tool <> EmptyString.

(** The first request. *)
Definition effectiveConfig (params : GenerateOptions) : LLMConfig :=
  match Config params with
  | Some cfg => cfg
  | None => defaultLLMConfig
  end.

Definition firstRequest (c : OpenAIClient) (prompt : string) (tools : list Tool)
    (params : GenerateOptions) : ChatCompletionRequest :=
  mkChatRequest (ClientModel c)
    (systemMessages params (effectiveConfig params) ++ [plainMessage "user" prompt])
    (map (fun tool => (Name tool, Description tool)) tools)
    (effectiveConfig params) true (Format params).

(** The branch of [GenerateWithTools] taken when the first response asks
    for tools: rename, run the tool calls, send the second request. It
    returns the result and the requests sent after the first one. *)
Definition toolTurn (lib : StdLib) (c : OpenAIClient) (ctx : Context) (prompt : string)
    (tools : list Tool) (params : GenerateOptions) (choice : ChatCompletionMessage)
    (orders : list (list nat)) : Outcome string * list ChatCompletionRequest :=
  let toolCalls := map renameParallel (ToolCalls choice) in
  let assistant :=
    mkChatMessage (Role choice) (Content choice) (MsgName choice)
      (ToolCallID choice) toolCalls in
  match processToolCalls lib tools ctx toolCalls orders
          [plainMessage "user" prompt; assistant] with
  | Panic => (Panic, [])
  | Return (Err err) => (Return (Err err), [])
  | Return (Ok messages) =>
      let req := finalRequest c (effectiveConfig params) params messages in
      (Return (finalResponse lib c req), [req])
  end.

(** [GenerateWithTools] returns its result and the requests it has sent to
    the provider. *)
Definition GenerateWithTools (lib : StdLib) (c : OpenAIClient) (ctx : Context)
    (prompt : string) (tools : list Tool) (options : list (option GenerateOption))
    (orders : list (list nat)) : Outcome string * list ChatCompletionRequest :=
  let params := applyOptions options in
  let req := firstRequest c prompt tools params in
  match CreateChatCompletion c req with
  | Err err => (Return (Err ("failed to create chat completion: " +:+ err)), [req])
  | Ok resp =>
      match Choices resp with
      | [] => (Return (Err "no completions returned"), [req])
      | choice :: _ =>
          if decide (0 < Z.of_nat (length (ToolCalls choice))) then
            let '(result, sent) := toolTurn lib c ctx prompt tools params choice orders in
            (result, req :: sent)
          else (Return (Ok (TrimSpace lib (Content choice))), [req])
      end
  end.

End OpenAI.

(** ** pkg/agent: the agent runtime *)
Module Agents.
Import Interfaces Tools ExecutionPlans LLMOptions.

(** *** The collaborators of an agent (pkg/interfaces) *)

Record LLM : Type := mkLLM {
  Generate : Context -> string -> list (option GenerateOption) -> Res string;
  GenerateWithTools :
    Context -> string -> list Tool -> list (option GenerateOption) -> Res string;
  LLMName : string
}.

(** A memory backend with state [MS]. *)
Record Memory (MS : Type) : Type := mkMemory {
  AddMessage : Context -> Message -> MS -> option string * MS;
  GetMessages : Context -> list GetMessagesOption -> MS -> Res (list Message);
  Clear : Context -> MS -> option string * MS
}.
Arguments AddMessage {MS} _ _ _ _.
Arguments GetMessages {MS} _ _ _ _.
Arguments Clear {MS} _ _ _.
Arguments mkMemory {MS} _ _ _.

Record Guardrails : Type := mkGuardrails {
  ProcessInput : Context -> string -> Res string;
  ProcessOutput : Context -> string -> Res string
}.

(** [StartSpan] gives the context to go on with; the span itself has no
    part in the result. *)
Record Tracer : Type := mkTracer {
  StartSpan : Context -> string -> Context
}.

Record MCPTool : Type := mkMCPTool {
  MCPName : string;
  MCPDescription : string;
  MCPSchema : Any
}.

(** An MCP server: its tool list, and [MCPTool.Run] against it for the
    tool of a given name (decode the input, [CallTool], render the
    response). *)
Record MCPServer : Type := mkMCPServer {
  ListTools : Context -> Res (list MCPTool);
  RunTool : string -> Context -> string -> Res string
}.

Definition NewMCPTool (name description : string) (schema : Any) (server : MCPServer) : Tool :=
  mkTool name description (RunTool server name) (RunTool server name).

Record Generator : Type := mkGenerator {
  GenerateExecutionPlan : Context -> string -> Res ExecutionPlan;
  ModifyExecutionPlan : Context -> ExecutionPlan -> string -> Res ExecutionPlan
}.

(** The parts of [pkg/executionplan] and of the Go library that the agent
    calls and that are not among the sources: the plan generator, the plan
    formatter, the text of a status, and [strings.ToLower]. *)
Record Externals : Type := mkExternals {
  NewGenerator : LLM -> list Tool -> string -> Generator;
  FormatExecutionPlan : ExecutionPlan -> string;
  statusText : ExecutionPlanStatus -> string;
  ToLower : string -> string
}.

(** *** The agent *)

Record Agent (MS : Type) : Type := mkAgent {
  llm : LLM;
  memory : option (Memory MS);
  tools : list Tool;
  orgID : string;
  tracer : option Tracer;
  guardrails : option Guardrails;
  systemPrompt : string;
  name : string;
  requirePlanApproval : bool;
  responseFormat : option ResponseFormat;
  llmConfig : option LLMConfig;
  mcpServers : list MCPServer
}.
Arguments llm {MS} _.
Arguments memory {MS} _.
Arguments tools {MS} _.
Arguments orgID {MS} _.
Arguments tracer {MS} _.
Arguments guardrails {MS} _.
Arguments systemPrompt {MS} _.
Arguments name {MS} _.
Arguments requirePlanApproval {MS} _.
Arguments responseFormat {MS} _.
Arguments llmConfig {MS} _.
Arguments mcpServers {MS} _.
Arguments mkAgent {MS} _ _ _ _ _ _ _ _ _ _ _ _.

(** [planExecutor] is [NewExecutor(agent.tools)], set once by [NewAgent]. *)
Definition planExecutor {MS} (a : Agent MS) : Executor := NewExecutor (tools a).

(** What changes while an agent runs: the state of its memory backend, the
    plan store and the plan generator ([Run] replaces it). *)
Record AgentState (MS : Type) : Type := mkAgentState {
  memState : MS;
  planStore : gmap string ExecutionPlan;
  planGenerator : Generator
}.
Arguments memState {MS} _.
Arguments planStore {MS} _.
Arguments planGenerator {MS} _.
Arguments mkAgentState {MS} _ _ _.

(** The state [NewAgent] leaves. *)
Definition initialState {MS} (ext : Externals) (a : Agent MS) (ms : MS) : AgentState MS :=
  mkAgentState ms ∅ (NewGenerator ext (llm a) (tools a) (systemPrompt a)).

(** The calls an agent makes on its collaborators, in order, and the
    dispatch of a plan action to its handler. *)
Inductive Event : Type :=
| EvAddMessage (ctx : Context) (message : Message)
| EvGetMessages (ctx : Context)
| EvProcessInput (input : string)
| EvProcessOutput (output : string)
| EvGenerate (prompt : string)
| EvGenerateWithTools (prompt : string) (toolNames : list string)
| EvListTools
| EvGeneratePlan (input : string)
| EvModifyPlan (taskID input : string)
| EvPlanAction (taskID action input : string)
| EvExecutor (taskID : string) (ev : ExecEvent).

(** A call on the language model, directly or through the plan generator. *)
Definition isLLMCall (ev : Event) : bool :=
  match ev with
  | EvGenerate _ | EvGenerateWithTools _ _ | EvGeneratePlan _ | EvModifyPlan _ _ => true
  | _ => false
  end.

Definition isAssistantMessage (ev : Event) : bool :=
  match ev with
  | EvAddMessage _ message => bool_decide (Role message = "assistant")
  | _ => false
  end.

Definition isPlanAction (ev : Event) : bool :=
  match ev with
  | EvPlanAction _ _ _ | EvExecutor _ _ => true
  | _ => false
  end.

Definition noPlanAction (ev : Event) : Prop := isPlanAction ev = false.

(** A method of the agent: from a state to a result, the state it leaves
    and the events it caused. An error ends the method ([return "", err]),
    keeping the state and the events so far. *)
Definition M (MS A : Type) : Type := AgentState MS -> Res A * AgentState MS * list Event.

Definition ret {MS A} (x : A) : M MS A := fun st => (Ok x, st, []).

Definition bind {MS A B} (m : M MS A) (k : A -> M MS B) : M MS B :=
  fun st =>
    match m st with
    | (Err err, st1, log1) => (Err err, st1, log1)
    | (Ok x, st1, log1) =>
        let '(r, st2, log2) := k x st1 in (r, st2, log1 ++ log2)
    end.

Notation "x <- m ;; k" := (bind m (fun x => k))
  (at level 100, m at next level, right associativity).

(** [if err := a.memory.AddMessage(ctx, message); err != nil { return "", fmt.Errorf(prefix, err) }],
    nothing at all without a memory. *)
Definition addToMemory {MS} (a : Agent MS) (ctx : Context) (message : Message)
    (prefix : string) : M MS unit :=
  fun st =>
    match memory a with
    | None => (Ok tt, st, [])
    | Some mem =>
        let '(err, ms) := AddMessage mem ctx message (memState st) in
        let st1 := mkAgentState ms (planStore st) (planGenerator st) in
        match err with
        | Some e => (Err (prefix +:+ e), st1, [EvAddMessage ctx message])
        | None => (Ok tt, st1, [EvAddMessage ctx message])
        end
    end.

Definition userMessage (content : string) : Message := mkMessage "user" content [].
Definition assistantMessage (content : string) : Message := mkMessage "assistant" content [].

(** [strings.Contains] *)
Fixpoint Contains (s substr : string) : bool :=
  if String.prefix substr s then true
  else match s with
       | EmptyString => false
       | String _ s' => Contains s' substr
       end.

Definition roleQueries : list string :=
  [ "what are you"; "who are you"; "what is your role"; "what do you do";
    "what can you do"; "what is your purpose"; "what is your function";
    "tell me about yourself"; "introduce yourself"; "what are your capabilities";
    "what are you designed to do"; "what's your job"; "what kind of assistant are you";
    "your role"; "your expertise"; "what are you expert in";
    "what are you specialized in"; "your specialty"; "what's your specialty" ].

Definition isAskingAboutRole (ext : Externals) (input : string) : bool :=
  existsb (Contains (ToLower ext input)) roleQueries.

Definition rolePrompt (agentName sysPrompt : string) : string :=
  "Based on the following system prompt that defines your role and capabilities," +:+ nl
  +:+ "generate a brief, natural-sounding response (3-5 sentences) introducing yourself to a user who asked what you can do." +:+ nl
  +:+ "You are named " +:+ dquote +:+ agentName +:+ dquote +:+ "." +:+ nl
  +:+ "Do not directly quote from the system prompt, but create a conversational first-person response that captures your" +:+ nl
  +:+ "purpose, expertise, and how you can help. The response should feel like a natural conversation, not like reading documentation." +:+ nl
  +:+ nl
  +:+ "System prompt:" +:+ nl
  +:+ sysPrompt +:+ nl
  +:+ nl
  +:+ "Your response should:" +:+ nl
  +:+ "1. Introduce yourself using first-person perspective, mentioning your name (" +:+ dquote +:+ agentName +:+ dquote +:+ ")" +:+ nl
  +:+ "2. Briefly explain your specialization or purpose" +:+ nl
  +:+ "3. Mention 2-3 key areas you can help with" +:+ nl
  +:+ "4. End with a friendly question about how you can assist the user" +:+ nl
  +:+ nl
  +:+ "Response:".

(** [generateRoleResponse] never fails: an error of the model is replaced
    by a fixed text. *)
Definition generateRoleResponse {MS} (a : Agent MS) : M MS string :=
  fun st =>
    if decide (systemPrompt a = EmptyString) then
      (Ok "I'm an AI assistant designed to help you with various tasks and answer your questions. How can I assist you today?",
       st, [])
    else
      let agentName := if decide (name a <> EmptyString) then name a else "an AI assistant" in
      let prompt := rolePrompt agentName (systemPrompt a) in
      match Generate (llm a) Background prompt [Some (WithSystemMessage (systemPrompt a))] with
      | Ok response => (Ok response, st, [EvGenerate prompt])
      | Err _ =>
          if decide (name a <> EmptyString) then
            (Ok ("I'm " +:+ name a
                 +:+ ", an AI assistant based on the role defined in my system prompt. How can I help you today?"),
             st, [EvGenerate prompt])
          else
            (Ok "I'm an AI assistant based on the role defined in my system prompt. How can I help you today?",
             st, [EvGenerate prompt])
      end.

(** [collectMCPTools]: a server whose listing fails is skipped. *)
Fixpoint collectMCPTools (ctx : Context) (servers : list MCPServer) : list Tool * list Event :=
  match servers with
  | [] => ([], [])
  | server :: rest =>
      let '(more, log) := collectMCPTools ctx rest in
      match ListTools server ctx with
      | Err _ => (more, EvListTools :: log)
      | Ok listed =>
          (map (fun mcpTool =>
                  NewMCPTool (MCPName mcpTool) (MCPDescription mcpTool) (MCPSchema mcpTool) server)
               listed ++ more,
           EvListTools :: log)
      end
  end.

Definition formatHistoryIntoPrompt (history : list Message) : string :=
  fold_left (fun prompt msg => prompt +:+ Role msg +:+ ": " +:+ Content msg +:+ nl)
    history EmptyString.

Definition generateOptions {MS} (a : Agent MS) : list (option GenerateOption) :=
  (if decide (systemPrompt a <> EmptyString)
   then [Some (WithSystemMessage (systemPrompt a))] else [])
  ++ match responseFormat a with
     | Some format => [Some (WithResponseFormat format)]
     | None => []
     end
  ++ match llmConfig a with
     | Some config => [Some (WithLLMConfig config)]
     | None => []
     end.

Definition guardOutput {MS} (a : Agent MS) (ctx : Context) (response : string) : M MS string :=
  fun st =>
    match guardrails a with
    | None => (Ok response, st, [])
    | Some g =>
        match ProcessOutput g ctx response with
        | Err err => (Err ("guardrails error: " +:+ err), st, [EvProcessOutput response])
        | Ok guardedResponse => (Ok guardedResponse, st, [EvProcessOutput response])
        end
    end.

Definition runWithoutExecutionPlanWithTools {MS} (a : Agent MS) (ctx : Context)
    (input : string) (ts : list Tool) : M MS string :=
  prompt <- (fun st =>
               match memory a with
               | None => (Ok input, st, [])
               | Some mem =>
                   match GetMessages mem ctx [] (memState st) with
                   | Err err =>
                       (Err ("failed to get conversation history: " +:+ err), st,
                        [EvGetMessages ctx])
                   | Ok history => (Ok (formatHistoryIntoPrompt history), st, [EvGetMessages ctx])
                   end
               end) ;;
  response <- (fun st =>
                 if decide (0 < Z.of_nat (length ts)) then
                   match GenerateWithTools (llm a) ctx prompt ts (generateOptions a) with
                   | Err err =>
                       (Err ("failed to generate response: " +:+ err), st,
                        [EvGenerateWithTools prompt (map Name ts)])
                   | Ok response => (Ok response, st, [EvGenerateWithTools prompt (map Name ts)])
                   end
                 else
                   match Generate (llm a) ctx prompt (generateOptions a) with
                   | Err err => (Err ("failed to generate response: " +:+ err), st, [EvGenerate prompt])
                   | Ok response => (Ok response, st, [EvGenerate prompt])
                   end) ;;
  response <- guardOutput a ctx response ;;
  _ <- addToMemory a ctx (assistantMessage response) "failed to add agent message to memory: " ;;
  ret response.

Definition planOffer (ext : Externals) (intro : string) (plan : ExecutionPlan) (closing : string)
  : string :=
  intro +:+ nl +:+ nl +:+ FormatExecutionPlan ext plan +:+ nl +:+ closing.

Definition runWithExecutionPlan {MS} (ext : Externals) (a : Agent MS) (ctx : Context)
    (input : string) : M MS string :=
  plan <- (fun st =>
             match GenerateExecutionPlan (planGenerator st) ctx input with
             | Err err =>
                 (Err ("failed to generate execution plan: " +:+ err), st, [EvGeneratePlan input])
             | Ok plan =>
                 (Ok plan,
                  mkAgentState (memState st) (StorePlan (planStore st) plan) (planGenerator st),
                  [EvGeneratePlan input])
             end) ;;
  let text := planOffer ext "I've created an execution plan for your request:" plan
                "Do you approve this plan? You can modify it if needed." in
  _ <- addToMemory a ctx (assistantMessage text) "failed to add plan to memory: " ;;
  ret text.

(** *** The plan handlers. A handler works on the plan it is given (a
    pointer in Go) and returns the plan as it leaves it. *)

Definition approvePlan {MS} (a : Agent MS) (ctx : Context) (plan : ExecutionPlan)
  : AgentState MS -> Res string * ExecutionPlan * AgentState MS * list Event :=
  fun st =>
    let approved := setStatus (setUserApproved plan true) StatusApproved in
    match addToMemory a ctx (userMessage "I approve the plan. Please proceed with execution.")
            "failed to add approval to memory: " st with
    | (Err err, st1, log1) => (Err err, approved, st1, log1)
    | (Ok _, st1, log1) =>
        let '(r, executed, evs) := ExecutePlan (planExecutor a) ctx approved in
        let log2 := log1 ++ map (EvExecutor (TaskID plan)) evs in
        match r with
        | Err err => (Err ("failed to execute plan: " +:+ err), executed, st1, log2)
        | Ok result =>
            match addToMemory a ctx (assistantMessage result)
                    "failed to add execution result to memory: " st1 with
            | (Err err, st2, log3) => (Err err, executed, st2, log2 ++ log3)
            | (Ok _, st2, log3) => (Ok result, executed, st2, log2 ++ log3)
            end
        end
    end.

Definition modifyPlan {MS} (ext : Externals) (a : Agent MS) (ctx : Context)
    (plan : ExecutionPlan) (input : string) : M MS string :=
  _ <- addToMemory a ctx (userMessage ("I'd like to modify the plan: " +:+ input))
         "failed to add modification request to memory: " ;;
  modifiedPlan <- (fun st =>
                     match ModifyExecutionPlan (planGenerator st) ctx plan input with
                     | Err err =>
                         (Err ("failed to modify plan: " +:+ err), st,
                          [EvModifyPlan (TaskID plan) input])
                     | Ok modifiedPlan =>
                         (Ok modifiedPlan,
                          mkAgentState (memState st) (StorePlan (planStore st) modifiedPlan)
                            (planGenerator st),
                          [EvModifyPlan (TaskID plan) input])
                     end) ;;
  let text := planOffer ext "I've updated the execution plan based on your feedback:" modifiedPlan
                "Do you approve this plan? You can modify it further if needed." in
  _ <- addToMemory a ctx (assistantMessage text) "failed to add modified plan to memory: " ;;
  ret text.

Definition cancelPlan {MS} (a : Agent MS) (plan : ExecutionPlan) : Res string * ExecutionPlan :=
  (Ok "Plan cancelled. What would you like to do instead?", CancelPlan (planExecutor a) plan).

Definition getPlanStatus {MS} (ext : Externals) (a : Agent MS) (plan : ExecutionPlan) : Res string :=
  Ok ("Current plan status: " +:+ statusText ext (GetPlanStatus (planExecutor a) plan)
      +:+ nl +:+ nl +:+ FormatExecutionPlan ext plan).

(** The handlers change the plan through the pointer the store holds, so
    the stored plan changes with it. *)
Definition updateStored {MS} (taskID : string) (plan : ExecutionPlan) (st : AgentState MS)
  : AgentState MS :=
  mkAgentState (memState st) (<[taskID := plan]> (planStore st)) (planGenerator st).

Definition handlePlanAction {MS} (ext : Externals) (a : Agent MS) (ctx : Context)
    (taskID action input : string) : M MS string :=
  fun st =>
    match GetPlanByTaskID (planStore st) taskID with
    | None => (Err ("plan with task ID " +:+ taskID +:+ " not found"), st,
               [EvPlanAction taskID action input])
    | Some plan =>
        if decide (action = "approve") then
          let '(r, plan1, st1, log) := approvePlan a ctx plan st in
          (r, updateStored taskID plan1 st1, EvPlanAction taskID action input :: log)
        else if decide (action = "modify") then
          let '(r, st1, log) := modifyPlan ext a ctx plan input st in
          (r, st1, EvPlanAction taskID action input :: log)
        else if decide (action = "cancel") then
          let '(r, plan1) := cancelPlan a plan in
          (r, updateStored taskID plan1 st, [EvPlanAction taskID action input])
        else if decide (action = "status") then
          (getPlanStatus ext a plan, st, [EvPlanAction taskID action input])
        else (Err ("unknown plan action: " +:+ action), st, [EvPlanAction taskID action input])
    end.

(** [extractPlanAction]: the placeholder of the source. It finds no task
    id and no action in any input. *)
Definition extractPlanAction {MS} (a : Agent MS) (input : string) : string * string * string :=
  (EmptyString, EmptyString, input).

(** The context [Run] works with: the agent's organization id, if it has
    one, and the tracer's span. *)
Definition runContext {MS} (a : Agent MS) (ctx : Context) : Context :=
  let ctx1 := if decide (orgID a <> EmptyString)
              then Multitenancy.WithOrgID ctx (orgID a) else ctx in
  match tracer a with
  | Some t => StartSpan t ctx1 "agent.Run"
  | None => ctx1
  end.

Definition guardInput {MS} (a : Agent MS) (ctx : Context) (input : string) : M MS string :=
  fun st =>
    match guardrails a with
    | None => (Ok input, st, [])
    | Some g =>
        match ProcessInput g ctx input with
        | Err err => (Err ("guardrails error: " +:+ err), st, [EvProcessInput input])
        | Ok guardedInput => (Ok guardedInput, st, [EvProcessInput input])
        end
    end.

Definition Run {MS} (ext : Externals) (a : Agent MS) (ctx0 : Context) (input0 : string)
  : M MS string :=
  let ctx := runContext a ctx0 in
  _ <- addToMemory a ctx (userMessage input0) "failed to add user message to memory: " ;;
  input <- guardInput a ctx input0 ;;
  let '(taskID, action, planInput) := extractPlanAction a input in
  if decide (taskID <> EmptyString) then handlePlanAction ext a ctx taskID action planInput
  else if bool_decide (systemPrompt a <> EmptyString) && isAskingAboutRole ext input then
    response <- generateRoleResponse a ;;
    _ <- addToMemory a ctx (assistantMessage response) "failed to add role response to memory: " ;;
    ret response
  else
    allTools <- (fun st =>
                   if decide (0 < Z.of_nat (length (mcpServers a))) then
                     let '(mcpTools, log) := collectMCPTools ctx (mcpServers a) in
                     (Ok (tools a ++ mcpTools), st, log)
                   else (Ok (tools a), st, [])) ;;
    if bool_decide (0 < Z.of_nat (length allTools)) && requirePlanApproval a then
      _ <- (fun st =>
              (Ok tt,
               mkAgentState (memState st) (planStore st)
                 (NewGenerator ext (llm a) allTools (systemPrompt a)),
               [])) ;;
      runWithExecutionPlan ext a ctx input
    else runWithoutExecutionPlanWithTools a ctx input allTools.

(** The public entry point of approval. *)
Definition ApproveExecutionPlan {MS} (a : Agent MS) (ctx : Context) (plan : ExecutionPlan)
  : AgentState MS -> Res string * ExecutionPlan * AgentState MS * list Event :=
  approvePlan a ctx plan.

End Agents.

(** ** pkg/orchestration/code_orchestrator.go *)
Module Orchestration.

Inductive TaskStatus : Type :=
| TaskPending
| TaskRunning
| TaskCompleted
| TaskFailed.

#[export] Instance TaskStatus_eq_dec : EqDecision TaskStatus.
Proof. solve_decision. Defined.

Record Task : Type := mkTask {
  ID : string;
  AgentID : string;
  Input : string;
  Dependencies : list string;
  Status : TaskStatus;
  Result : string;
  Error : option string
}.

Record Workflow : Type := mkWorkflow {
  Tasks : list Task;
  Results : gmap string string;
  Errors : gmap string string;
  FinalTaskID : string
}.

Definition NewWorkflow : Workflow := mkWorkflow [] ∅ ∅ EmptyString.

Definition AddTask (w : Workflow) (id agentID input : string) (dependencies : list string)
  : Workflow :=
  mkWorkflow (Tasks w ++ [mkTask id agentID input dependencies TaskPending EmptyString None])
    (Results w) (Errors w) (FinalTaskID w).

Definition SetFinalTask (w : Workflow) (id : string) : Workflow :=
  mkWorkflow (Tasks w) (Results w) (Errors w) id.

(** A workflow as a client builds it: [NewWorkflow], one [AddTask] for each
    [(id, agentID, input, dependencies)], then [SetFinalTask]. *)
Definition TaskSpec : Type := string * string * string * list string.

Definition buildWorkflow (specs : list TaskSpec) (finalTaskID : string) : Workflow :=
  SetFinalTask
    (fold_left (fun w '(id, agentID, input, dependencies) =>
                  AddTask w id agentID input dependencies) specs NewWorkflow)
    finalTaskID.

(** The agent registry is not among the sources. [registry.Get] is taken
    as a function; an agent is what its [Run] returns for an input. *)
Definition AgentRegistry : Type := string -> option (string -> Res string).

(** *** The goroutines of [ExecuteWorkflow]

    [ExecuteWorkflow] runs a main goroutine, a monitor goroutine and one
    worker goroutine for each call of [executeTask]. A configuration holds
    the shared data and the point each goroutine has reached; an action is
    one step of one goroutine. The steps are: one iteration of a loop over
    [workflow.Tasks]; for a worker, the write of [TaskRunning], the
    preparation of the input, the return of the agent with the writes that
    follow it, the send on the completion channel (a rendezvous with the
    monitor's receive) and the deferred [wg.Done()]. *)

Inductive WorkerPC : Type :=
| WStart
| WRunning
| WCalling (input : string)
| WSending
| WReturning
| WDone.

Record Worker : Type := mkWorker {
  workerTask : nat;
  workerPC : WorkerPC
}.

Inductive MonitorPC : Type :=
| MSelect
| MCheck (i : nat)
| MScan (i : nat)
| MExited.

Inductive MainPC : Type :=
| MainSpawn (i : nat)
| MainWait
| MainReturned (result : Res string).

Record Config : Type := mkConfig {
  workflow : Workflow;
  completedTasks : gmap string bool;
  workers : list Worker;
  wg : nat;
  cancelled : bool;
  monitor : MonitorPC;
  main : MainPC
}.

Inductive Action : Type :=
| ActMain
| ActMonitor
| ActReceive (w : nat)
| ActMonitorDone
| ActWorker (w : nat)
| ActCancel.

Definition initial (wf : Workflow) : Config :=
  mkConfig wf ∅ [] 0 false MSelect (MainSpawn 0).

(** [wg.Add(1); go o.executeTask(ctx, task, ...)] for the task at index [i]. *)
Definition spawn (i : nat) (c : Config) : Config :=
  mkConfig (workflow c) (completedTasks c) (workers c ++ [mkWorker i WStart]) (S (wg c))
    (cancelled c) (monitor c) (main c).

Definition setMain (pc : MainPC) (c : Config) : Config :=
  mkConfig (workflow c) (completedTasks c) (workers c) (wg c) (cancelled c) (monitor c) pc.

Definition setMonitor (pc : MonitorPC) (c : Config) : Config :=
  mkConfig (workflow c) (completedTasks c) (workers c) (wg c) (cancelled c) pc (main c).

Definition cancel (c : Config) : Config :=
  mkConfig (workflow c) (completedTasks c) (workers c) (wg c) true (monitor c) (main c).

Definition setWorkerPC (w : nat) (pc : WorkerPC) (c : Config) : Config :=
  mkConfig (workflow c) (completedTasks c)
    (alter (fun wk => mkWorker (workerTask wk) pc) w (workers c))
    (wg c) (cancelled c) (monitor c) (main c).

Definition setWorkflow (wf : Workflow) (c : Config) : Config :=
  mkConfig wf (completedTasks c) (workers c) (wg c) (cancelled c) (monitor c) (main c).

(** [completedTasks[taskID] = true] *)
Definition markCompleted (taskID : string) (c : Config) : Config :=
  mkConfig (workflow c) (<[taskID := true]> (completedTasks c)) (workers c) (wg c)
    (cancelled c) (monitor c) (main c).

(** [wg.Done()] *)
Definition wgDone (c : Config) : Config :=
  mkConfig (workflow c) (completedTasks c) (workers c) (pred (wg c)) (cancelled c)
    (monitor c) (main c).

Definition setStatus (i : nat) (s : TaskStatus) (wf : Workflow) : Workflow :=
  mkWorkflow
    (alter (fun t => mkTask (ID t) (AgentID t) (Input t) (Dependencies t) s (Result t) (Error t))
       i (Tasks wf))
    (Results wf) (Errors wf) (FinalTaskID wf).

(** [task.Status = TaskFailed; task.Error = err; workflow.Errors[task.ID] = task.Error] *)
Definition failTask (i : nat) (err : string) (wf : Workflow) : Workflow :=
  match Tasks wf !! i with
  | None => wf
  | Some t =>
      mkWorkflow
        (<[i := mkTask (ID t) (AgentID t) (Input t) (Dependencies t) TaskFailed (Result t)
                  (Some err)]> (Tasks wf))
        (Results wf) (<[ID t := err]> (Errors wf)) (FinalTaskID wf)
  end.

(** [task.Status = TaskCompleted; task.Result = result; workflow.Results[task.ID] = result] *)
Definition completeTask (i : nat) (result : string) (wf : Workflow) : Workflow :=
  match Tasks wf !! i with
  | None => wf
  | Some t =>
      mkWorkflow
        (<[i := mkTask (ID t) (AgentID t) (Input t) (Dependencies t) TaskCompleted result
                  (Error t)]> (Tasks wf))
        (<[ID t := result]> (Results wf)) (Errors wf) (FinalTaskID wf)
  end.

(** The input of a task: its own, then the result of each dependency that
    has one. *)
Definition prepareInput (wf : Workflow) (t : Task) : string :=
  fold_left (fun input depID =>
               match Results wf !! depID with
               | Some result => input +:+ nl +:+ nl +:+ "Result from " +:+ depID +:+ ": " +:+ result
               | None => input
               end) (Dependencies t) (Input t).

(** [allDepsCompleted] *)
Definition allDepsCompleted (completed : gmap string bool) (t : Task) : bool :=
  forallb (fun depID => default false (completed !! depID)) (Dependencies t).

(** The end of [ExecuteWorkflow], after [wg.Wait()]. *)
Definition finalResult (wf : Workflow) : Res string :=
  if decide (FinalTaskID wf <> EmptyString) then
    match Errors wf !! FinalTaskID wf with
    | Some err => Err ("final task failed: " +:+ err)
    | None =>
        match Results wf !! FinalTaskID wf with
        | Some result => Ok result
        | None => Err "final task result not found"
        end
    end
  else Ok EmptyString.

Definition stepMain (c : Config) : option Config :=
  match main c with
  | MainSpawn i =>
      match Tasks (workflow c) !! i with
      | None => Some (setMain MainWait c)
      | Some t =>
          if decide (length (Dependencies t) = 0%nat)
          then Some (setMain (MainSpawn (S i)) (spawn i c))
          else Some (setMain (MainSpawn (S i)) c)
      end
  | MainWait =>
      if decide (wg c = 0%nat)
      then Some (cancel (setMain (MainReturned (finalResult (workflow c))) c))
      else None
  | MainReturned _ => None
  end.

Definition stepMonitor (c : Config) : option Config :=
  match monitor c with
  | MCheck i =>
      match Tasks (workflow c) !! i with
      | None => Some (cancel (setMonitor MExited c))
      | Some t =>
          if decide (Status t <> TaskCompleted /\ Status t <> TaskFailed)
          then Some (setMonitor (MScan 0) c)
          else Some (setMonitor (MCheck (S i)) c)
      end
  | MScan i =>
      match Tasks (workflow c) !! i with
      | None => Some (setMonitor MSelect c)
      | Some t =>
          if decide (Status t = TaskPending) then
            if allDepsCompleted (completedTasks c) t
            then Some (setMonitor (MScan (S i)) (spawn i c))
            else Some (setMonitor (MScan (S i)) c)
          else Some (setMonitor (MScan (S i)) c)
      end
  | MSelect | MExited => None
  end.

(** [case taskID := <-taskCompletionCh]: the monitor takes the id that
    worker [w] is sending and marks it. *)
Definition stepReceive (w : nat) (c : Config) : option Config :=
  match monitor c, workers c !! w with
  | MSelect, Some (mkWorker i WSending) =>
      match Tasks (workflow c) !! i with
      | None => None
      | Some t =>
          Some (setMonitor (MCheck 0) (markCompleted (ID t) (setWorkerPC w WReturning c)))
      end
  | _, _ => None
  end.

(** [case <-ctx.Done()] *)
Definition stepMonitorDone (c : Config) : option Config :=
  match monitor c with
  | MSelect => if cancelled c then Some (setMonitor MExited c) else None
  | _ => None
  end.

Definition stepWorker (registry : AgentRegistry) (w : nat) (c : Config) : option Config :=
  match workers c !! w with
  | None => None
  | Some (mkWorker i pc) =>
      match Tasks (workflow c) !! i with
      | None => None
      | Some t =>
          match pc with
          | WStart =>
              Some (setWorkerPC w WRunning (setWorkflow (setStatus i TaskRunning (workflow c)) c))
          | WRunning =>
              match registry (AgentID t) with
              | None =>
                  Some (setWorkflow (failTask i ("agent not found: " +:+ AgentID t) (workflow c))
                          (setWorkerPC w WSending c))
              | Some _ => Some (setWorkerPC w (WCalling (prepareInput (workflow c) t)) c)
              end
          | WCalling input =>
              match registry (AgentID t) with
              | None => None
              | Some agent =>
                  match agent input with
                  | Err err =>
                      Some (setWorkflow
                              (failTask i ("agent execution failed: " +:+ err) (workflow c))
                              (setWorkerPC w WSending c))
                  | Ok result =>
                      Some (setWorkflow (completeTask i result (workflow c))
                              (setWorkerPC w WSending c))
                  end
              end
          | WSending => None
          | WReturning =>
              Some (wgDone (setWorkerPC w WDone c))
          | WDone => None
          end
      end
  end.

Definition step (registry : AgentRegistry) (act : Action) (c : Config) : option Config :=
  match act with
  | ActMain => stepMain c
  | ActMonitor => stepMonitor c
  | ActReceive w => stepReceive w c
  | ActMonitorDone => stepMonitorDone c
  | ActWorker w => stepWorker registry w c
  | ActCancel => Some (cancel c)
  end.

(** A schedule is a sequence of actions; it runs if each action is
    enabled when its turn comes. *)
Fixpoint exec (registry : AgentRegistry) (schedule : list Action) (c : Config) : option Config :=
  match schedule with
  | [] => Some c
  | act :: rest =>
      match step registry act c with
      | Some c' => exec registry rest c'
      | None => None
      end
  end.

(** A worker that has written the final status of its task. *)
Definition finished (wk : Worker) : bool :=
  match workerPC wk with
  | WSending | WReturning | WDone => true
  | _ => false
  end.

(** A worker that has sent the id of its task to the monitor. *)
Definition signalled (wk : Worker) : bool :=
  match workerPC wk with
  | WReturning | WDone => true
  | _ => false
  end.

Definition taskOf (c : Config) (wk : Worker) : option Task :=
  Tasks (workflow c) !! workerTask wk.

(** Some worker started for a task with this id satisfies [P]. *)
Definition backedBy (P : Worker -> bool) (c : Config) (id : string) : Prop :=
  exists j wk t,
    workers c !! j = Some wk /\ taskOf c wk = Some t /\ ID t = id /\ P wk = true.

(** What holds of every configuration that [ExecuteWorkflow] can reach. *)
Record Inv (c : Config) : Prop := mkInv {
  inv_deps :
    forall j wk t d,
      workers c !! j = Some wk -> taskOf c wk = Some t -> d ∈ Dependencies t ->
      completedTasks c !! d = Some true;
  inv_signals :
    forall d, completedTasks c !! d = Some true -> backedBy signalled c d;
  inv_started :
    forall j wk t,
      workers c !! j = Some wk -> taskOf c wk = Some t -> workerPC wk <> WStart ->
      Status t <> TaskPending;
  inv_outputs :
    forall id,
      is_Some (Results (workflow c) !! id) \/ is_Some (Errors (workflow c) !! id) ->
      backedBy finished c id;
  inv_returned :
    forall r, main c = MainReturned r ->
      (FinalTaskID (workflow c) = EmptyString -> r = Ok EmptyString)
      /\ (FinalTaskID (workflow c) <> EmptyString ->
          r <> Err "final task result not found" ->
          backedBy finished c (FinalTaskID (workflow c)))
}.

(** How one write of a worker changes the workflow: the task at [i] gets
    status [s], and nothing else of the shape of the tasks changes. *)
Definition taskStep (wf wf' : Workflow) (i : nat) (s : TaskStatus) : Prop :=
  FinalTaskID wf' = FinalTaskID wf
  /\ (forall k t', Tasks wf' !! k = Some t' ->
        exists t, Tasks wf !! k = Some t /\ ID t' = ID t /\ Dependencies t' = Dependencies t
                  /\ ((k = i /\ Status t' = s) \/ (k <> i /\ Status t' = Status t)))
  /\ (forall k t, Tasks wf !! k = Some t ->
        exists t', Tasks wf' !! k = Some t' /\ ID t' = ID t).

End Orchestration.

(** ** Predicates and measures used in the statements of Part II *)

Module MemorySpec.

(** An id without a colon. *)
Fixpoint noColon (s : string) : bool :=
  match s with
  | EmptyString => true
  | String ch rest => negb (Ascii.eqb ch ":"%char) && noColon rest
  end.

End MemorySpec.

Module RedisSpec.
Import Interfaces Memory Memory.Redis.

(** The key the three operations use for a context with a conversation
    key. *)
Definition redisKey (r : RedisMemory) (ctx : Context) : string :=
  keyPrefix r
  +:+ match Multitenancy.GetOrgID ctx with Ok id => id | Err _ => "default" end
  +:+ ":"
  +:+ match getConversationID ctx with Ok id => id | Err _ => EmptyString end.

(** The encoding of a message, the empty text if it has none. *)
Definition encoded (codec : JSONCodec) (message : Message) : string :=
  match MarshalMessage codec message with
  | Ok json => json
  | Err _ => EmptyString
  end.

(** The commands of an [AddMessage] that pushes [k] times. *)
Definition pushCommands (codec : JSONCodec) (r : RedisMemory) (ctx : Context)
    (message : Message) (k : nat) (err : option string) : list RedisCmd :=
  replicate k (RPush (redisKey r ctx) (encoded codec message))
  ++ match err with
     | None => [Expire (redisKey r ctx) (ttl r)]
     | Some _ => []
     end.

End RedisSpec.

Module ExecutorSpec.
Import Tools ExecutionPlans.

(** A step whose tool is registered and returns [result]. *)
Definition stepSucceeds (e : Executor) (ctx : Context) (step : ExecutionStep) (result : string)
  : Prop :=
  exists tool, tools e !! ToolName step = Some tool /\ Execute tool ctx (Input step) = Ok result.

Definition toolCall (step : ExecutionStep) : ExecEvent :=
  ToolExecute (ToolName step) (Input step).

(** The records of the steps that follow step number [i], with their
    results. *)
Fixpoint stepRecords (i : Z) (steps : list ExecutionStep) (results : list string)
  : list string :=
  match steps, results with
  | step :: steps', result :: results' =>
      ("Step " +:+ pretty (i + 1) +:+ " (" +:+ StepDescription step +:+ "): " +:+ result)
      :: stepRecords (i + 1) steps' results'
  | _, _ => []
  end.

End ExecutorSpec.

Module OpenAISpec.
Import Tools LLMOptions OpenAI.

(** A message that answers a tool call. *)
Definition isToolReply (msg : ChatCompletionMessage) : Prop :=
  Role msg = "tool" /\ ToolCalls msg = [].

(** The second request of a turn: no tools are offered any more, and the
    conversation is the prompt, the assistant's message and tool replies. *)
Definition isFollowUp (prompt : string) (req : ChatCompletionRequest) : Prop :=
  RequestTools req = [] /\ ParallelToolCalls req = false
  /\ exists assistant replies,
       Messages req = plainMessage "user" prompt :: assistant :: replies
       /\ Forall isToolReply replies.

(** A decoded tool use on which a type assertion of the worker fails. *)
Definition malformed (toolUse : gmap string Any) : Prop :=
  (forall name, toolUse !! "recipient_name" <> Some (AStr name))
  \/ (forall parameters, toolUse !! "parameters" <> Some (AMap parameters)).

End OpenAISpec.

Module AgentSpec.
Import Interfaces Tools ExecutionPlans LLMOptions Agents.

(** An event in which a tool can run: a generation with tools, or a step
    of the plan executor. *)
Definition isToolUse (ev : Event) : bool :=
  match ev with
  | EvGenerateWithTools _ _ | EvExecutor _ _ => true
  | _ => false
  end.

Definition isOutputCheck (ev : Event) : bool :=
  match ev with
  | EvProcessOutput _ => true
  | _ => false
  end.

(** A postcondition on what a method returns, the state it leaves and the
    events it caused. *)
Definition post {MS A} (Q : Res A -> AgentState MS -> list Event -> Prop)
    (x : Res A * AgentState MS * list Event) : Prop :=
  Q (fst (fst x)) (snd (fst x)) (snd x).

(** The input as it leaves the input guardrails, when they accept it. *)
Definition accepted {MS} (a : Agent MS) (ctx : Context) (input guarded : string) : Prop :=
  match guardrails a with
  | None => guarded = input
  | Some g => ProcessInput g ctx input = Ok guarded
  end.

(** The text with which [runWithExecutionPlan] offers a plan. *)
Definition offer (ext : Externals) (plan : ExecutionPlan) : string :=
  planOffer ext "I've created an execution plan for your request:" plan
    "Do you approve this plan? You can modify it if needed.".

End AgentSpec.

Module OrchestrationSpec.
Import Orchestration.

(** A worker whose deferred [wg.Done()] has run. *)
Definition returned (wk : Worker) : bool :=
  match workerPC wk with
  | WDone => true
  | _ => false
  end.

(** The number of [executeTask] goroutines that have not returned yet. *)
Definition inFlight (c : Config) : nat :=
  length (List.filter (fun wk => negb (returned wk)) (workers c)).

(** The task that [AddTask] appends. *)
Definition newTask (spec : TaskSpec) : Task :=
  let '(id, agentID, input, dependencies) := spec in
  mkTask id agentID input dependencies TaskPending EmptyString None.

(** A set of task ids is closed when every task in it waits for an id in
    it: the tasks of a dependency cycle, or a task and the unknown id it
    names as a dependency. *)
Definition closedUnder (blocked : string -> bool) (specs : list TaskSpec) : bool :=
  forallb (fun spec => implb (blocked (ID (newTask spec)))
                         (existsb blocked (Dependencies (newTask spec)))) specs.

(** What holds of the tasks of a closed set in every configuration. *)
Record Idle (blocked : string -> bool) (c : Config) : Prop := mkIdle {
  idle_shape :
    forall k t, Tasks (workflow c) !! k = Some t -> blocked (ID t) = true ->
      exists d, d ∈ Dependencies t /\ blocked d = true;
  idle_workers :
    forall j wk t, workers c !! j = Some wk -> taskOf c wk = Some t -> blocked (ID t) = false;
  idle_pending :
    forall k t, Tasks (workflow c) !! k = Some t -> Status t <> TaskPending ->
      exists j wk, workers c !! j = Some wk /\ workerTask wk = k
}.

(** The call of a worker, from its start to the send of its id: three
    steps when the agent is registered, two when it is not. *)
Definition runWorker (registry : AgentRegistry) (agentID : string) (w : nat) : list Action :=
  match registry agentID with
  | Some _ => [ActWorker w; ActWorker w; ActWorker w]
  | None => [ActWorker w; ActWorker w]
  end.

(** The second of two independent tasks runs to its send before the worker
    of the first has written [TaskRunning]; the monitor then scans. *)
Definition doubleStartSchedule (registry : AgentRegistry) (agentID : string) : list Action :=
  [ActMain; ActMain] ++ runWorker registry agentID 1
  ++ [ActReceive 1; ActMonitor; ActMonitor].

(** The worker of the first task returns, and the main goroutine leaves
    [wg.Wait()], before the monitor has looked for tasks to start. *)
Definition earlyReturnSchedule (registry : AgentRegistry) (agentID : string) : list Action :=
  [ActMain; ActMain; ActMain] ++ runWorker registry agentID 0
  ++ [ActReceive 0; ActWorker 0; ActMain].

(** What [executeTask] writes when the agent has returned. *)
Definition recordOutcome (i : nat) (r : Res string) (wf : Workflow) : Workflow :=
  match r with
  | Ok result => completeTask i result wf
  | Err err => failTask i ("agent execution failed: " +:+ err) wf
  end.

End OrchestrationSpec.

(** ** Concrete collaborators, to run the definitions on *)
Module Fixtures.
Import Interfaces Tools ExecutionPlans LLMOptions.

Definition acme : Context := mkContext (Some "acme") (Some "c1").

(** A Redis server that accepts every command, and a codec that stores the
    bare content. *)
Definition acceptAll : Memory.Redis.RedisClient := fun _ _ => Ok [].
Definition contentCodec : Memory.Redis.JSONCodec :=
  Memory.Redis.mkJSONCodec (fun m => Ok (Content m)) (fun s => Ok (mkMessage "user" s [])).

(** Tools. *)
Definition constTool (name result : string) : Tool :=
  mkTool name name (fun _ _ => Ok result) (fun _ _ => Ok result).

Definition calculator : Tool := constTool "calculator" "42".

Definition broken : Tool :=
  mkTool "broken" "always fails" (fun _ _ => Err "boom") (fun _ _ => Err "boom").

(** Plans: one that has been executed, one that waits for approval. *)
Definition completedPlan : ExecutionPlan :=
  mkExecutionPlan [mkExecutionStep "calculator" "Multiply" "6*7" []]
    "Compute 6*7" "task-1" StatusCompleted 0 0 true.

Definition waitingPlan : ExecutionPlan :=
  mkExecutionPlan [mkExecutionStep "calculator" "Multiply" "6*7" []]
    "Compute 6*7" "task-1" StatusAwaitingApproval 0 0 false.

Definition approvedPlan : ExecutionPlan :=
  setStatus (setUserApproved waitingPlan true) StatusApproved.

(** A wrapped batch of three sub-calls, to the tools A, B and C. *)
Definition toolUse (recipient : string) : gmap string Any :=
  <["recipient_name" := AStr recipient]> (<["parameters" := AMap []]> ∅).

Definition batchLib : OpenAI.StdLib :=
  OpenAI.mkStdLib
    (fun arguments =>
       if decide (arguments = "batch") then Ok [toolUse "A"; toolUse "B"; toolUse "C"]
       else Err "invalid character")
    (fun _ => Ok "{}")
    (fun s => s).

Definition abcTools : list Tool := [constTool "A" "a"; constTool "B" "b"; constTool "C" "c"].

Definition batchCall : OpenAI.ToolCall := OpenAI.mkToolCall "call-1" "parallel_tool_use" "batch".

Definition brokenCall : OpenAI.ToolCall := OpenAI.mkToolCall "call-2" "broken" "{}".

(** A provider that asks for the wrapped batch in its first answer, and
    whose second answer shows the contents of the messages it was sent. *)
Definition batchProvider : OpenAI.OpenAIClient :=
  OpenAI.mkOpenAIClient
    (fun req =>
       if OpenAI.ParallelToolCalls req
       then Ok (OpenAI.mkChatResponse
                  [OpenAI.mkChatMessage "assistant" EmptyString EmptyString EmptyString
                     [OpenAI.mkToolCall "call-1" "multi_tool_use.parallel" "batch"]])
       else Ok (OpenAI.mkChatResponse
                  [OpenAI.plainMessage "assistant"
                     (Join (map OpenAI.Content (OpenAI.Messages req)) "|")]))
    "gpt-4o-mini".

Definition echoProvider : OpenAI.OpenAIClient :=
  OpenAI.mkOpenAIClient
    (fun req => Ok (OpenAI.mkChatResponse
                      [OpenAI.plainMessage "assistant"
                         (Join (map OpenAI.Content (OpenAI.Messages req)) "|")]))
    "gpt-4o-mini".

(** An agent with the in-memory buffer, a guardrail that blocks the word
    "forbidden", one tool and a model that answers "Paris". *)
Definition bufferMemory : Agents.Memory Memory.ConversationBuffer :=
  Agents.mkMemory
    (fun ctx message c => Memory.AddMessage c ctx message)
    (fun ctx options c => Memory.GetMessages c ctx options)
    (fun ctx c => Memory.Clear c ctx).

Definition blockForbidden : Agents.Guardrails :=
  Agents.mkGuardrails
    (fun _ input => if Agents.Contains input "forbidden" then Err "content blocked" else Ok input)
    (fun _ output => Ok output).

Definition parisLLM : Agents.LLM :=
  Agents.mkLLM (fun _ _ _ => Ok "Paris") (fun _ _ _ _ => Ok "Paris") "mock".

Definition newPlan (input : string) : ExecutionPlan :=
  mkExecutionPlan [mkExecutionStep "calculator" "Run the calculator" input []]
    input "task-2" StatusDraft 0 0 false.

Definition demoExternals : Agents.Externals :=
  Agents.mkExternals
    (fun _ _ _ => Agents.mkGenerator (fun _ input => Ok (newPlan input)) (fun _ plan _ => Ok plan))
    (fun plan => "# Execution Plan: " +:+ PlanDescription plan)
    (fun _ => "status")
    (fun s => s).

Definition guardedAgent : Agents.Agent Memory.ConversationBuffer :=
  Agents.mkAgent parisLLM (Some bufferMemory) [calculator] "acme" None (Some blockForbidden)
    EmptyString "demo" true None None [].

Definition waitingState : Agents.AgentState Memory.ConversationBuffer :=
  Agents.mkAgentState (Memory.NewConversationBuffer [])
    (StorePlan ∅ waitingPlan)
    (Agents.NewGenerator demoExternals parisLLM [calculator] EmptyString).

(** A workflow of two tasks: T1 names an agent that is not registered, T2
    depends on T1. *)
Import Orchestration.
Definition demoRegistry : Orchestration.AgentRegistry :=
  fun id => if decide (id = "a") then Some (fun input => Ok ("done: " +:+ input)) else None.

Definition failedDepSpecs : list Orchestration.TaskSpec :=
  [("T1", "missing", "in1", []); ("T2", "a", "in2", ["T1"])].

Definition failedDepSchedule : list Orchestration.Action :=
  [ActMain; ActMain; ActMain; ActWorker 0; ActWorker 0; ActReceive 0;
   ActMonitor; ActMonitor; ActMonitor; ActMonitor; ActWorker 0; ActMonitor;
   ActWorker 1].

Definition outcome (c : Orchestration.Config)
  : Orchestration.MainPC * nat * list (string * Orchestration.TaskStatus) :=
  (Orchestration.main c, Orchestration.wg c,
   map (fun t => (Orchestration.ID t, Orchestration.Status t))
     (Orchestration.Tasks (Orchestration.workflow c))).

End Fixtures.

(** ** More collaborators, for the runs of Part II *)
Module MoreFixtures.
Import Interfaces Tools ExecutionPlans LLMOptions Fixtures.

Definition otherConversation : Context := mkContext (Some "acme") (Some "c2").

Definition hello : Message := mkMessage "user" "hello" [].
Definition answer : Message := mkMessage "assistant" "hi there" [].

(** A buffer with a question and its answer in the conversation of
    [acme]. *)
Definition twoMessages : Memory.ConversationBuffer :=
  Memory.runOps [Memory.OpAddMessage acme hello; Memory.OpAddMessage acme answer]
    (Memory.NewConversationBuffer []).

(** A backend that refuses every message of more than one byte, and a
    server that answers every [LRange] with two entries. *)
Definition tinyRedis : Memory.Redis.RedisMemory :=
  Memory.Redis.NewRedisMemory acceptAll [Memory.Redis.WithMaxMessageSize 1].

Definition listingServer : Memory.Redis.RedisClient :=
  fun _ cmd =>
    match cmd with
    | Memory.Redis.LRange _ _ _ => Ok ["first"; "second"]
    | _ => Ok []
    end.

(** Two tenants. *)
Definition acmeConfig : Tenants.TenantConfig :=
  Tenants.mkTenantConfig "acme" (<["openai" := "sk-acme"]> ∅) ∅ ∅ ∅.

Definition globexConfig : Tenants.TenantConfig :=
  Tenants.mkTenantConfig "globex" (<["openai" := "sk-globex"]> ∅) ∅ ∅ ∅.

(** Approved plans: one whose second step fails, one whose second step
    names a tool that is not registered. *)
Definition multiply : ExecutionStep := mkExecutionStep "calculator" "Multiply" "6*7" [].
Definition explode : ExecutionStep := mkExecutionStep "broken" "Explode" "now" [].
Definition teleport : ExecutionStep := mkExecutionStep "teleporter" "Teleport" "home" [].

Definition failingPlan : ExecutionPlan :=
  mkExecutionPlan [multiply; explode; multiply] "Compute, then fail" "task-3"
    StatusApproved 0 0 true.

Definition unknownToolPlan : ExecutionPlan :=
  mkExecutionPlan [multiply; teleport; multiply] "Compute, then teleport" "task-4"
    StatusApproved 0 0 true.

(** A decoder that finds one empty tool use in every batch, and an answer
    of the model that calls a tool nobody has. *)
Definition emptyUseLib : OpenAI.StdLib :=
  OpenAI.mkStdLib (fun _ => Ok [∅]) (fun _ => Ok "{}") (fun s => s).

Definition unknownCall : OpenAI.ToolCall := OpenAI.mkToolCall "call-9" "teleporter" "{}".

Definition unknownChoice : OpenAI.ChatCompletionMessage :=
  OpenAI.mkChatMessage "assistant" EmptyString EmptyString EmptyString [unknownCall].

(** An agent with a system prompt and nothing else. *)
Definition guide : Agents.Agent unit :=
  Agents.mkAgent parisLLM None [] EmptyString None None "You are a city guide." "guide"
    false None None [].

Definition guideState : Agents.AgentState unit :=
  Agents.initialState demoExternals guide tt.

(** A workflow in which T1 and T2 wait for each other, beside the free
    task T0. *)
Definition cycleSpecs : list Orchestration.TaskSpec :=
  [("T0", "a", "in0", []); ("T1", "a", "in1", ["T2"]); ("T2", "a", "in2", ["T1"])].

Definition inCycle (id : string) : bool := String.eqb id "T1" || String.eqb id "T2".

Definition cycleSchedule : list Orchestration.Action :=
  [Orchestration.ActMain; Orchestration.ActMain; Orchestration.ActMain; Orchestration.ActMain;
   Orchestration.ActWorker 0; Orchestration.ActWorker 0; Orchestration.ActWorker 0;
   Orchestration.ActReceive 0; Orchestration.ActWorker 0;
   Orchestration.ActMonitor; Orchestration.ActMonitor; Orchestration.ActMonitor;
   Orchestration.ActMonitor; Orchestration.ActMonitor; Orchestration.ActMain].

End MoreFixtures.

(* ===================================================================== *)
(** * Part II: lemmas and theorems *)
(* ===================================================================== *)

Section BufferFacts.
Import Interfaces Memory.

Lemma NewConversationBuffer_messages_aux (options : list Memory.Option) (c : ConversationBuffer) :
  (forall o c', In o options -> messages (o c') = messages c') ->
  messages (fold_left (fun buffer option => option buffer) options c) = messages c.
Proof.
  revert c. induction options as [|o os IH]; intros c H; simpl; [reflexivity|].
  rewrite IH.
  - apply H. now left.
  - intros o' c' Hin. apply H. now right.
Qed.

Lemma AddMessage_maxSize c ctx m : maxSize (snd (AddMessage c ctx m)) = maxSize c.
Proof. unfold AddMessage. destruct (getConversationID ctx); reflexivity. Qed.

Lemma applyOp_maxSize c op : maxSize (applyOp c op) = maxSize c.
Proof.
  destruct op as [ctx m|ctx]; simpl.
  - apply AddMessage_maxSize.
  - unfold Clear. destruct (getConversationID ctx); reflexivity.
Qed.

Lemma runOps_maxSize ops c : maxSize (runOps ops c) = maxSize c.
Proof.
  revert c. induction ops as [|op ops IH]; intros c; simpl; [reflexivity|].
  unfold runOps in IH. rewrite IH. apply applyOp_maxSize.
Qed.

Lemma runOps_snoc ops op c : runOps (ops ++ [op]) c = applyOp (runOps ops c) op.
Proof. unfold runOps. now rewrite fold_left_app. Qed.

Lemma added_snoc key ops op : added key (ops ++ [op]) = recordOp key (added key ops) op.
Proof. unfold added. now rewrite fold_left_app. Qed.

(** Appending to the last [m] messages and trimming again gives the last
    [m] messages of the longer history. *)
Lemma keep_last_snoc (m : nat) (h : list Message) (x : Message) :
  (0 < m)%nat ->
  let appended := drop (length h - m) h ++ [x] in
  (if (0 <? Z.of_nat m) && (Z.of_nat m <? Z.of_nat (length appended))
   then drop (Z.to_nat (Z.of_nat (length appended) - Z.of_nat m)) appended
   else appended)
  = drop (length (h ++ [x]) - m) (h ++ [x]).
Proof.
  intros Hm appended. subst appended.
  rewrite !length_app, length_drop. simpl length.
  destruct (decide (length h < m)%nat) as [Hlt|Hge].
  - replace (length h - m)%nat with 0%nat by lia. rewrite drop_0.
    replace (length h + 1 - m)%nat with 0%nat by lia. rewrite drop_0.
    replace (length h - 0)%nat with (length h) by lia.
    destruct (Z.ltb_spec (Z.of_nat m) (Z.of_nat (length h + 1))); [lia|].
    now rewrite andb_false_r.
  - destruct (Z.ltb_spec 0 (Z.of_nat m)); [|lia].
    destruct (Z.ltb_spec (Z.of_nat m) (Z.of_nat (length h - (length h - m) + 1))); [|lia].
    simpl andb. cbv iota.
    replace (Z.to_nat (Z.of_nat (length h - (length h - m) + 1) - Z.of_nat m)) with 1%nat by lia.
    rewrite <- (drop_app_le h [x]) by lia.
    rewrite drop_drop. f_equal. lia.
Qed.

Lemma NewConversationBuffer_messages sizes :
  messages (NewConversationBuffer (map WithMaxSize sizes)) = ∅.
Proof.
  unfold NewConversationBuffer. rewrite NewConversationBuffer_messages_aux; [reflexivity|].
  intros o c' Hin. apply in_map_iff in Hin as (s & <- & _). reflexivity.
Qed.

Lemma runOps_stored (c0 : ConversationBuffer) (ops : list BufferOp) (key : string) :
  messages c0 = ∅ ->
  0 < maxSize c0 ->
  messages (runOps ops c0) !!! key
  = drop (length (added key ops) - Z.to_nat (maxSize c0)) (added key ops).
Proof.
  intros Hempty Hpos. induction ops as [|op ops IH] using rev_ind.
  - simpl. rewrite Hempty. reflexivity.
  - rewrite runOps_snoc, added_snoc.
    pose proof (runOps_maxSize ops c0) as Hmax.
    destruct op as [ctx m|ctx]; simpl; unfold AddMessage, Clear;
      destruct (getConversationID ctx) as [k|e]; simpl; try exact IH.
    + destruct (decide (k = key)) as [->|Hne].
      * rewrite lookup_total_insert_eq, IH, Hmax.
        pose proof (keep_last_snoc (Z.to_nat (maxSize c0)) (added key ops) m) as Hk.
        simpl in Hk. rewrite Z2Nat.id in Hk by lia. apply Hk. lia.
      * rewrite lookup_total_insert_ne by exact Hne. exact IH.
    + destruct (decide (k = key)) as [->|Hne].
      * rewrite lookup_total_delete_eq. reflexivity.
      * rewrite lookup_total_delete_ne by exact Hne. exact IH.
Qed.

(** C10. A buffer made by [NewConversationBuffer] with a positive
    [maxSize] holds, for every conversation key and after any sequence of
    [AddMessage] (and [Clear]) calls, exactly the last [maxSize] messages
    added under that key, in the order they were added; so the stored list
    never has more than [maxSize] entries and older messages are dropped. *)
Theorem ConversationBuffer_keeps_most_recent
    (sizes : list Z) (ops : list BufferOp) (key : string) :
  0 < maxSize (NewConversationBuffer (map WithMaxSize sizes)) ->
  messages (runOps ops (NewConversationBuffer (map WithMaxSize sizes))) !!! key
  = drop (length (added key ops)
          - Z.to_nat (maxSize (NewConversationBuffer (map WithMaxSize sizes))))
         (added key ops)
  /\ Z.of_nat (length (messages (runOps ops (NewConversationBuffer (map WithMaxSize sizes))) !!! key))
     <= maxSize (NewConversationBuffer (map WithMaxSize sizes)).
Proof.
  intros Hpos.
  pose proof (runOps_stored _ ops key (NewConversationBuffer_messages sizes) Hpos) as Hs.
  split; [exact Hs|].
  rewrite Hs, length_drop. lia.
Qed.

Lemma ConversationBuffer_keeps_most_recent_witness :
  messages (runOps [OpAddMessage (mkContext (Some "acme") (Some "c1")) (mkMessage "user" "one" []);
                    OpAddMessage (mkContext (Some "acme") (Some "c1")) (mkMessage "assistant" "two" []);
                    OpAddMessage (mkContext (Some "acme") (Some "c1")) (mkMessage "user" "three" [])]
             (NewConversationBuffer (map WithMaxSize [2]))) !!! "acme:c1"
  = [mkMessage "assistant" "two" []; mkMessage "user" "three" []].
Proof.
  refine (proj1 (ConversationBuffer_keeps_most_recent [2] _ "acme:c1" _)).
  vm_compute. reflexivity.
Defined.

End BufferFacts.

Section ExecutorFacts.
Import Tools ExecutionPlans.

(** C2. A plan whose [UserApproved] is false is not executed:
    [ExecutePlan] returns the not-approved error, leaves the plan as it is
    (its status never becomes [StatusExecuting]) and performs no event at
    all, so no tool is called. *)
Theorem ExecutePlan_unapproved (e : Executor) (ctx : Context) (plan : ExecutionPlan) :
  UserApproved plan = false ->
  ExecutePlan e ctx plan
  = (Err "execution plan has not been approved by the user", plan, []).
Proof. intros H. unfold ExecutePlan. rewrite H. reflexivity. Qed.

(** The same from the other side: the write of [StatusExecuting] is in the
    trace only if the plan was approved when [ExecutePlan] was called. *)
Lemma ExecutePlan_executing_only_if_approved e ctx plan :
  In (SetStatus StatusExecuting) (snd (ExecutePlan e ctx plan)) -> UserApproved plan = true.
Proof.
  destruct (UserApproved plan) eqn:H; [reflexivity|].
  rewrite (ExecutePlan_unapproved e ctx plan H). simpl. contradiction.
Qed.

Lemma executeSteps_no_status e ctx i steps results :
  Forall (fun ev => exists t a, ev = ToolExecute t a) (snd (executeSteps e ctx i steps results)).
Proof.
  revert i results. induction steps as [|step rest IH]; intros i results; simpl; [constructor|].
  destruct (tools e !! ToolName step) as [tool|]; simpl; [|constructor].
  destruct (Execute tool ctx (Input step)) as [result|err]; simpl.
  - specialize (IH (i + 1) (results ++ ["Step " +:+ pretty (i + 1) +:+ " ("
                      +:+ StepDescription step +:+ "): " +:+ result])).
    destruct (executeSteps e ctx (i + 1) rest _) as [r log]. simpl in *.
    constructor; [eauto|exact IH].
  - repeat constructor. eauto.
Qed.

(** C3 (as the code has it). [ExecutePlan] looks at [UserApproved] only and
    never at the status: an approved plan is executed whatever its status
    is, first set to [StatusExecuting] and left [StatusCompleted] or
    [StatusFailed]; an unapproved one is refused without any effect. And
    [CancelPlan] sets [StatusCancelled] on every plan. *)
Theorem ExecutePlan_ignores_status (e : Executor) (ctx : Context) (plan : ExecutionPlan) :
  (if UserApproved plan
   then exists log,
       snd (ExecutePlan e ctx plan) = SetStatus StatusExecuting :: log
       /\ (Status (snd (fst (ExecutePlan e ctx plan))) = StatusCompleted
           \/ Status (snd (fst (ExecutePlan e ctx plan))) = StatusFailed)
   else ExecutePlan e ctx plan
        = (Err "execution plan has not been approved by the user", plan, []))
  /\ Status (CancelPlan e plan) = StatusCancelled.
Proof.
  split; [|reflexivity].
  destruct (UserApproved plan) eqn:H.
  - unfold ExecutePlan. rewrite H. simpl.
    destruct (executeSteps e ctx 0 (Steps plan) []) as [[results|err] log]; simpl; eauto.
  - apply ExecutePlan_unapproved, H.
Qed.

Lemma ExecutePlan_unapproved_witness :
  ExecutePlan (NewExecutor [Fixtures.calculator]) Fixtures.acme Fixtures.waitingPlan
  = (Err "execution plan has not been approved by the user", Fixtures.waitingPlan, []).
Proof.
  apply (ExecutePlan_unapproved (NewExecutor [Fixtures.calculator]) Fixtures.acme
           Fixtures.waitingPlan).
  reflexivity.
Defined.

(** Executing the approved plan leaves it [StatusCompleted], still
    approved. Executing that plan once more sets its status to
    [StatusExecuting], calls the calculator again and returns no error.
    [CancelPlan] turns the completed plan into a cancelled one. *)
Lemma completed_plan_runs_again :
  snd (fst (ExecutePlan (NewExecutor [Fixtures.calculator]) Fixtures.acme Fixtures.approvedPlan))
  = Fixtures.completedPlan
  /\ terminal (Status Fixtures.completedPlan) = true
  /\ ExecutePlan (NewExecutor [Fixtures.calculator]) Fixtures.acme Fixtures.completedPlan
     = (Ok ("Execution plan completed successfully!" +:+ nl +:+ nl
            +:+ "Step 1 (Multiply): 42"),
        Fixtures.completedPlan,
        [SetStatus StatusExecuting; ToolExecute "calculator" "6*7"; SetStatus StatusCompleted])
  /\ Status (CancelPlan (NewExecutor [Fixtures.calculator]) Fixtures.completedPlan)
     = StatusCancelled.
Proof. repeat split; vm_compute; reflexivity. Qed.

End ExecutorFacts.

Section ToolLoopFacts.
Import Tools LLMOptions OpenAI.

Lemma workerResults_length outs sent :
  workerResults outs = Some sent -> length sent = length outs.
Proof.
  revert sent. induction outs as [|o outs IH]; intros sent H; simpl in *.
  - now inversion H.
  - destruct o as [r|]; [|discriminate].
    destruct (workerResults outs) as [rs|]; [|discriminate].
    inversion H; subst. simpl. f_equal. now apply IH.
Qed.

Lemma arrivals_cons index order sent :
  arrivals (index :: order) sent
  = match sent !! index with
    | Some r => (index, r) :: arrivals order sent
    | None => arrivals order sent
    end.
Proof. unfold arrivals. simpl. destruct (sent !! index); reflexivity. Qed.

(** When every worker succeeds, the collector ends with a slice that holds,
    at each index that arrived, the result of the worker of that index. *)
Lemma collect_all_ok (order : list nat) (results acc : list string) :
  Forall (fun index => (index < length results)%nat) order ->
  length acc = length results ->
  exists final,
    collect (arrivals order (map Ok results)) acc = Ok final
    /\ length final = length results
    /\ forall i, final !! i = if decide (i ∈ order) then results !! i else acc !! i.
Proof.
  revert acc. induction order as [|j order IH]; intros acc Hall Hlen.
  - exists acc. split; [reflexivity|]. split; [exact Hlen|]. intros i.
    destruct (decide (i ∈ [])) as [Hin|_]; [|reflexivity]. now apply elem_of_nil in Hin.
  - inversion Hall as [|? ? Hj Hrest]; subst.
    destruct (lookup_lt_is_Some_2 results j Hj) as [r Hr].
    rewrite arrivals_cons, list_lookup_fmap, Hr. simpl.
    destruct (IH (<[j := r]> acc) Hrest) as (final & Hc & Hl & Hlook).
    { now rewrite length_insert. }
    exists final. split; [exact Hc|]. split; [exact Hl|]. intros i. rewrite Hlook.
    destruct (decide (i ∈ order)) as [Hin|Hnin].
    + rewrite decide_True by (apply elem_of_cons; now right). reflexivity.
    + destruct (decide (i = j)) as [->|Hne].
      * rewrite decide_True by (apply elem_of_cons; now left).
        rewrite list_lookup_insert_eq by (now rewrite Hlen). now rewrite Hr.
      * rewrite decide_False by (intros [?|?]%elem_of_cons; contradiction).
        now rewrite list_lookup_insert_ne.
Qed.

Lemma collect_permutation (order : list nat) (results : list string) :
  Permutation order (seq 0 (length results)) ->
  collect (arrivals order (map Ok results)) (replicate (length results) EmptyString)
  = Ok results.
Proof.
  intros Hperm.
  assert (Hin : forall i, i ∈ order <-> (i < length results)%nat).
  { intros i. rewrite Hperm, elem_of_seq. lia. }
  destruct (collect_all_ok order results (replicate (length results) EmptyString))
    as (final & Hc & Hl & Hlook).
  - apply Forall_forall. intros i Hi. now apply Hin.
  - apply length_replicate.
  - rewrite Hc. f_equal. apply list_eq. intros i. rewrite Hlook.
    destruct (decide (i ∈ order)) as [_|Hnin]; [reflexivity|].
    rewrite (lookup_ge_None_2 results i) by (rewrite Hin in Hnin; lia).
    apply lookup_ge_None_2. rewrite length_replicate. rewrite Hin in Hnin. lia.
Qed.

(** The collector stops at the first error that arrives. *)
Lemma collect_first_error (sent : list (Res string)) (before after : list nat) (i : nat)
    (err : string) (acc : list string) :
  Forall (fun j => exists r, sent !! j = Some (Ok r)) before ->
  sent !! i = Some (Err err) ->
  collect (arrivals (before ++ i :: after) sent) acc = Err ("error executing tool: " +:+ err).
Proof.
  revert acc. induction before as [|j before IH]; intros acc Hbefore Hi; cbn [app].
  - rewrite arrivals_cons, Hi. reflexivity.
  - inversion Hbefore as [|? ? [r Hr] Hrest]; subst.
    rewrite arrivals_cons, Hr. simpl. now apply IH.
Qed.

(** C4. A wrapped parallel batch whose workers do not panic. Whatever the
    order in which the workers complete: if all of them succeed, the
    message appended to the conversation (and so sent back to the provider)
    is the tool message whose content joins their results with newlines in
    the order of the sub-calls; and if the first failure to arrive is
    [err], the turn ends with the error of that worker, whatever arrives
    after it. *)
Theorem parallel_batch_in_call_order
    (lib : StdLib) (tools : list Tool) (ctx : Context) (toolCall : ToolCall)
    (rest : list ToolCall) (toolUses : list (gmap string Any)) (sent : list (Res string))
    (order : list nat) (orders : list (list nat)) (messages : list ChatCompletionMessage) :
  FunctionName toolCall = "parallel_tool_use" ->
  UnmarshalToolUses lib (Arguments toolCall) = Ok toolUses ->
  workerResults (map (parallelWorker lib tools ctx) toolUses) = Some sent ->
  Permutation order (seq 0 (length toolUses)) ->
  (forall results, sent = map Ok results ->
     processToolCalls lib tools ctx (toolCall :: rest) (order :: orders) messages
     = processToolCalls lib tools ctx rest orders
         (messages ++ [toolMessage (Join results nl) "parallel_tool_use" (ID toolCall)]))
  /\ (forall before i after err,
        order = before ++ i :: after ->
        Forall (fun j => exists r, sent !! j = Some (Ok r)) before ->
        sent !! i = Some (Err err) ->
        processToolCalls lib tools ctx (toolCall :: rest) (order :: orders) messages
        = Return (Err ("error executing tool: " +:+ err))).
Proof.
  intros Hname Hparse Hsent Hperm.
  pose proof (workerResults_length _ _ Hsent) as Hlen. rewrite length_map in Hlen.
  split.
  - intros results ->. rewrite length_map in Hlen.
    simpl. rewrite decide_True by exact Hname. rewrite Hparse.
    unfold runParallel. rewrite Hsent, <- Hlen, collect_permutation by (now rewrite Hlen).
    reflexivity.
  - intros before i after err -> Hbefore Hi.
    simpl. rewrite decide_True by exact Hname. rewrite Hparse.
    unfold runParallel. rewrite Hsent, (collect_first_error sent before after i err) by assumption.
    reflexivity.
Qed.

(** What the loop returns is what the second request carries. *)
Lemma toolTurn_feeds_back lib c ctx prompt tools params choice orders messages :
  processToolCalls lib tools ctx (map renameParallel (ToolCalls choice)) orders
    [plainMessage "user" prompt;
     mkChatMessage (Role choice) (Content choice) (MsgName choice) (ToolCallID choice)
       (map renameParallel (ToolCalls choice))]
  = Return (Ok messages) ->
  toolTurn lib c ctx prompt tools params choice orders
  = (Return (finalResponse lib c (finalRequest c (effectiveConfig params) params messages)),
     [finalRequest c (effectiveConfig params) params messages]).
Proof. intros H. unfold toolTurn. rewrite H. reflexivity. Qed.

Lemma processToolCalls_plain lib tools ctx toolCalls orders messages :
  Forall (plainResolved tools) toolCalls ->
  processToolCalls lib tools ctx toolCalls orders messages
  = Return (Ok (messages ++ concat (map (toolReply tools ctx) toolCalls))).
Proof.
  revert messages. induction toolCalls as [|toolCall rest IH]; intros messages Hall; simpl.
  - now rewrite app_nil_r.
  - inversion Hall as [|? ? (Hplain & tool & Hfind & Hname) Hrest]; subst.
    rewrite decide_False by exact Hplain. unfold toolReply at 1. rewrite Hfind.
    rewrite decide_False by exact Hname.
    destruct (Execute tool ctx (Arguments toolCall)) as [result|err];
      rewrite IH by exact Hrest; now rewrite <- app_assoc.
Qed.

(** C9. A plain tool call whose [Execute] fails does not end the turn. The
    loop appends the tool message ["Error: " err] for it and goes on with
    the calls after it; and when the calls of the response are all plain
    calls of known tools, the second request is sent with the replies of
    every call, the error message in its place among them, and the
    provider's answer to it is what the turn returns. *)
Theorem tool_error_does_not_abort
    (lib : StdLib) (c : OpenAIClient) (ctx : Context) (prompt : string) (tools : list Tool)
    (params : GenerateOptions) (toolCall : ToolCall) (tool : Tool) (err : string) :
  FunctionName toolCall <> "parallel_tool_use" ->
  findTool tools (FunctionName toolCall) = Some tool ->
  Name tool <> EmptyString ->
  Execute tool ctx (Arguments toolCall) = Err err ->
  (forall rest orders messages,
     processToolCalls lib tools ctx (toolCall :: rest) orders messages
     = processToolCalls lib tools ctx rest orders
         (messages ++ [toolMessage ("Error: " +:+ err) (Name tool) (ID toolCall)]))
  /\ (forall choice before after orders,
        map renameParallel (ToolCalls choice) = before ++ toolCall :: after ->
        Forall (plainResolved tools) before ->
        Forall (plainResolved tools) after ->
        let messages :=
          [plainMessage "user" prompt;
           mkChatMessage (Role choice) (Content choice) (MsgName choice) (ToolCallID choice)
             (before ++ toolCall :: after)]
          ++ concat (map (toolReply tools ctx) before)
          ++ [toolMessage ("Error: " +:+ err) (Name tool) (ID toolCall)]
          ++ concat (map (toolReply tools ctx) after) in
        toolTurn lib c ctx prompt tools params choice orders
        = (Return (finalResponse lib c (finalRequest c (effectiveConfig params) params messages)),
           [finalRequest c (effectiveConfig params) params messages])).
Proof.
  intros Hplain Hfind Hname Hexec. split.
  - intros rest orders messages. simpl.
    rewrite decide_False by exact Hplain. rewrite Hfind.
    rewrite decide_False by exact Hname. now rewrite Hexec.
  - intros choice before after orders Hcalls Hbefore Hafter messages.
    apply toolTurn_feeds_back. rewrite Hcalls.
    rewrite processToolCalls_plain.
    + subst messages. rewrite map_app, concat_app. simpl.
      unfold toolReply at 2. rewrite Hfind, Hexec. reflexivity.
    + apply Forall_app. split; [exact Hbefore|]. constructor; [|exact Hafter].
      split; [exact Hplain|]. eauto.
Qed.

(** The three tools complete in the order B, C, A; the provider is sent
    the results in the order A, B, C, in the loop and in the whole of
    [GenerateWithTools]. *)
Lemma parallel_batch_in_call_order_witness :
  processToolCalls Fixtures.batchLib Fixtures.abcTools Fixtures.acme [Fixtures.batchCall]
    [[1; 2; 0]%nat] [plainMessage "user" "run all"]
  = Return (Ok [plainMessage "user" "run all";
                toolMessage ("a" +:+ nl +:+ "b" +:+ nl +:+ "c") "parallel_tool_use" "call-1"])
  /\ fst (GenerateWithTools Fixtures.batchLib Fixtures.batchProvider Fixtures.acme "run all"
            Fixtures.abcTools [] [[1; 2; 0]%nat])
     = Return (Ok ("run all||a" +:+ nl +:+ "b" +:+ nl +:+ "c")).
Proof.
  split; [|vm_compute; reflexivity].
  refine (proj1 (parallel_batch_in_call_order Fixtures.batchLib Fixtures.abcTools Fixtures.acme
                   Fixtures.batchCall []
                   [Fixtures.toolUse "A"; Fixtures.toolUse "B"; Fixtures.toolUse "C"]
                   [Ok "a"; Ok "b"; Ok "c"] [1; 2; 0]%nat []
                   [plainMessage "user" "run all"] _ _ _ _)
            ["a"; "b"; "c"] _).
  - reflexivity.
  - reflexivity.
  - vm_compute. reflexivity.
  - symmetry. exact (Permutation_cons_append [1; 2]%nat 0%nat).
  - reflexivity.
Defined.

Lemma tool_error_does_not_abort_witness :
  processToolCalls Fixtures.batchLib [Fixtures.broken; Fixtures.calculator] Fixtures.acme
    [Fixtures.brokenCall; mkToolCall "call-3" "calculator" "6*7"] []
    [plainMessage "user" "compute"]
  = Return (Ok [plainMessage "user" "compute";
                toolMessage "Error: boom" "broken" "call-2";
                toolMessage "42" "calculator" "call-3"]).
Proof.
  rewrite (proj1 (tool_error_does_not_abort Fixtures.batchLib Fixtures.echoProvider Fixtures.acme
                    "compute" [Fixtures.broken; Fixtures.calculator]
                    (applyOptions []) Fixtures.brokenCall Fixtures.broken "boom"
                    ltac:(discriminate) ltac:(reflexivity) ltac:(discriminate)
                    ltac:(reflexivity))).
  reflexivity.
Defined.

End ToolLoopFacts.

Section AgentFacts.
Import Interfaces Tools ExecutionPlans LLMOptions Agents.
Context {MS : Type}.

(** Events of a sequence of two steps. *)
Lemma bind_events {A B} (P : Event -> Prop) (m : M MS A) (k : A -> M MS B) st :
  Forall P (snd (m st)) ->
  (forall x st', Forall P (snd (k x st'))) ->
  Forall P (snd (bind m k st)).
Proof.
  intros Hm Hk. unfold bind. destruct (m st) as [[[x|err] st1] log1]; simpl in *; [|exact Hm].
  specialize (Hk x st1). destruct (k x st1) as [[r st2] log2]. simpl in *.
  apply Forall_app. split; assumption.
Qed.

Ltac primitive_events :=
  intros; repeat case_match; simpl; repeat constructor.

Lemma addToMemory_noPlanAction (a : Agent MS) ctx message prefix st :
  Forall noPlanAction (snd (addToMemory a ctx message prefix st)).
Proof. unfold addToMemory. primitive_events. Qed.

Lemma guardInput_noPlanAction (a : Agent MS) ctx input st :
  Forall noPlanAction (snd (guardInput a ctx input st)).
Proof. unfold guardInput. primitive_events. Qed.

Lemma guardOutput_noPlanAction (a : Agent MS) ctx response st :
  Forall noPlanAction (snd (guardOutput a ctx response st)).
Proof. unfold guardOutput. primitive_events. Qed.

Lemma generateRoleResponse_noPlanAction (a : Agent MS) st :
  Forall noPlanAction (snd (generateRoleResponse a st)).
Proof. unfold generateRoleResponse. primitive_events. Qed.

Lemma collectMCPTools_noPlanAction ctx servers :
  Forall noPlanAction (snd (collectMCPTools ctx servers)).
Proof.
  induction servers as [|server rest IH]; simpl; [constructor|].
  destruct (collectMCPTools ctx rest) as [more log]. simpl in IH.
  destruct (ListTools server ctx); simpl; constructor; (reflexivity || assumption).
Qed.

Lemma runWithExecutionPlan_noPlanAction ext (a : Agent MS) ctx input st :
  Forall noPlanAction (snd (runWithExecutionPlan ext a ctx input st)).
Proof.
  unfold runWithExecutionPlan. apply bind_events; [primitive_events|]. intros plan st1.
  apply bind_events; [apply addToMemory_noPlanAction|]. intros _ st2. constructor.
Qed.

Lemma runWithoutExecutionPlanWithTools_noPlanAction (a : Agent MS) ctx input ts st :
  Forall noPlanAction (snd (runWithoutExecutionPlanWithTools a ctx input ts st)).
Proof.
  unfold runWithoutExecutionPlanWithTools.
  apply bind_events; [primitive_events|]. intros prompt st1.
  apply bind_events; [primitive_events|]. intros response st2.
  apply bind_events; [apply guardOutput_noPlanAction|]. intros response' st3.
  apply bind_events; [apply addToMemory_noPlanAction|]. intros _ st4. constructor.
Qed.

(** [Run] takes the branch of the plan handlers for no input at all. *)
Lemma Run_noPlanAction ext (a : Agent MS) ctx input st :
  Forall noPlanAction (snd (Run ext a ctx input st)).
Proof.
  unfold Run.
  apply bind_events; [apply addToMemory_noPlanAction|]. intros _ st1.
  apply bind_events; [apply guardInput_noPlanAction|]. intros guarded st2.
  unfold extractPlanAction.
  destruct (decide (EmptyString <> EmptyString)) as [Hne|_]; [now contradiction Hne|].
  destruct (bool_decide (systemPrompt a <> EmptyString) && isAskingAboutRole ext guarded).
  - apply bind_events; [apply generateRoleResponse_noPlanAction|]. intros response st3.
    apply bind_events; [apply addToMemory_noPlanAction|]. intros _ st4. constructor.
  - apply bind_events.
    + destruct (decide (0 < Z.of_nat (length (mcpServers a)))); simpl; [|constructor].
      pose proof (collectMCPTools_noPlanAction (runContext a ctx) (mcpServers a)) as H.
      destruct (collectMCPTools _ _) as [mcpTools log]. exact H.
    + intros allTools st3.
      destruct (bool_decide (0 < Z.of_nat (length allTools)) && requirePlanApproval a).
      * apply bind_events; [constructor|]. intros _ st4.
        apply runWithExecutionPlan_noPlanAction.
      * apply runWithoutExecutionPlanWithTools_noPlanAction.
Qed.

(** C5 (as the code has it). For every agent, stored plans and input,
    [extractPlanAction] finds no task id and no action and hands the input
    back, so [Run] dispatches nothing to a plan handler and executes no
    plan: none of its events is a plan action. *)
Theorem Run_extracts_no_plan_action ext (a : Agent MS) (ctx : Context) (input : string)
    (st : AgentState MS) :
  extractPlanAction a input = (EmptyString, EmptyString, input)
  /\ Forall (fun ev => isPlanAction ev = false) (snd (Run ext a ctx input st)).
Proof. split; [reflexivity|apply Run_noPlanAction]. Qed.

(** C6. When the guardrails refuse the input, [Run] returns an error; the
    only calls it has made are the [AddMessage] of the user message and,
    if that succeeded, the guardrail check itself: no call of the language
    model and no assistant message. The memory is left as the [AddMessage]
    of the user message left it, and the plan store is untouched. *)
Theorem Run_guardrails_error ext (a : Agent MS) (ctx : Context) (input : string)
    (st : AgentState MS) (g : Guardrails) (err : string) :
  guardrails a = Some g ->
  ProcessInput g (runContext a ctx) input = Err err ->
  (exists e, fst (fst (Run ext a ctx input st)) = Err e)
  /\ Forall (fun ev => isLLMCall ev = false /\ isAssistantMessage ev = false)
       (snd (Run ext a ctx input st))
  /\ memState (snd (fst (Run ext a ctx input st)))
     = match memory a with
       | Some mem => snd (AddMessage mem (runContext a ctx) (userMessage input) (memState st))
       | None => memState st
       end
  /\ planStore (snd (fst (Run ext a ctx input st))) = planStore st.
Proof.
  intros Hg Hblock. unfold Run, bind, addToMemory, guardInput. rewrite Hg, Hblock.
  destruct (memory a) as [mem|]; simpl.
  - destruct (AddMessage mem (runContext a ctx) (userMessage input) (memState st))
      as [[e|] ms]; simpl; repeat split; eauto; repeat constructor.
  - repeat split; eauto; repeat constructor.
Qed.

End AgentFacts.

Section AgentExamples.
Import Interfaces Tools ExecutionPlans LLMOptions Agents.

(** No agent, state and input make [Run] dispatch a plan action. With the
    plan "task-1" stored and waiting for approval, the input
    "approve task-1" is answered with a newly generated plan; the stored
    plan stays unapproved and no tool is run. *)
Lemma Run_does_not_dispatch_approve :
  (~ exists (MS : Type) (ext : Externals) (a : Agent MS) (ctx : Context) (input : string)
       (st : AgentState MS) (taskID action planInput : string),
       In (EvPlanAction taskID action planInput) (snd (Run ext a ctx input st)))
  /\ GetPlanByTaskID (planStore Fixtures.waitingState) "task-1" = Some Fixtures.waitingPlan
  /\ fst (fst (Run Fixtures.demoExternals Fixtures.guardedAgent (mkContext None (Some "c1"))
                 "approve task-1" Fixtures.waitingState))
     = Ok (planOffer Fixtures.demoExternals "I've created an execution plan for your request:"
             (Fixtures.newPlan "approve task-1")
             "Do you approve this plan? You can modify it if needed.")
  /\ GetPlanByTaskID
       (planStore (snd (fst (Run Fixtures.demoExternals Fixtures.guardedAgent
                               (mkContext None (Some "c1")) "approve task-1"
                               Fixtures.waitingState))))
       "task-1"
     = Some Fixtures.waitingPlan
  /\ map isPlanAction
       (snd (Run Fixtures.demoExternals Fixtures.guardedAgent (mkContext None (Some "c1"))
               "approve task-1" Fixtures.waitingState))
     = [false; false; false; false].
Proof.
  split.
  - intros (MS & ext & a & ctx & input & st & taskID & action & planInput & Hin).
    pose proof (Run_noPlanAction ext a ctx input st) as Hall.
    rewrite Forall_forall in Hall. apply list_elem_of_In in Hin.
    specialize (Hall _ Hin). discriminate Hall.
  - repeat split; vm_compute; reflexivity.
Qed.

Lemma Run_guardrails_error_witness :
  (exists e, fst (fst (Run Fixtures.demoExternals Fixtures.guardedAgent
                         (mkContext None (Some "c1")) "a forbidden word"
                         Fixtures.waitingState)) = Err e)
  /\ snd (Run Fixtures.demoExternals Fixtures.guardedAgent (mkContext None (Some "c1"))
            "a forbidden word" Fixtures.waitingState)
     = [EvAddMessage Fixtures.acme (userMessage "a forbidden word");
        EvProcessInput "a forbidden word"]
  /\ Memory.messages
       (memState (snd (fst (Run Fixtures.demoExternals Fixtures.guardedAgent
                              (mkContext None (Some "c1")) "a forbidden word"
                              Fixtures.waitingState)))) !! "acme:c1"
     = Some [userMessage "a forbidden word"].
Proof.
  destruct (Run_guardrails_error Fixtures.demoExternals Fixtures.guardedAgent
              (mkContext None (Some "c1")) "a forbidden word" Fixtures.waitingState
              Fixtures.blockForbidden "content blocked" eq_refl eq_refl)
    as (Herr & _ & Hmem & _).
  split; [exact Herr|]. split; [vm_compute; reflexivity|].
  rewrite Hmem. vm_compute. reflexivity.
Defined.

End AgentExamples.

Section RedisFacts.
Import Interfaces Memory Memory.Redis Fixtures.

Lemma rpushRetry_keys codec r key m n e log :
  Forall (fun cmd => cmdKey cmd = key) log ->
  Forall (fun cmd => cmdKey cmd = key) (snd (rpushRetry codec r key m n e log)).
Proof.
  revert e log. induction n as [|n IH]; intros e log Hlog; simpl; [exact Hlog|].
  destruct (MarshalMessage codec m) as [json|err]; simpl; [|exact Hlog].
  destruct (client r log (RPush key json)) as [rep|err]; simpl.
  - apply Forall_app. split; [exact Hlog|]. repeat constructor.
  - apply IH. apply Forall_app. split; [exact Hlog|]. repeat constructor.
Qed.

Lemma getConversationID_tenant ctx T C :
  ctx_org_id ctx = Some T -> T <> EmptyString -> ctx_conversation_id ctx = Some C ->
  Multitenancy.GetOrgID ctx = Ok T /\ getConversationID ctx = Ok (T +:+ ":" +:+ C).
Proof.
  intros HT Hne HC. unfold getConversationID, Multitenancy.GetOrgID, GetConversationID.
  rewrite HT, HC. destruct (decide (T = EmptyString)); [contradiction|]. split; reflexivity.
Qed.

(** Every command that [AddMessage], [GetMessages] and [Clear] send for
    tenant [T] and conversation [C] carries the key
    [keyPrefix T ":" T ":" C]: the tenant id is there twice, once from the
    backend and once from [getConversationID]. *)
Lemma RedisMemory_key codec r ctx T C message options :
  ctx_org_id ctx = Some T -> T <> EmptyString -> ctx_conversation_id ctx = Some C ->
  let key := keyPrefix r +:+ T +:+ ":" +:+ T +:+ ":" +:+ C in
  Forall (fun cmd => cmdKey cmd = key) (snd (AddMessage codec r ctx message []))
  /\ Forall (fun cmd => cmdKey cmd = key) (snd (GetMessages codec r ctx options []))
  /\ Forall (fun cmd => cmdKey cmd = key) (snd (Clear r ctx [])).
Proof.
  intros HT Hne HC key.
  destruct (getConversationID_tenant ctx T C HT Hne HC) as [Horg Hconv].
  unfold AddMessage, GetMessages, Clear. rewrite Hconv, Horg.
  repeat split.
  - destruct (checkMessageSize codec r message); simpl; [constructor|].
    unfold processMessage.
    destruct (compressionEnabled r || bool_decide (encryptionKey r <> None));
      apply rpushRetry_keys; constructor.
  - destruct (client r [] _) as [results|err]; simpl; [|repeat constructor].
    destruct (parseMessages codec results); simpl; repeat constructor.
  - destruct (client r [] _); simpl; repeat constructor.
Qed.

(** C8. With the default prefix, tenant ["acme"] and conversation ["c1"],
    the three memory operations address the key
    ["agent:memory:acme:acme:c1"], in which the tenant id occurs twice, and
    not ["agent:memory:acme:c1"]. *)
Theorem RedisMemory_key_repeats_tenant :
  map cmdKey (snd (AddMessage contentCodec (NewRedisMemory acceptAll [])
                     (mkContext (Some "acme") (Some "c1")) (mkMessage "user" "hi" []) []))
  = ["agent:memory:acme:acme:c1"; "agent:memory:acme:acme:c1"]
  /\ map cmdKey (snd (GetMessages contentCodec (NewRedisMemory acceptAll [])
                        (mkContext (Some "acme") (Some "c1")) [] []))
     = ["agent:memory:acme:acme:c1"]
  /\ map cmdKey (snd (Clear (NewRedisMemory acceptAll [])
                        (mkContext (Some "acme") (Some "c1")) []))
     = ["agent:memory:acme:acme:c1"]
  /\ "agent:memory:acme:acme:c1" <> "agent:memory:" +:+ "acme" +:+ ":" +:+ "c1".
Proof. repeat split; try reflexivity. discriminate. Qed.

End RedisFacts.

Section OrchestratorFacts.
Import Orchestration.

Lemma setStatus_taskStep wf i s : taskStep wf (setStatus i s wf) i s.
Proof.
  unfold taskStep, setStatus. cbn [Tasks FinalTaskID]. split; [reflexivity|]. split.
  - intros k t' Hk. destruct (decide (k = i)) as [->|Hne].
    + rewrite list_lookup_alter_eq in Hk.
      destruct (Tasks wf !! i) as [t|]; simpl in Hk; [|discriminate].
      inversion Hk; subst. exists t. simpl. naive_solver.
    + rewrite list_lookup_alter_ne in Hk by congruence. exists t'. naive_solver.
  - intros k t Hk. destruct (decide (k = i)) as [->|Hne].
    + rewrite list_lookup_alter_eq, Hk. simpl. eauto.
    + rewrite list_lookup_alter_ne by congruence. eauto.
Qed.

Lemma insert_taskStep wf i t0 s result error results errors :
  Tasks wf !! i = Some t0 ->
  taskStep wf
    (mkWorkflow (<[i := mkTask (ID t0) (AgentID t0) (Input t0) (Dependencies t0) s
                          result error]> (Tasks wf))
       results errors (FinalTaskID wf)) i s.
Proof.
  intros Hi. unfold taskStep. cbn [Tasks FinalTaskID]. split; [reflexivity|]. split.
  - intros k t' Hk. destruct (decide (k = i)) as [->|Hne].
    + rewrite list_lookup_insert_eq in Hk by (now apply lookup_lt_Some in Hi).
      inversion Hk; subst. exists t0. simpl. naive_solver.
    + rewrite list_lookup_insert_ne in Hk by congruence. exists t'. naive_solver.
  - intros k t Hk. destruct (decide (k = i)) as [->|Hne].
    + rewrite list_lookup_insert_eq by (now apply lookup_lt_Some in Hi).
      rewrite Hi in Hk. inversion Hk; subst. eauto.
    + rewrite list_lookup_insert_ne by congruence. eauto.
Qed.

Lemma failTask_taskStep wf i err : taskStep wf (failTask i err wf) i TaskFailed.
Proof.
  unfold failTask. destruct (Tasks wf !! i) as [t0|] eqn:Hi.
  - now apply insert_taskStep.
  - unfold taskStep. split; [reflexivity|]. split.
    + intros k t' Hk. exists t'. repeat split; auto. right. split; [congruence|reflexivity].
    + eauto.
Qed.

Lemma completeTask_taskStep wf i result : taskStep wf (completeTask i result wf) i TaskCompleted.
Proof.
  unfold completeTask. destruct (Tasks wf !! i) as [t0|] eqn:Hi.
  - now apply insert_taskStep.
  - unfold taskStep. split; [reflexivity|]. split.
    + intros k t' Hk. exists t'. repeat split; auto. right. split; [congruence|reflexivity].
    + eauto.
Qed.

(** Backing workers survive every change that keeps the workers' progress
    and the ids of the tasks. *)
Lemma backedBy_preserved (P : Worker -> bool) (c c' : Config) (id : string) :
  (forall j wk, workers c !! j = Some wk ->
     exists wk', workers c' !! j = Some wk' /\ workerTask wk' = workerTask wk
                 /\ (P wk = true -> P wk' = true)) ->
  (forall k t, Tasks (workflow c) !! k = Some t ->
     exists t', Tasks (workflow c') !! k = Some t' /\ ID t' = ID t) ->
  backedBy P c id -> backedBy P c' id.
Proof.
  intros Hw Ht (j & wk & t & Hj & Htask & Hid & HP).
  destruct (Hw j wk Hj) as (wk' & Hj' & Hsame & HP').
  unfold taskOf in Htask. destruct (Ht _ _ Htask) as (t' & Ht' & Hid').
  exists j, wk', t'. unfold taskOf. rewrite Hsame. repeat split; auto. congruence.
Qed.

Lemma Inv_initial wf : Results wf = ∅ -> Errors wf = ∅ -> Inv (initial wf).
Proof.
  intros HR HE. constructor; simpl.
  - intros j wk t d Hj. rewrite lookup_nil in Hj. discriminate.
  - intros d Hd. rewrite lookup_empty in Hd. discriminate.
  - intros j wk t Hj. rewrite lookup_nil in Hj. discriminate.
  - intros id [H|H]; [rewrite HR in H|rewrite HE in H]; rewrite lookup_empty in H;
      now apply is_Some_None in H.
  - intros r Hr. discriminate.
Qed.

(** Fields the invariant does not read. *)
Lemma Inv_setMonitor pc c : Inv c -> Inv (setMonitor pc c).
Proof. intros [H1 H2 H3 H4 H5]. constructor; assumption. Qed.

Lemma Inv_cancel c : Inv c -> Inv (cancel c).
Proof. intros [H1 H2 H3 H4 H5]. constructor; assumption. Qed.

Lemma Inv_wgDone c : Inv c -> Inv (wgDone c).
Proof. intros [H1 H2 H3 H4 H5]. constructor; assumption. Qed.

Lemma Inv_setMain pc c :
  (forall r, pc <> MainReturned r) -> Inv c -> Inv (setMain pc c).
Proof.
  intros Hpc [H1 H2 H3 H4 H5]. constructor; try assumption.
  intros r Hr. simpl in Hr. now apply Hpc in Hr.
Qed.

Lemma Inv_return c : Inv c -> Inv (setMain (MainReturned (finalResult (workflow c))) c).
Proof.
  intros [H1 H2 H3 H4 H5]. constructor; try assumption.
  intros r Hr. simpl in Hr. inversion Hr; subst. clear Hr. cbn [workflow setMain].
  unfold finalResult. split.
  - intros Hfinal. rewrite decide_False by (intros Hne; now apply Hne). reflexivity.
  - intros Hfinal Hfound. rewrite decide_True in Hfound by exact Hfinal.
    change (backedBy finished c (FinalTaskID (workflow c))). apply H4.
    destruct (Errors (workflow c) !! FinalTaskID (workflow c)) as [err|] eqn:He;
      [right; eauto|].
    destruct (Results (workflow c) !! FinalTaskID (workflow c)) as [res|] eqn:Hres;
      [left; eauto|]. now contradiction Hfound.
Qed.


Lemma Inv_spawn i c :
  (forall t d, Tasks (workflow c) !! i = Some t -> d ∈ Dependencies t ->
     completedTasks c !! d = Some true) ->
  Inv c -> Inv (spawn i c).
Proof.
  intros Hdeps [H1 H2 H3 H4 H5].
  assert (Hkeep : forall P id, backedBy P c id -> backedBy P (spawn i c) id).
  { intros P id. apply backedBy_preserved; [|eauto].
    intros j wk Hj. exists wk. split; [|auto]. simpl. now apply lookup_app_l_Some. }
  constructor; simpl.
  - intros j wk t d Hj Ht Hd. apply lookup_app_Some in Hj as [Hj|[_ Hj]]; [eauto|].
    apply list_lookup_singleton_Some in Hj as [_ <-]. eapply Hdeps; eauto.
  - intros d Hd. apply Hkeep. now apply H2.
  - intros j wk t Hj Ht Hpc. apply lookup_app_Some in Hj as [Hj|[_ Hj]]; [eauto|].
    apply list_lookup_singleton_Some in Hj as [_ <-]. now contradiction Hpc.
  - intros id Hid. apply Hkeep. now apply H4.
  - intros r Hr. destruct (H5 r Hr) as [Ha Hb]. split; [exact Ha|].
    intros Hf Hn. apply Hkeep. now apply Hb.
Qed.

Lemma Inv_setWorkerPC w pc c :
  (forall wk, workers c !! w = Some wk ->
     (finished wk = true -> finished (mkWorker (workerTask wk) pc) = true)
     /\ (signalled wk = true -> signalled (mkWorker (workerTask wk) pc) = true)
     /\ (pc <> WStart -> forall t, taskOf c wk = Some t -> Status t <> TaskPending)) ->
  Inv c -> Inv (setWorkerPC w pc c).
Proof.
  intros Hpc [H1 H2 H3 H4 H5].
  assert (Hold : forall j wk', workers (setWorkerPC w pc c) !! j = Some wk' ->
            exists wk, workers c !! j = Some wk /\ workerTask wk' = workerTask wk
                       /\ ((j = w /\ workerPC wk' = pc) \/ wk' = wk)).
  { intros j wk' Hj. cbn [workers setWorkerPC] in Hj. destruct (decide (j = w)) as [->|Hne].
    - rewrite list_lookup_alter_eq in Hj.
      destruct (workers c !! w) as [wk|]; simpl in Hj; [|discriminate].
      inversion Hj; subst. exists wk. simpl. split; [reflexivity|]. split; [reflexivity|].
      left. split; reflexivity.
    - rewrite list_lookup_alter_ne in Hj by congruence. exists wk'. auto. }
  assert (Hkeep : forall id, (backedBy finished c id -> backedBy finished (setWorkerPC w pc c) id)
                             /\ (backedBy signalled c id -> backedBy signalled (setWorkerPC w pc c) id)).
  { intros id. split; (apply backedBy_preserved; [|eauto]); intros j wk Hj;
      cbn [workers setWorkerPC]; (destruct (decide (j = w)) as [->|Hne];
      [rewrite list_lookup_alter_eq, Hj; simpl; eexists; split; [reflexivity|];
       split; [reflexivity|]; now apply (Hpc wk Hj)
      |rewrite list_lookup_alter_ne by congruence; exists wk; auto]). }
  constructor.
  - intros j wk' t d Hj Ht Hd. destruct (Hold j wk' Hj) as (wk & Hj0 & Hsame & _).
    apply (H1 j wk t d Hj0); [|exact Hd]. unfold taskOf in *. now rewrite <- Hsame.
  - intros d Hd. apply Hkeep. now apply H2.
  - intros j wk' t Hj Ht Hne. destruct (Hold j wk' Hj) as (wk & Hj0 & Hsame & Hcase).
    assert (Ht0 : taskOf c wk = Some t) by (unfold taskOf in *; now rewrite <- Hsame).
    destruct Hcase as [[-> Hpc']| ->].
    + apply (Hpc wk Hj0); [congruence|exact Ht0].
    + eapply H3; eauto.
  - intros id Hid. apply Hkeep. now apply H4.
  - intros r Hr. destruct (H5 r Hr) as [Ha Hb]. split; [exact Ha|].
    intros Hf Hn. apply Hkeep. now apply Hb.
Qed.

Lemma Inv_markCompleted id c :
  backedBy signalled c id -> Inv c -> Inv (markCompleted id c).
Proof.
  intros Hid [H1 H2 H3 H4 H5]. constructor; try assumption.
  - intros j wk t d Hj Ht Hd. cbn [completedTasks markCompleted].
    destruct (decide (id = d)) as [->|Hne]; [apply lookup_insert_eq|].
    rewrite lookup_insert_ne by exact Hne. eapply H1; eauto.
  - intros d Hd. cbn [completedTasks markCompleted] in Hd.
    destruct (decide (id = d)) as [->|Hne]; [exact Hid|].
    rewrite lookup_insert_ne in Hd by exact Hne. now apply H2.
Qed.

Lemma Inv_setWorkflow wf' i s c :
  taskStep (workflow c) wf' i s ->
  s <> TaskPending ->
  (forall id, is_Some (Results wf' !! id) \/ is_Some (Errors wf' !! id) ->
     is_Some (Results (workflow c) !! id) \/ is_Some (Errors (workflow c) !! id)
     \/ backedBy finished c id) ->
  Inv c -> Inv (setWorkflow wf' c).
Proof.
  intros (Hfinal & Hback & Hfwd) Hs Hout [H1 H2 H3 H4 H5].
  assert (Hkeep : forall P id, backedBy P c id -> backedBy P (setWorkflow wf' c) id).
  { intros P id. apply backedBy_preserved; [eauto|exact Hfwd]. }
  constructor.
  - intros j wk t' d Hj Ht Hd. destruct (Hback _ _ Ht) as (t & Ht0 & _ & Hdeps & _).
    apply (H1 j wk t d Hj Ht0). now rewrite <- Hdeps.
  - intros d Hd. apply Hkeep. now apply H2.
  - intros j wk t' Hj Ht Hpc. destruct (Hback _ _ Ht) as (t & Ht0 & _ & _ & Hcase).
    destruct Hcase as [[_ ->]|[_ ->]]; [exact Hs|]. eapply H3; eauto.
  - intros id Hid. cbn [workflow setWorkflow] in Hid.
    destruct (Hout id Hid) as [H|[H|H]]; apply Hkeep; auto.
  - intros r Hr. cbn [workflow setWorkflow]. rewrite Hfinal.
    destruct (H5 r Hr) as [Ha Hb]. split; [exact Ha|].
    intros Hf Hn. apply Hkeep. now apply Hb.
Qed.


Lemma failTask_outputs wf i err id :
  is_Some (Results (failTask i err wf) !! id) \/ is_Some (Errors (failTask i err wf) !! id) ->
  is_Some (Results wf !! id) \/ is_Some (Errors wf !! id)
  \/ exists t, Tasks wf !! i = Some t /\ ID t = id.
Proof.
  unfold failTask. destruct (Tasks wf !! i) as [t|]; [|tauto]. cbn [Results Errors].
  intros [H|H]; [tauto|]. destruct (decide (ID t = id)) as [Heq|Hne]; [eauto|].
  rewrite lookup_insert_ne in H by exact Hne. tauto.
Qed.

Lemma completeTask_outputs wf i result id :
  is_Some (Results (completeTask i result wf) !! id)
  \/ is_Some (Errors (completeTask i result wf) !! id) ->
  is_Some (Results wf !! id) \/ is_Some (Errors wf !! id)
  \/ exists t, Tasks wf !! i = Some t /\ ID t = id.
Proof.
  unfold completeTask. destruct (Tasks wf !! i) as [t|]; [|tauto]. cbn [Results Errors].
  intros [H|H]; [|tauto]. destruct (decide (ID t = id)) as [Heq|Hne]; [eauto|].
  rewrite lookup_insert_ne in H by exact Hne. tauto.
Qed.

(** A worker moves on: the condition of [Inv_setWorkerPC] for a worker that
    has started. *)
Lemma Inv_advance w i pc pc' c :
  workers c !! w = Some (mkWorker i pc) ->
  pc <> WStart ->
  (finished (mkWorker i pc) = true -> finished (mkWorker i pc') = true) ->
  (signalled (mkWorker i pc) = true -> signalled (mkWorker i pc') = true) ->
  Inv c -> Inv (setWorkerPC w pc' c).
Proof.
  intros Hw Hpc Hf Hs HI. apply Inv_setWorkerPC; [|exact HI].
  intros wk Hwk. rewrite Hw in Hwk. inversion Hwk; subst. simpl workerTask.
  split; [exact Hf|]. split; [exact Hs|]. intros _ t Ht.
  eapply (inv_started c HI); eauto.
Qed.

(** The worker [w] has just finished; it writes its result or its error. *)
Lemma Inv_finish w i t wf' s c :
  workers c !! w = Some (mkWorker i WSending) ->
  Tasks (workflow c) !! i = Some t ->
  taskStep (workflow c) wf' i s ->
  s <> TaskPending ->
  (forall id, is_Some (Results wf' !! id) \/ is_Some (Errors wf' !! id) ->
     is_Some (Results (workflow c) !! id) \/ is_Some (Errors (workflow c) !! id)
     \/ exists t, Tasks (workflow c) !! i = Some t /\ ID t = id) ->
  Inv c -> Inv (setWorkflow wf' c).
Proof.
  intros Hw Ht Hstep Hs Hout HI. apply (Inv_setWorkflow wf' i s); try assumption.
  intros id Hid. destruct (Hout id Hid) as [H|[H|(t' & Ht' & <-)]]; [tauto|tauto|].
  right. right. exists w, (mkWorker i WSending), t'. auto.
Qed.

Lemma setWorkerPC_lookup w i pc pc' c :
  workers c !! w = Some (mkWorker i pc) ->
  workers (setWorkerPC w pc' c) !! w = Some (mkWorker i pc').
Proof.
  intros Hw. cbn [workers setWorkerPC]. now rewrite list_lookup_alter_eq, Hw.
Qed.

Lemma step_Inv registry act c c' : step registry act c = Some c' -> Inv c -> Inv c'.
Proof.
  intros Hstep HI. destruct act as [| |w| |w|]; simpl in Hstep.
  - (* main *)
    unfold stepMain in Hstep. destruct (main c) as [i| |r]; [| |discriminate].
    + destruct (Tasks (workflow c) !! i) as [t|] eqn:Ht.
      * destruct (decide (length (Dependencies t) = 0%nat)) as [Hlen|_];
          inversion Hstep; subst; (apply Inv_setMain; [discriminate|]); [|exact HI].
        apply Inv_spawn; [|exact HI]. intros t' d Ht' Hd. rewrite Ht in Ht'.
        inversion Ht'; subst. apply nil_length_inv in Hlen. rewrite Hlen in Hd.
        now apply elem_of_nil in Hd.
      * inversion Hstep; subst. apply Inv_setMain; [discriminate|exact HI].
    + destruct (decide (wg c = 0%nat)); [|discriminate]. inversion Hstep; subst.
      apply Inv_cancel, Inv_return, HI.
  - (* monitor *)
    unfold stepMonitor in Hstep. destruct (monitor c) as [|i|i|]; try discriminate.
    + destruct (Tasks (workflow c) !! i) as [t|].
      * destruct (decide _); inversion Hstep; subst; apply Inv_setMonitor, HI.
      * inversion Hstep; subst. apply Inv_cancel, Inv_setMonitor, HI.
    + destruct (Tasks (workflow c) !! i) as [t|] eqn:Ht.
      * destruct (decide (Status t = TaskPending)).
        -- destruct (allDepsCompleted (completedTasks c) t) eqn:Hall;
             inversion Hstep; subst; apply Inv_setMonitor; [|exact HI].
           apply Inv_spawn; [|exact HI]. intros t' d Ht' Hd. rewrite Ht in Ht'.
           inversion Ht'; subst. unfold allDepsCompleted in Hall.
           rewrite forallb_forall in Hall. specialize (Hall d).
           rewrite <- list_elem_of_In in Hall. specialize (Hall Hd).
           destruct (completedTasks c !! d) as [[|]|]; simpl in Hall; congruence.
        -- inversion Hstep; subst. apply Inv_setMonitor, HI.
      * inversion Hstep; subst. apply Inv_setMonitor, HI.
  - (* receive *)
    unfold stepReceive in Hstep. destruct (monitor c); try discriminate.
    destruct (workers c !! w) as [[i pc]|] eqn:Hw; [|discriminate].
    destruct pc; try discriminate.
    destruct (Tasks (workflow c) !! i) as [t|] eqn:Ht; [|discriminate].
    inversion Hstep; subst. apply Inv_setMonitor, Inv_markCompleted.
    + exists w, (mkWorker i WReturning), t. split; [eapply setWorkerPC_lookup; eauto|].
      auto.
    + eapply Inv_advance; eauto; discriminate.
  - (* monitor sees the cancellation *)
    unfold stepMonitorDone in Hstep. destruct (monitor c); try discriminate.
    destruct (cancelled c); [|discriminate]. inversion Hstep; subst. apply Inv_setMonitor, HI.
  - (* worker *)
    unfold stepWorker in Hstep.
    destruct (workers c !! w) as [[i pc]|] eqn:Hw; [|discriminate].
    destruct (Tasks (workflow c) !! i) as [t|] eqn:Ht; [|discriminate].
    destruct pc as [| |input| | |]; try discriminate.
    + inversion Hstep; subst. apply Inv_setWorkerPC.
      * intros wk Hwk. cbn [workers setWorkflow] in Hwk. rewrite Hw in Hwk.
        inversion Hwk; subst. split; [discriminate|]. split; [discriminate|].
        intros _ t' Ht'. unfold taskOf in Ht'. cbn [workflow setWorkflow workerTask] in Ht'.
        unfold setStatus in Ht'. cbn [Tasks] in Ht'.
        rewrite list_lookup_alter_eq, Ht in Ht'. inversion Ht'; subst. discriminate.
      * apply (Inv_setWorkflow _ i TaskRunning); [apply setStatus_taskStep|discriminate| |exact HI].
        intros id Hid. unfold setStatus in Hid. cbn [Results Errors] in Hid. tauto.
    + destruct (registry (AgentID t)) as [agent|]; inversion Hstep; subst.
      * eapply Inv_advance; eauto; discriminate.
      * apply (Inv_finish w i t _ TaskFailed).
        -- eapply setWorkerPC_lookup; eauto.
        -- exact Ht.
        -- apply failTask_taskStep.
        -- discriminate.
        -- apply failTask_outputs.
        -- eapply Inv_advance; eauto; discriminate.
    + destruct (registry (AgentID t)) as [agent|]; [|discriminate].
      destruct (agent input) as [result|err]; inversion Hstep; subst.
      * apply (Inv_finish w i t _ TaskCompleted).
        -- eapply setWorkerPC_lookup; eauto.
        -- exact Ht.
        -- apply completeTask_taskStep.
        -- discriminate.
        -- apply completeTask_outputs.
        -- eapply Inv_advance; eauto; discriminate.
      * apply (Inv_finish w i t _ TaskFailed).
        -- eapply setWorkerPC_lookup; eauto.
        -- exact Ht.
        -- apply failTask_taskStep.
        -- discriminate.
        -- apply failTask_outputs.
        -- eapply Inv_advance; eauto; discriminate.
    + inversion Hstep; subst. apply Inv_wgDone. eapply Inv_advance; eauto; discriminate.
  - (* cancellation from outside *)
    inversion Hstep; subst. apply Inv_cancel, HI.
Qed.

Lemma exec_Inv registry schedule c c' :
  exec registry schedule c = Some c' -> Inv c -> Inv c'.
Proof.
  revert c. induction schedule as [|act rest IH]; intros c Hexec HI; simpl in Hexec.
  - now inversion Hexec; subst.
  - destruct (step registry act c) as [c1|] eqn:Hstep; [|discriminate].
    eapply IH; eauto using step_Inv.
Qed.


Lemma step_FinalTaskID registry act c c' :
  step registry act c = Some c' -> FinalTaskID (workflow c') = FinalTaskID (workflow c).
Proof.
  intros Hstep. destruct act; simpl in Hstep;
    unfold stepMain, stepMonitor, stepReceive, stepMonitorDone, stepWorker in Hstep;
    repeat case_match; simplify_eq; try reflexivity;
    cbn [workflow setWorkflow setWorkerPC];
    first [apply setStatus_taskStep | apply failTask_taskStep | apply completeTask_taskStep].
Qed.

Lemma exec_FinalTaskID registry schedule c c' :
  exec registry schedule c = Some c' -> FinalTaskID (workflow c') = FinalTaskID (workflow c).
Proof.
  revert c. induction schedule as [|act rest IH]; intros c Hexec; simpl in Hexec.
  - now inversion Hexec.
  - destruct (step registry act c) as [c1|] eqn:Hstep; [|discriminate].
    rewrite (IH c1 Hexec). eapply step_FinalTaskID, Hstep.
Qed.

Lemma buildWorkflow_fresh specs finalTaskID :
  Results (buildWorkflow specs finalTaskID) = ∅
  /\ Errors (buildWorkflow specs finalTaskID) = ∅
  /\ FinalTaskID (buildWorkflow specs finalTaskID) = finalTaskID.
Proof.
  unfold buildWorkflow, SetFinalTask. cbn [Results Errors FinalTaskID].
  assert (H : forall w, Results w = ∅ -> Errors w = ∅ ->
            Results (fold_left (fun w '(id, agentID, input, dependencies) =>
                                  AddTask w id agentID input dependencies) specs w) = ∅
            /\ Errors (fold_left (fun w '(id, agentID, input, dependencies) =>
                                    AddTask w id agentID input dependencies) specs w) = ∅).
  { induction specs as [|[[[id agentID] input] deps] rest IH]; intros w HR HE; simpl; [auto|].
    apply IH; assumption. }
  destruct (H NewWorkflow eq_refl eq_refl). auto.
Qed.

Lemma reachable_Inv registry specs finalTaskID schedule c :
  exec registry schedule (initial (buildWorkflow specs finalTaskID)) = Some c -> Inv c.
Proof.
  intros Hexec. eapply exec_Inv; [exact Hexec|].
  destruct (buildWorkflow_fresh specs finalTaskID) as (HR & HE & _).
  now apply Inv_initial.
Qed.

(** C1 (as the code has it). In every configuration that [ExecuteWorkflow]
    reaches, each declared dependency of each task that has been started
    is marked in [completedTasks]; the mark is there because a worker
    started for that dependency has run it to the end, as completed or as
    failed, and has sent its id; the status of the dependency is no longer
    pending. *)
Theorem task_starts_after_dependencies_finish
    (registry : AgentRegistry) (specs : list TaskSpec) (finalTaskID : string)
    (schedule : list Action) (c : Config) :
  exec registry schedule (initial (buildWorkflow specs finalTaskID)) = Some c ->
  forall j wk t d,
    workers c !! j = Some wk -> taskOf c wk = Some t -> d ∈ Dependencies t ->
    completedTasks c !! d = Some true
    /\ exists j' wk' t',
         workers c !! j' = Some wk' /\ taskOf c wk' = Some t' /\ ID t' = d
         /\ signalled wk' = true /\ Status t' <> TaskPending.
Proof.
  intros Hexec j wk t d Hj Ht Hd.
  pose proof (reachable_Inv _ _ _ _ _ Hexec) as HI.
  pose proof (inv_deps c HI j wk t d Hj Ht Hd) as Hmark. split; [exact Hmark|].
  destruct (inv_signals c HI d Hmark) as (j' & wk' & t' & Hj' & Ht' & Hid & Hsig).
  exists j', wk', t'. repeat split; try assumption.
  apply (inv_started c HI j' wk' t' Hj' Ht').
  intros Hpc. unfold signalled in Hsig. rewrite Hpc in Hsig. discriminate.
Qed.

(** C7 (as the code has it). [ExecuteWorkflow] has no stall detection. What
    it returns is read off the entries of the final task alone: the empty
    text and no error when no final task is set, and the error
    ["final task result not found"] when no worker started for the final
    task has run to its end; tasks still pending are not looked at. *)
Theorem ExecuteWorkflow_result_ignores_pending
    (registry : AgentRegistry) (specs : list TaskSpec) (finalTaskID : string)
    (schedule : list Action) (c : Config) (r : Res string) :
  exec registry schedule (initial (buildWorkflow specs finalTaskID)) = Some c ->
  main c = MainReturned r ->
  (finalTaskID = EmptyString -> r = Ok EmptyString)
  /\ (finalTaskID <> EmptyString -> ~ backedBy finished c finalTaskID ->
      r = Err "final task result not found").
Proof.
  intros Hexec Hr.
  pose proof (reachable_Inv _ _ _ _ _ Hexec) as HI.
  pose proof (exec_FinalTaskID _ _ _ _ Hexec) as Hfinal. cbn [workflow initial] in Hfinal.
  destruct (buildWorkflow_fresh specs finalTaskID) as (_ & _ & Hf). rewrite Hf in Hfinal.
  destruct (inv_returned c HI r Hr) as [Ha Hb]. rewrite Hfinal in Ha, Hb.
  split; [exact Ha|]. intros Hne Hnone.
  destruct r as [s|e].
  - contradiction Hnone. apply Hb; [exact Hne|discriminate].
  - destruct (decide (e = "final task result not found")) as [->|He]; [reflexivity|].
    contradiction Hnone. apply Hb; [exact Hne|congruence].
Qed.


Lemma task_starts_after_dependencies_finish_witness :
  exists c,
    exec Fixtures.demoRegistry Fixtures.failedDepSchedule
      (initial (buildWorkflow Fixtures.failedDepSpecs "T2")) = Some c
    /\ forall j wk t d,
         workers c !! j = Some wk -> taskOf c wk = Some t -> d ∈ Dependencies t ->
         completedTasks c !! d = Some true
         /\ exists j' wk' t',
              workers c !! j' = Some wk' /\ taskOf c wk' = Some t' /\ ID t' = d
              /\ signalled wk' = true /\ Status t' <> TaskPending.
Proof.
  eexists. split.
  - vm_compute. reflexivity.
  - apply (task_starts_after_dependencies_finish Fixtures.demoRegistry Fixtures.failedDepSpecs
             "T2" Fixtures.failedDepSchedule).
    vm_compute. reflexivity.
Defined.

(** T1 names an agent that is not registered and fails; T2 depends on T1.
    After the monitor has been told that T1 is over, it starts T2: T2 is
    running while its dependency is failed. *)
Lemma failed_dependency_does_not_block :
  Fixtures.outcome <$> exec Fixtures.demoRegistry Fixtures.failedDepSchedule
                         (initial (buildWorkflow Fixtures.failedDepSpecs "T2"))
  = Some (MainWait, 1%nat, [("T1", TaskFailed); ("T2", TaskRunning)]).
Proof. vm_compute. reflexivity. Qed.

Lemma ExecuteWorkflow_result_ignores_pending_witness :
  exists c r,
    exec Fixtures.demoRegistry [ActMain; ActMain; ActMain]
      (initial (buildWorkflow [("T1", "a", "in1", ["X"])] "T1")) = Some c
    /\ main c = MainReturned r
    /\ r = Err "final task result not found".
Proof.
  eexists. eexists. split; [vm_compute; reflexivity|]. split; [reflexivity|].
  refine (proj2 (ExecuteWorkflow_result_ignores_pending Fixtures.demoRegistry
                   [("T1", "a", "in1", ["X"])] "T1" [ActMain; ActMain; ActMain] _ _ _ _) _ _).
  - vm_compute. reflexivity.
  - reflexivity.
  - discriminate.
  - intros (j & wk & t & Hj & _). vm_compute in Hj. destruct j; discriminate Hj.
Defined.

(** Two runs that end without any stall error. In the first, the only task
    waits for a dependency that does not exist: no worker is ever in
    flight, the task stays pending, and [ExecuteWorkflow] returns the empty
    text with no error. In the second, the final task T2 depends on the
    failed T1: it is run all the same and [ExecuteWorkflow] returns its
    result. *)
Lemma stalled_workflow_returns_no_error :
  Fixtures.outcome <$> exec Fixtures.demoRegistry [ActMain; ActMain; ActMain]
                         (initial (buildWorkflow [("T1", "a", "in1", ["X"])] EmptyString))
  = Some (MainReturned (Ok EmptyString), 0%nat, [("T1", TaskPending)])
  /\ Fixtures.outcome <$> exec Fixtures.demoRegistry
                            (Fixtures.failedDepSchedule
                             ++ [ActWorker 1; ActWorker 1; ActReceive 1; ActWorker 1; ActMain])
                            (initial (buildWorkflow Fixtures.failedDepSpecs "T2"))
     = Some (MainReturned (Ok "done: in2"), 0%nat,
             [("T1", TaskFailed); ("T2", TaskCompleted)]).
Proof. split; vm_compute; reflexivity. Qed.

End OrchestratorFacts.

Section BufferIsolation.
Import Interfaces Memory MemorySpec.

Lemma key_split T1 T2 C1 C2 :
  noColon T1 = true -> noColon T2 = true ->
  T1 +:+ ":" +:+ C1 = T2 +:+ ":" +:+ C2 -> T1 = T2 /\ C1 = C2.
Proof.
  revert T2. induction T1 as [|a T1 IH]; intros [|b T2] H1 H2 Heq; simpl in *.
  - inversion Heq. auto.
  - inversion Heq; subst. rewrite Ascii.eqb_refl in H2. discriminate.
  - inversion Heq; subst. rewrite Ascii.eqb_refl in H1. discriminate.
  - inversion Heq; subst. apply andb_prop in H1 as [_ H1]. apply andb_prop in H2 as [_ H2].
    destruct (IH T2 H1 H2 H3) as [-> ->]. auto.
Qed.

(** Two contexts whose organization ids hold no colon get the same
    conversation key only if they name the same organization and the same
    conversation: tenants that keep to such ids cannot read each other's
    messages. *)
Theorem getConversationID_injective (ctx1 ctx2 : Context) (key : string) :
  noColon (default EmptyString (ctx_org_id ctx1)) = true ->
  noColon (default EmptyString (ctx_org_id ctx2)) = true ->
  getConversationID ctx1 = Ok key ->
  getConversationID ctx2 = Ok key ->
  ctx_org_id ctx1 = ctx_org_id ctx2 /\ ctx_conversation_id ctx1 = ctx_conversation_id ctx2.
Proof.
  unfold getConversationID, Multitenancy.GetOrgID, GetConversationID.
  intros H1 H2 K1 K2.
  destruct (ctx_org_id ctx1) as [T1|]; [|discriminate].
  destruct (ctx_org_id ctx2) as [T2|]; [|discriminate].
  destruct (decide (T1 = EmptyString)); [discriminate|].
  destruct (decide (T2 = EmptyString)); [discriminate|].
  destruct (ctx_conversation_id ctx1) as [C1|]; [|discriminate].
  destruct (ctx_conversation_id ctx2) as [C2|]; [|discriminate].
  inversion K1 as [E1]. inversion K2 as [E2]. rewrite <- E2 in E1.
  destruct (key_split T1 T2 C1 C2 H1 H2 E1) as [-> ->]. auto.
Qed.

(** With a colon in an organization id the keys of two tenants can
    coincide. *)
Lemma key_collision :
  getConversationID (mkContext (Some "a:b") (Some "c"))
  = getConversationID (mkContext (Some "a") (Some "b:c")).
Proof. reflexivity. Qed.

(** [AddMessage] and [Clear] under one conversation key leave what
    [GetMessages] returns under every other key as it was. *)
Theorem AddMessage_other_conversation (c : ConversationBuffer) (ctx1 ctx2 : Context)
    (message : Message) (options : list GetMessagesOption) :
  getConversationID ctx1 <> getConversationID ctx2 ->
  GetMessages (snd (AddMessage c ctx1 message)) ctx2 options = GetMessages c ctx2 options
  /\ GetMessages (snd (Clear c ctx1)) ctx2 options = GetMessages c ctx2 options.
Proof.
  intros Hne. unfold AddMessage, Clear, GetMessages.
  destruct (getConversationID ctx1) as [k1|e1]; [|split; reflexivity].
  destruct (getConversationID ctx2) as [k2|e2]; [|split; reflexivity].
  assert (k1 <> k2) by congruence. cbn [snd messages].
  rewrite lookup_insert_ne, lookup_delete_ne by assumption. split; reflexivity.
Qed.

(** Right after [AddMessage], [GetMessages] without options returns the
    conversation with the new message last, after a suffix of what was
    stored before; right after [Clear] it returns the empty list. *)
Theorem AddMessage_then_GetMessages (c : ConversationBuffer) (ctx : Context)
    (message : Message) (key : string) :
  getConversationID ctx = Ok key ->
  (exists older,
     GetMessages (snd (AddMessage c ctx message)) ctx [] = Ok (older ++ [message])
     /\ older `suffix_of` (messages c !!! key))
  /\ GetMessages (snd (Clear c ctx)) ctx [] = Ok [].
Proof.
  intros Hkey. split.
  - unfold AddMessage, GetMessages. rewrite Hkey. cbn [snd messages].
    rewrite lookup_insert_eq.
    assert (Hid : forall l : list Message,
               applyLimit (Limit (applyGetMessagesOptions []))
                 (filterRoles (Roles (applyGetMessagesOptions [])) l) = l).
    { intros l. reflexivity. }
    rewrite Hid. set (old := messages c !!! key).
    destruct ((0 <? maxSize c) && (maxSize c <? Z.of_nat (length (old ++ [message])))) eqn:Hcut.
    + apply andb_prop in Hcut as [Hpos Hlt]. apply Z.ltb_lt in Hpos, Hlt.
      rewrite length_app in *. simpl in *.
      exists (drop (Z.to_nat (Z.of_nat (length old + 1) - maxSize c)) old). split.
      * f_equal. apply drop_app_le. lia.
      * apply suffix_drop.
    + exists old. split; [reflexivity|]. reflexivity.
  - unfold Clear, GetMessages. rewrite Hkey. cbn [snd messages].
    now rewrite lookup_delete_eq.
Qed.

Lemma runOps_unbounded (c0 : ConversationBuffer) (ops : list BufferOp) (key : string) :
  messages c0 = ∅ -> maxSize c0 <= 0 ->
  messages (runOps ops c0) !!! key = added key ops.
Proof.
  intros Hempty Hmax. induction ops as [|op ops IH] using rev_ind.
  - simpl. rewrite Hempty. reflexivity.
  - rewrite runOps_snoc, added_snoc.
    pose proof (runOps_maxSize ops c0) as Hm.
    destruct op as [ctx m|ctx]; simpl; unfold AddMessage, Clear;
      destruct (getConversationID ctx) as [k|e]; simpl; try exact IH.
    + destruct (Z.ltb_spec 0 (maxSize (runOps ops c0))); [lia|]. simpl.
      destruct (decide (k = key)) as [->|Hne].
      * now rewrite lookup_total_insert_eq, IH.
      * now rewrite lookup_total_insert_ne.
    + destruct (decide (k = key)) as [->|Hne].
      * now rewrite lookup_total_delete_eq.
      * now rewrite lookup_total_delete_ne.
Qed.

(** A buffer whose maximum size is zero or negative never drops a
    message: a conversation holds everything added since it was last
    cleared. *)
Theorem ConversationBuffer_unbounded (sizes : list Z) (ops : list BufferOp) (key : string) :
  maxSize (NewConversationBuffer (map WithMaxSize sizes)) <= 0 ->
  messages (runOps ops (NewConversationBuffer (map WithMaxSize sizes))) !!! key
  = added key ops.
Proof. intros H. apply runOps_unbounded; [apply NewConversationBuffer_messages|exact H]. Qed.

(** Without an organization id (none, or the empty one) or without a
    conversation id, each of the three operations returns an error and
    the buffer stays as it was. *)
Theorem ConversationBuffer_requires_tenant (c : ConversationBuffer) (ctx : Context)
    (message : Message) (options : list GetMessagesOption) :
  ctx_org_id ctx = None \/ ctx_org_id ctx = Some EmptyString \/ ctx_conversation_id ctx = None ->
  (exists err, AddMessage c ctx message = (Some err, c))
  /\ (exists err, GetMessages c ctx options = Err err)
  /\ (exists err, Clear c ctx = (Some err, c)).
Proof.
  intros H.
  assert (Hk : exists err, getConversationID ctx = Err err).
  { unfold getConversationID, Multitenancy.GetOrgID, GetConversationID.
    destruct H as [->|[->|H]]; [eauto|simpl; eauto|].
    rewrite H. destruct (ctx_org_id ctx) as [T|]; [|eauto].
    destruct (decide (T = EmptyString)); eauto. }
  destruct Hk as [err Hk]. unfold AddMessage, GetMessages, Clear. rewrite Hk.
  repeat split; eauto.
Qed.

Lemma applyLimit_sublist limit (l : list Message) : applyLimit limit l `sublist_of` l.
Proof.
  unfold applyLimit. destruct (_ && _); [apply sublist_drop|reflexivity].
Qed.

Lemma filterRoles_sublist roles (l : list Message) : filterRoles roles l `sublist_of` l.
Proof.
  unfold filterRoles. destruct (decide _); [apply sublist_filter|reflexivity].
Qed.

(** What [GetMessages] returns is a sublist of the stored conversation,
    in the stored order; with a positive limit it has at most that many
    messages, and with a role filter every message has one of the roles. *)
Theorem GetMessages_limit_and_roles (c : ConversationBuffer) (ctx : Context)
    (options : list GetMessagesOption) (key : string) (result : list Message) :
  getConversationID ctx = Ok key ->
  GetMessages c ctx options = Ok result ->
  result `sublist_of` (messages c !!! key)
  /\ (0 < Limit (applyGetMessagesOptions options) ->
      Z.of_nat (length result) <= Limit (applyGetMessagesOptions options))
  /\ (Roles (applyGetMessagesOptions options) <> [] ->
      Forall (fun msg => Role msg ∈ Roles (applyGetMessagesOptions options)) result).
Proof.
  intros Hkey Hget. unfold GetMessages in Hget. rewrite Hkey in Hget.
  rewrite lookup_total_alt.
  destruct (messages c !! key) as [msgs|]; simpl.
  - inversion Hget; subst; clear Hget. split; [|split].
    + etransitivity; [apply applyLimit_sublist|apply filterRoles_sublist].
    + intros Hpos. unfold applyLimit.
      destruct (Z.ltb_spec 0 (Limit (applyGetMessagesOptions options))); [|lia]. simpl.
      destruct (Z.ltb_spec (Limit (applyGetMessagesOptions options))
                  (Z.of_nat (length (filterRoles (Roles (applyGetMessagesOptions options)) msgs)))).
      * rewrite length_drop. lia.
      * lia.
    + intros Hroles.
      assert (Hf : Forall (fun msg => Role msg ∈ Roles (applyGetMessagesOptions options))
                     (filterRoles (Roles (applyGetMessagesOptions options)) msgs)).
      { unfold filterRoles. destruct (decide _) as [_|Hz].
        - apply Forall_forall. intros x Hx. now apply list_elem_of_filter in Hx as [Hx _].
        - destruct (Roles (applyGetMessagesOptions options)); [contradiction|simpl in Hz; lia]. }
      rewrite Forall_forall in Hf. apply Forall_forall. intros x Hx. apply Hf.
      eapply elem_of_sublist; [exact Hx|apply applyLimit_sublist].
  - inversion Hget; subst. split; [reflexivity|]. split; [simpl; lia|constructor].
Qed.

Lemma getConversationID_injective_witness :
  ctx_org_id (Multitenancy.WithOrgID (WithConversationID Background "c1") "acme")
  = ctx_org_id Fixtures.acme
  /\ ctx_conversation_id (Multitenancy.WithOrgID (WithConversationID Background "c1") "acme")
     = ctx_conversation_id Fixtures.acme.
Proof.
  apply (getConversationID_injective
           (Multitenancy.WithOrgID (WithConversationID Background "c1") "acme")
           Fixtures.acme "acme:c1"); reflexivity.
Defined.

Lemma AddMessage_other_conversation_witness :
  GetMessages (snd (AddMessage MoreFixtures.twoMessages MoreFixtures.otherConversation
                      MoreFixtures.hello)) Fixtures.acme []
  = GetMessages MoreFixtures.twoMessages Fixtures.acme []
  /\ GetMessages (snd (Clear MoreFixtures.twoMessages MoreFixtures.otherConversation))
       Fixtures.acme []
     = GetMessages MoreFixtures.twoMessages Fixtures.acme [].
Proof.
  apply (AddMessage_other_conversation MoreFixtures.twoMessages
           MoreFixtures.otherConversation Fixtures.acme MoreFixtures.hello []).
  vm_compute. discriminate.
Defined.

Lemma AddMessage_then_GetMessages_witness :
  (exists older,
     GetMessages (snd (AddMessage MoreFixtures.twoMessages Fixtures.acme MoreFixtures.hello))
       Fixtures.acme [] = Ok (older ++ [MoreFixtures.hello])
     /\ older `suffix_of` (messages MoreFixtures.twoMessages !!! "acme:c1"))
  /\ GetMessages (snd (Clear MoreFixtures.twoMessages Fixtures.acme)) Fixtures.acme [] = Ok [].
Proof.
  apply (AddMessage_then_GetMessages MoreFixtures.twoMessages Fixtures.acme
           MoreFixtures.hello "acme:c1").
  reflexivity.
Defined.

Lemma ConversationBuffer_unbounded_witness :
  messages (runOps [OpAddMessage Fixtures.acme MoreFixtures.hello;
                    OpAddMessage Fixtures.acme MoreFixtures.answer]
              (NewConversationBuffer (map WithMaxSize [0]))) !!! "acme:c1"
  = added "acme:c1" [OpAddMessage Fixtures.acme MoreFixtures.hello;
                     OpAddMessage Fixtures.acme MoreFixtures.answer].
Proof.
  apply (ConversationBuffer_unbounded [0]). simpl. lia.
Defined.

Lemma ConversationBuffer_requires_tenant_witness :
  (exists err, AddMessage MoreFixtures.twoMessages Background MoreFixtures.hello
               = (Some err, MoreFixtures.twoMessages))
  /\ (exists err, GetMessages MoreFixtures.twoMessages Background [] = Err err)
  /\ (exists err, Clear MoreFixtures.twoMessages Background
                  = (Some err, MoreFixtures.twoMessages)).
Proof.
  apply (ConversationBuffer_requires_tenant MoreFixtures.twoMessages Background
           MoreFixtures.hello []).
  left. reflexivity.
Defined.

Lemma GetMessages_limit_and_roles_witness :
  [MoreFixtures.answer] `sublist_of` (messages MoreFixtures.twoMessages !!! "acme:c1")
  /\ (0 < Limit (applyGetMessagesOptions [WithLimit 1]) ->
      Z.of_nat (length [MoreFixtures.answer]) <= Limit (applyGetMessagesOptions [WithLimit 1]))
  /\ (Roles (applyGetMessagesOptions [WithLimit 1]) <> [] ->
      Forall (fun msg => Role msg ∈ Roles (applyGetMessagesOptions [WithLimit 1]))
        [MoreFixtures.answer]).
Proof.
  apply (GetMessages_limit_and_roles MoreFixtures.twoMessages Fixtures.acme [WithLimit 1]
           "acme:c1" [MoreFixtures.answer]); vm_compute; reflexivity.
Defined.

End BufferIsolation.

Section RedisCommands.
Import Interfaces Memory Memory.Redis RedisSpec.

Lemma rpushRetry_shape codec r key m n e log :
  exists k,
    (k <= n)%nat
    /\ snd (rpushRetry codec r key m n e log)
       = log ++ replicate k (RPush key (encoded codec m))
             ++ match fst (rpushRetry codec r key m n e log) with
                | None => [Expire key (ttl r)]
                | Some _ => []
                end
    /\ (fst (rpushRetry codec r key m n e log) = None -> (1 <= k)%nat).
Proof.
  revert e log. induction n as [|n IH]; intros e log; simpl.
  - exists 0%nat. simpl. rewrite app_nil_r. repeat split; [lia|discriminate].
  - unfold encoded. destruct (MarshalMessage codec m) as [json|err] eqn:Hm; simpl.
    + destruct (client r log (RPush key json)) as [rep|err]; simpl.
      * exists 1%nat. simpl. repeat split; lia.
      * destruct (IH (Some err) (log ++ [RPush key json])) as (k & Hk & Hlog & Hok).
        unfold encoded in Hlog. rewrite Hm in Hlog.
        exists (S k). split; [lia|]. split; [|intros _; lia].
        rewrite Hlog, <- app_assoc. reflexivity.
    + exists 0%nat. simpl. rewrite app_nil_r. repeat split; [lia|discriminate].
Qed.

(** [AddMessage] pushes the same encoding at most [MaxRetries + 1]
    times, and sets the expiry exactly when a push was accepted, as the
    last command. *)
Theorem AddMessage_retry_bound (codec : JSONCodec) (r : RedisMemory) (ctx : Context)
    (message : Message) (log : list RedisCmd) :
  exists k,
    (k <= Z.to_nat (MaxRetries (retryOptions r) + 1))%nat
    /\ snd (AddMessage codec r ctx message log)
       = log ++ pushCommands codec r ctx message k (fst (AddMessage codec r ctx message log))
    /\ (fst (AddMessage codec r ctx message log) = None -> (1 <= k)%nat).
Proof.
  unfold AddMessage, pushCommands, redisKey.
  destruct (getConversationID ctx) as [conversationID|err]; simpl.
  - destruct (checkMessageSize codec r message); simpl.
    + exists 0%nat. simpl. rewrite app_nil_r. repeat split; [lia|discriminate].
    + unfold processMessage.
      destruct (compressionEnabled r || bool_decide (encryptionKey r <> None));
        apply rpushRetry_shape.
  - exists 0%nat. simpl. rewrite app_nil_r. repeat split; [lia|discriminate].
Qed.

(** A message whose encoding is longer than a positive
    [maxMessageSize] is refused before anything is sent. *)
Theorem AddMessage_oversized (codec : JSONCodec) (r : RedisMemory) (ctx : Context)
    (message : Message) (log : list RedisCmd) (messageBytes : string) :
  0 < maxMessageSize r ->
  MarshalMessage codec message = Ok messageBytes ->
  maxMessageSize r < Z.of_nat (String.length messageBytes) ->
  (exists err, fst (AddMessage codec r ctx message log) = Some err)
  /\ snd (AddMessage codec r ctx message log) = log.
Proof.
  intros Hpos Hm Hlen. unfold AddMessage.
  destruct (getConversationID ctx); simpl; [|eauto].
  unfold checkMessageSize. rewrite Hm.
  destruct (Z.ltb_spec 0 (maxMessageSize r)); [|lia].
  destruct (Z.ltb_spec (maxMessageSize r) (Z.of_nat (String.length messageBytes))); [|lia].
  simpl. eauto.
Qed.

(** Without an organization id in the context nothing is sent to the
    server by any of the three operations, so no key is ever built with the
    "default" organization. *)
Theorem Redis_requires_tenant (codec : JSONCodec) (r : RedisMemory) (ctx : Context)
    (message : Message) (options : list GetMessagesOption) (log : list RedisCmd)
    (err : string) :
  Multitenancy.GetOrgID ctx = Err err ->
  (exists e, AddMessage codec r ctx message log = (Some e, log))
  /\ (exists e, GetMessages codec r ctx options log = (Err e, log))
  /\ (exists e, Clear r ctx log = (Some e, log)).
Proof.
  intros Horg. unfold AddMessage, GetMessages, Clear, getConversationID. rewrite Horg.
  repeat split; eauto.
Qed.

Lemma parseMessages_ok codec jsons msgs :
  Forall2 (fun json msg => UnmarshalMessage codec json = Ok msg) jsons msgs ->
  parseMessages codec jsons = Ok msgs.
Proof.
  induction 1 as [|json msg jsons msgs H _ IH]; simpl; [reflexivity|].
  now rewrite H, IH.
Qed.

(** When the server answers [LRange] with entries that all decode,
    [GetMessages] returns the decoded messages in the server's order,
    filtered by role and cut to the limit; it sends that one command. *)
Theorem Redis_GetMessages_decodes (codec : JSONCodec) (r : RedisMemory) (ctx : Context)
    (options : list GetMessagesOption) (log : list RedisCmd) (key : string)
    (jsons : list string) (msgs : list Message) :
  getConversationID ctx = Ok key ->
  client r log (LRange (redisKey r ctx) 0 (-1)) = Ok jsons ->
  Forall2 (fun json msg => UnmarshalMessage codec json = Ok msg) jsons msgs ->
  GetMessages codec r ctx options log
  = (Ok (applyLimit (Limit (applyGetMessagesOptions options))
           (filterRoles (Roles (applyGetMessagesOptions options)) msgs)),
     log ++ [LRange (redisKey r ctx) 0 (-1)]).
Proof.
  intros Hkey Hreply Hdec. unfold GetMessages, redisKey in *. rewrite Hkey in *.
  rewrite Hreply, (parseMessages_ok _ _ _ Hdec). reflexivity.
Qed.

Lemma AddMessage_oversized_witness :
  (exists err, fst (AddMessage Fixtures.contentCodec MoreFixtures.tinyRedis Fixtures.acme
                      MoreFixtures.hello []) = Some err)
  /\ snd (AddMessage Fixtures.contentCodec MoreFixtures.tinyRedis Fixtures.acme
            MoreFixtures.hello []) = [].
Proof.
  apply (AddMessage_oversized Fixtures.contentCodec MoreFixtures.tinyRedis Fixtures.acme
           MoreFixtures.hello [] "hello"); [reflexivity|reflexivity|vm_compute; reflexivity].
Defined.

Lemma Redis_requires_tenant_witness :
  (exists e, AddMessage Fixtures.contentCodec (NewRedisMemory Fixtures.acceptAll []) Background
               MoreFixtures.hello [] = (Some e, []))
  /\ (exists e, GetMessages Fixtures.contentCodec (NewRedisMemory Fixtures.acceptAll [])
                  Background [] [] = (Err e, []))
  /\ (exists e, Clear (NewRedisMemory Fixtures.acceptAll []) Background [] = (Some e, [])).
Proof.
  apply (Redis_requires_tenant Fixtures.contentCodec (NewRedisMemory Fixtures.acceptAll [])
           Background MoreFixtures.hello [] [] Multitenancy.ErrNoOrgID).
  reflexivity.
Defined.

Lemma Redis_GetMessages_decodes_witness :
  GetMessages Fixtures.contentCodec (NewRedisMemory MoreFixtures.listingServer [])
    Fixtures.acme [WithLimit 1] []
  = (Ok (applyLimit (Limit (applyGetMessagesOptions [WithLimit 1]))
           (filterRoles (Roles (applyGetMessagesOptions [WithLimit 1]))
              [mkMessage "user" "first" []; mkMessage "user" "second" []])),
     [] ++ [LRange (redisKey (NewRedisMemory MoreFixtures.listingServer []) Fixtures.acme)
              0 (-1)]).
Proof.
  apply (Redis_GetMessages_decodes Fixtures.contentCodec
           (NewRedisMemory MoreFixtures.listingServer []) Fixtures.acme [WithLimit 1] []
           "acme:c1" ["first"; "second"]).
  - reflexivity.
  - reflexivity.
  - repeat constructor.
Defined.

End RedisCommands.

Section TenantFacts.
Import Multitenancy Tenants.

(** A registration is visible to the tenant it names and to no one else:
    after [RegisterTenant], a context of that organization reads the new
    configuration and every other context reads what it read before. A
    configuration without organization id is refused, and then every
    context reads what it read before. *)
Theorem RegisterTenant_round_trip (m : ConfigManager) (config : TenantConfig)
    (ctx : Context) (orgID : string) :
  GetOrgID ctx = Ok orgID ->
  GetTenantConfig (snd (RegisterTenant m config)) ctx
  = (if decide (orgID = OrgID config) then Ok config else GetTenantConfig m ctx)
  /\ (fst (RegisterTenant m config) = None <-> OrgID config <> EmptyString).
Proof.
  intros Hctx.
  assert (Horg : orgID <> EmptyString).
  { unfold GetOrgID in Hctx. destruct (ctx_org_id ctx) as [T|]; [|discriminate].
    destruct (decide (T = EmptyString)); [discriminate|]. congruence. }
  unfold RegisterTenant. destruct (decide (OrgID config = EmptyString)) as [Hempty|Hne].
  - cbn [fst snd]. split.
    + destruct (decide (orgID = OrgID config)); [congruence|reflexivity].
    + split; [discriminate|contradiction].
  - cbn [fst snd]. split; [|split; auto].
    unfold GetTenantConfig. rewrite Hctx. cbn [configs].
    destruct (decide (orgID = OrgID config)) as [->|Hother].
    + now rewrite lookup_insert_eq.
    + now rewrite lookup_insert_ne by congruence.
Qed.

Lemma registerAll_lookup (registrations : list TenantConfig) (m : ConfigManager)
    (orgID : string) (config : TenantConfig) :
  configs (registerAll m registrations) !! orgID = Some config ->
  configs m !! orgID = Some config
  \/ (config ∈ registrations /\ OrgID config = orgID).
Proof.
  revert m. induction registrations as [|c registrations IH]; intros m H; [now left|].
  simpl in H. apply IH in H as [H|[Hin Hid]].
  - unfold RegisterTenant in H. destruct (decide (OrgID c = EmptyString)); [now left|].
    simpl in H. destruct (decide (OrgID c = orgID)) as [<-|Hne].
    + rewrite lookup_insert_eq in H. inversion H; subst. right. split; [left|reflexivity].
    + rewrite lookup_insert_ne in H by exact Hne. now left.
  - right. split; [now right|exact Hid].
Qed.

(** In a manager filled by [RegisterTenant] alone, the API key a context
    obtains comes from a configuration registered under the organization
    id of that context: a key registered for another tenant only is never
    returned. *)
Theorem GetLLMAPIKey_own_tenant (registrations : list TenantConfig) (ctx : Context)
    (provider apiKey : string) :
  GetLLMAPIKey (registerAll NewConfigManager registrations) ctx provider = Ok apiKey ->
  exists config,
    config ∈ registrations
    /\ GetOrgID ctx = Ok (OrgID config)
    /\ LLMAPIKeys config !! provider = Some apiKey.
Proof.
  unfold GetLLMAPIKey. intros H.
  destruct (GetTenantConfig _ ctx) as [config|err] eqn:Hc; [|discriminate].
  destruct (LLMAPIKeys config !! provider) as [k|] eqn:Hk; [|discriminate].
  inversion H; subst k. exists config.
  unfold GetTenantConfig in Hc.
  destruct (GetOrgID ctx) as [orgID|err] eqn:Hctx; [|discriminate].
  destruct (configs _ !! orgID) as [c|] eqn:Hl; [|discriminate].
  inversion Hc; subst c. apply registerAll_lookup in Hl as [Hl|[Hin Hid]].
  - simpl in Hl. now rewrite lookup_empty in Hl.
  - subst orgID. auto.
Qed.

Lemma RegisterTenant_round_trip_witness :
  GetTenantConfig (snd (RegisterTenant NewConfigManager MoreFixtures.acmeConfig)) Fixtures.acme
  = (if decide ("acme" = OrgID MoreFixtures.acmeConfig)
     then Ok MoreFixtures.acmeConfig
     else GetTenantConfig NewConfigManager Fixtures.acme)
  /\ (fst (RegisterTenant NewConfigManager MoreFixtures.acmeConfig) = None
      <-> OrgID MoreFixtures.acmeConfig <> EmptyString).
Proof.
  apply (RegisterTenant_round_trip NewConfigManager MoreFixtures.acmeConfig Fixtures.acme
           "acme").
  reflexivity.
Defined.

Lemma GetLLMAPIKey_own_tenant_witness :
  exists config,
    config ∈ [MoreFixtures.globexConfig; MoreFixtures.acmeConfig]
    /\ GetOrgID Fixtures.acme = Ok (OrgID config)
    /\ LLMAPIKeys config !! "openai" = Some "sk-acme".
Proof.
  apply (GetLLMAPIKey_own_tenant [MoreFixtures.globexConfig; MoreFixtures.acmeConfig]
           Fixtures.acme "openai" "sk-acme").
  vm_compute. reflexivity.
Defined.

End TenantFacts.

Section ExecutorRuns.
Import Tools ExecutionPlans ExecutorSpec.

Lemma executeSteps_prefix e ctx i before rest rs acc :
  Forall2 (stepSucceeds e ctx) before rs ->
  executeSteps e ctx i (before ++ rest) acc
  = (fst (executeSteps e ctx (i + Z.of_nat (length before)) rest (acc ++ stepRecords i before rs)),
     map toolCall before
     ++ snd (executeSteps e ctx (i + Z.of_nat (length before)) rest (acc ++ stepRecords i before rs))).
Proof.
  intros Hok. revert i acc. induction Hok as [|step r before rs (tool & Hfind & Hexec) _ IH];
    intros i acc.
  - simpl. rewrite Z.add_0_r, app_nil_r. now destruct (executeSteps e ctx i rest acc).
  - cbn [app executeSteps]. rewrite Hfind, Hexec. rewrite IH.
    cbn [stepRecords length map app].
    replace (i + 1 + Z.of_nat (length before)) with (i + Z.of_nat (S (length before))) by lia.
    rewrite <- app_assoc. cbn [app]. reflexivity.
Qed.

(** An approved plan whose steps all succeed: the tools are called once
    each in the order of the steps, the status goes to executing and then
    to completed, and the result lists the steps numbered from 1. *)
Theorem ExecutePlan_all_steps_succeed (e : Executor) (ctx : Context) (plan : ExecutionPlan)
    (results : list string) :
  UserApproved plan = true ->
  Forall2 (stepSucceeds e ctx) (Steps plan) results ->
  ExecutePlan e ctx plan
  = (Ok ("Execution plan completed successfully!" +:+ nl +:+ nl
         +:+ Join (stepRecords 0 (Steps plan) results) (nl +:+ nl)),
     setStatus plan StatusCompleted,
     SetStatus StatusExecuting :: map toolCall (Steps plan) ++ [SetStatus StatusCompleted]).
Proof.
  intros Happ Hok. unfold ExecutePlan. rewrite Happ. simpl negb. cbv iota.
  pose proof (executeSteps_prefix e ctx 0 (Steps plan) [] results [] Hok) as H.
  rewrite app_nil_r in H. rewrite H. simpl. rewrite app_nil_r. reflexivity.
Qed.

(** The first step that fails ends the execution: the steps before it
    have run, the steps after it are not run, the plan is left failed and
    the error carries the number of the step, counted from 1. *)
Theorem ExecutePlan_stops_at_first_failure (e : Executor) (ctx : Context)
    (plan : ExecutionPlan) (before after : list ExecutionStep) (step : ExecutionStep)
    (results : list string) (tool : Tool) (err : string) :
  UserApproved plan = true ->
  Steps plan = before ++ step :: after ->
  Forall2 (stepSucceeds e ctx) before results ->
  tools e !! ToolName step = Some tool ->
  Execute tool ctx (Input step) = Err err ->
  ExecutePlan e ctx plan
  = (Err ("failed to execute step " +:+ pretty (Z.of_nat (length before) + 1) +:+ ": " +:+ err),
     setStatus plan StatusFailed,
     SetStatus StatusExecuting :: map toolCall before ++ [toolCall step]
     ++ [SetStatus StatusFailed]).
Proof.
  intros Happ Hsteps Hok Hfind Hexec. unfold ExecutePlan. rewrite Happ, Hsteps. simpl negb.
  cbv iota. rewrite (executeSteps_prefix e ctx 0 before (step :: after) results [] Hok).
  cbn [executeSteps]. rewrite Hfind, Hexec. simpl. rewrite <- app_assoc. reflexivity.
Qed.

(** A step that names no registered tool fails the plan without any
    call for it or for the steps after it. *)
Theorem ExecutePlan_unknown_tool (e : Executor) (ctx : Context)
    (plan : ExecutionPlan) (before after : list ExecutionStep) (step : ExecutionStep)
    (results : list string) :
  UserApproved plan = true ->
  Steps plan = before ++ step :: after ->
  Forall2 (stepSucceeds e ctx) before results ->
  tools e !! ToolName step = None ->
  ExecutePlan e ctx plan
  = (Err ("unknown tool: " +:+ ToolName step),
     setStatus plan StatusFailed,
     SetStatus StatusExecuting :: map toolCall before ++ [SetStatus StatusFailed]).
Proof.
  intros Happ Hsteps Hok Hfind. unfold ExecutePlan. rewrite Happ, Hsteps. simpl negb.
  cbv iota. rewrite (executeSteps_prefix e ctx 0 before (step :: after) results [] Hok).
  cbn [executeSteps]. rewrite Hfind. simpl. rewrite app_nil_r. reflexivity.
Qed.

(** Whatever happens, [ExecutePlan] changes nothing of the plan but its
    status: the steps, the task id, the approval and both time stamps stay. *)
Theorem ExecutePlan_changes_status_only (e : Executor) (ctx : Context) (plan : ExecutionPlan) :
  exists s, snd (fst (ExecutePlan e ctx plan)) = setStatus plan s.
Proof.
  unfold ExecutePlan. destruct (UserApproved plan); simpl.
  - destruct (executeSteps e ctx 0 (Steps plan) []) as [[rs|err] log]; simpl; eauto.
  - exists (Status plan). now destruct plan.
Qed.

Lemma NewExecutor_fold_lookup (ts : list Tool) (m : gmap string Tool) (n : string) :
  fold_left (fun toolMap tool => <[Name tool := tool]> toolMap) ts m !! n
  = match findTool (rev ts) n with
    | Some t => Some t
    | None => m !! n
    end.
Proof.
  revert m. induction ts as [|t ts IH]; intros m; simpl; [reflexivity|].
  rewrite IH. clear IH.
  assert (Hrev : findTool (rev ts ++ [t]) n
                 = match findTool (rev ts) n with
                   | Some t' => Some t'
                   | None => if decide (Name t = n) then Some t else None
                   end).
  { generalize (rev ts). intros l. induction l as [|x l IHl]; simpl.
    - reflexivity.
    - destruct (decide (Name x = n)); [reflexivity|exact IHl]. }
  rewrite Hrev. destruct (findTool (rev ts) n); [reflexivity|].
  destruct (decide (Name t = n)) as [<-|Hne].
  - apply lookup_insert_eq.
  - now rewrite lookup_insert_ne.
Qed.

(** The executor resolves a tool name to the last tool of the list that
    bears it, where the tool loop of the model adapter ([findTool]) takes
    the first. *)
Theorem NewExecutor_last_tool_wins (ts : list Tool) (n : string) :
  tools (NewExecutor ts) !! n = findTool (rev ts) n.
Proof.
  unfold NewExecutor. cbn [tools]. rewrite NewExecutor_fold_lookup.
  destruct (findTool (rev ts) n); [reflexivity|apply lookup_empty].
Qed.

Lemma ExecutePlan_all_steps_succeed_witness :
  ExecutePlan (NewExecutor [Fixtures.calculator]) Fixtures.acme Fixtures.approvedPlan
  = (Ok ("Execution plan completed successfully!" +:+ nl +:+ nl
         +:+ Join (stepRecords 0 (Steps Fixtures.approvedPlan) ["42"]) (nl +:+ nl)),
     setStatus Fixtures.approvedPlan StatusCompleted,
     SetStatus StatusExecuting :: map toolCall (Steps Fixtures.approvedPlan)
     ++ [SetStatus StatusCompleted]).
Proof.
  apply (ExecutePlan_all_steps_succeed (NewExecutor [Fixtures.calculator]) Fixtures.acme
           Fixtures.approvedPlan ["42"]); [reflexivity|].
  constructor; [|constructor]. exists Fixtures.calculator. split; reflexivity.
Defined.

Lemma ExecutePlan_stops_at_first_failure_witness :
  ExecutePlan (NewExecutor [Fixtures.calculator; Fixtures.broken]) Fixtures.acme
    MoreFixtures.failingPlan
  = (Err ("failed to execute step " +:+ pretty (Z.of_nat (length [MoreFixtures.multiply]) + 1)
          +:+ ": " +:+ "boom"),
     setStatus MoreFixtures.failingPlan StatusFailed,
     SetStatus StatusExecuting :: map toolCall [MoreFixtures.multiply]
     ++ [toolCall MoreFixtures.explode] ++ [SetStatus StatusFailed]).
Proof.
  apply (ExecutePlan_stops_at_first_failure
           (NewExecutor [Fixtures.calculator; Fixtures.broken]) Fixtures.acme
           MoreFixtures.failingPlan [MoreFixtures.multiply] [MoreFixtures.multiply]
           MoreFixtures.explode ["42"] Fixtures.broken "boom");
    [reflexivity|reflexivity| |reflexivity|reflexivity].
  constructor; [|constructor]. exists Fixtures.calculator. split; reflexivity.
Defined.

Lemma ExecutePlan_unknown_tool_witness :
  ExecutePlan (NewExecutor [Fixtures.calculator; Fixtures.broken]) Fixtures.acme
    MoreFixtures.unknownToolPlan
  = (Err ("unknown tool: " +:+ ToolName MoreFixtures.teleport),
     setStatus MoreFixtures.unknownToolPlan StatusFailed,
     SetStatus StatusExecuting :: map toolCall [MoreFixtures.multiply]
     ++ [SetStatus StatusFailed]).
Proof.
  apply (ExecutePlan_unknown_tool
           (NewExecutor [Fixtures.calculator; Fixtures.broken]) Fixtures.acme
           MoreFixtures.unknownToolPlan [MoreFixtures.multiply] [MoreFixtures.multiply]
           MoreFixtures.teleport ["42"]);
    [reflexivity|reflexivity| |reflexivity].
  constructor; [|constructor]. exists Fixtures.calculator. split; reflexivity.
Defined.

End ExecutorRuns.

Section ToolLoopShape.
Import Tools LLMOptions OpenAI OpenAISpec.

Lemma processToolCalls_replies (lib : StdLib) (tools : list Tool) (ctx : Context)
    (toolCalls : list ToolCall) (orders : list (list nat))
    (messages result : list ChatCompletionMessage) :
  processToolCalls lib tools ctx toolCalls orders messages = Return (Ok result) ->
  exists replies,
    result = messages ++ replies
    /\ Forall isToolReply replies
    /\ map ToolCallID replies `sublist_of` map ID toolCalls.
Proof.
  revert orders messages. induction toolCalls as [|toolCall rest IH]; intros orders messages H.
  - simpl in H. inversion H; subst. exists []. rewrite app_nil_r. repeat split; constructor.
  - simpl in H.
    assert (Hstep : forall reply,
               isToolReply reply -> ToolCallID reply = ID toolCall ->
               forall orders',
               processToolCalls lib tools ctx rest orders' (messages ++ [reply])
               = Return (Ok result) ->
               exists replies,
                 result = messages ++ replies /\ Forall isToolReply replies
                 /\ map ToolCallID replies `sublist_of` map ID (toolCall :: rest)).
    { intros reply Hreply Hid orders' H'. destruct (IH _ _ H') as (replies & -> & Hall & Hsub).
      exists (reply :: replies). rewrite <- app_assoc. split; [reflexivity|].
      split; [now constructor|]. simpl. rewrite Hid. now constructor. }
    destruct (decide (FunctionName toolCall = "parallel_tool_use")).
    + destruct (UnmarshalToolUses lib (Arguments toolCall)) as [toolUses|err].
      * destruct (runParallel _ _ _ _ _) as [[toolsResults|err]|]; try discriminate.
        eapply Hstep; [| |exact H]; [split|]; reflexivity.
      * destruct (IH _ _ H) as (replies & -> & Hall & Hsub).
        exists replies. repeat split; auto. simpl. now constructor.
    + destruct (findTool tools (FunctionName toolCall)) as [selectedTool|]; [|discriminate].
      destruct (decide (Name selectedTool = EmptyString)); [discriminate|].
      destruct (Execute selectedTool ctx (Arguments toolCall)) as [toolResult|err];
        (eapply Hstep; [| |exact H]; [split|]; reflexivity).
Qed.

(** Whatever the loop appends to the conversation is a tool reply, and
    the replies answer calls of the response in the order of the calls,
    at most one for each call. *)
Theorem processToolCalls_appends_replies (lib : StdLib) (tools : list Tool) (ctx : Context)
    (toolCalls : list ToolCall) (orders : list (list nat))
    (messages result : list ChatCompletionMessage) :
  processToolCalls lib tools ctx toolCalls orders messages = Return (Ok result) ->
  exists replies,
    result = messages ++ replies
    /\ Forall isToolReply replies
    /\ map ToolCallID replies `sublist_of` map ID toolCalls.
Proof. apply processToolCalls_replies. Qed.

Lemma toolTurn_requests lib c ctx prompt tools params choice orders :
  (length (snd (toolTurn lib c ctx prompt tools params choice orders)) <= 1)%nat
  /\ Forall (isFollowUp prompt) (snd (toolTurn lib c ctx prompt tools params choice orders)).
Proof.
  unfold toolTurn.
  destruct (processToolCalls _ _ _ _ _ _) as [[messages|err]|] eqn:H; simpl;
    [|split; [lia|constructor]..].
  split; [lia|]. constructor; [|constructor].
  destruct (processToolCalls_replies _ _ _ _ _ _ _ H) as (replies & -> & Hall & _).
  unfold isFollowUp, finalRequest. simpl. repeat split. eauto.
Qed.

(** A turn is one round: [GenerateWithTools] sends the first request
    and at most one more, and that one offers no tools, so a tool call in
    the second answer is never run. *)
Theorem GenerateWithTools_at_most_two_requests (lib : StdLib) (c : OpenAIClient)
    (ctx : Context) (prompt : string) (tools : list Tool)
    (options : list (option GenerateOption)) (orders : list (list nat)) :
  exists followUps,
    snd (GenerateWithTools lib c ctx prompt tools options orders)
    = firstRequest c prompt tools (applyOptions options) :: followUps
    /\ (length followUps <= 1)%nat
    /\ Forall (isFollowUp prompt) followUps.
Proof.
  unfold GenerateWithTools.
  destruct (CreateChatCompletion c _) as [resp|err]; simpl;
    [|exists []; repeat split; [simpl; lia|constructor]].
  destruct (Choices resp) as [|choice others]; simpl;
    [exists []; repeat split; [simpl; lia|constructor]|].
  destruct (decide _); simpl; [|exists []; repeat split; [simpl; lia|constructor]].
  pose proof (toolTurn_requests lib c ctx prompt tools (applyOptions options) choice orders)
    as [Hlen Hall].
  destruct (toolTurn _ _ _ _ _ _ _ _) as [result sent]. simpl in *.
  exists sent. auto.
Qed.

(** A plain call that names no tool of the list ends the turn with
    "tool not found", after the calls before it have been run, and no
    second request is sent. *)
Theorem unknown_tool_aborts_turn (lib : StdLib) (c : OpenAIClient) (ctx : Context)
    (prompt : string) (tools : list Tool) (params : GenerateOptions)
    (choice : ChatCompletionMessage) (before after : list ToolCall) (toolCall : ToolCall)
    (orders : list (list nat)) :
  map renameParallel (ToolCalls choice) = before ++ toolCall :: after ->
  Forall (plainResolved tools) before ->
  FunctionName toolCall <> "parallel_tool_use" ->
  findTool tools (FunctionName toolCall) = None ->
  toolTurn lib c ctx prompt tools params choice orders
  = (Return (Err ("tool not found: " +:+ FunctionName toolCall)), []).
Proof.
  intros Hcalls Hbefore Hplain Hfind. unfold toolTurn. rewrite Hcalls.
  assert (H : forall messages,
             processToolCalls lib tools ctx (before ++ toolCall :: after) orders messages
             = Return (Err ("tool not found: " +:+ FunctionName toolCall))).
  { clear Hcalls. induction Hbefore as [|x before (Hx & tool & Hfx & Hnx) _ IH];
      intros messages; simpl.
    - rewrite decide_False by exact Hplain. now rewrite Hfind.
    - rewrite decide_False by exact Hx. rewrite Hfx. rewrite decide_False by exact Hnx.
      destruct (Execute tool ctx (Arguments x)); apply IH. }
  now rewrite H.
Qed.

(** The name "multi_tool_use.parallel" never goes back to the provider:
    no message of any request that [GenerateWithTools] sends carries a tool
    call of that name. *)
Theorem parallel_name_never_sent (lib : StdLib) (c : OpenAIClient)
    (ctx : Context) (prompt : string) (tools : list Tool)
    (options : list (option GenerateOption)) (orders : list (list nat)) :
  Forall (fun req =>
            Forall (fun msg =>
                      Forall (fun toolCall => FunctionName toolCall <> "multi_tool_use.parallel")
                        (ToolCalls msg))
              (Messages req))
    (snd (GenerateWithTools lib c ctx prompt tools options orders)).
Proof.
  assert (Hfirst : Forall (fun msg =>
                      Forall (fun toolCall => FunctionName toolCall <> "multi_tool_use.parallel")
                        (ToolCalls msg))
                     (Messages (firstRequest c prompt tools (applyOptions options)))).
  { unfold firstRequest. cbn [Messages]. apply Forall_app. split; [|repeat constructor].
    unfold systemMessages. repeat case_match; repeat constructor. }
  unfold GenerateWithTools.
  destruct (CreateChatCompletion c _) as [resp|err]; simpl; [|repeat constructor; exact Hfirst].
  destruct (Choices resp) as [|choice others]; simpl; [repeat constructor; exact Hfirst|].
  destruct (decide _); simpl; [|repeat constructor; exact Hfirst].
  unfold toolTurn.
  destruct (processToolCalls _ _ _ _ _ _) as [[messages|err]|] eqn:H; simpl;
    try (repeat constructor; exact Hfirst).
  constructor; [exact Hfirst|]. constructor; [|constructor].
  destruct (processToolCalls_replies _ _ _ _ _ _ _ H) as (replies & -> & Hall & _).
  cbn [Messages finalRequest]. constructor; [constructor|]. constructor.
  - cbn [ToolCalls]. apply Forall_forall. intros tc Htc.
    apply list_elem_of_fmap in Htc as (tc0 & -> & _). unfold renameParallel.
    destruct (decide (FunctionName tc0 = "multi_tool_use.parallel")); [discriminate|assumption].
  - eapply Forall_impl; [exact Hall|]. intros msg [_ Hno]. rewrite Hno. constructor.
Qed.

Lemma workerResults_panic outs :
  Panic ∈ outs -> workerResults outs = None.
Proof.
  induction outs as [|o outs IH]; intros Hin; [now apply elem_of_nil in Hin|].
  simpl. destruct o as [r|]; [|reflexivity].
  apply elem_of_cons in Hin as [Heq|Hin]; [discriminate|]. now rewrite IH.
Qed.

Lemma parallelWorker_malformed lib tools ctx toolUse :
  malformed toolUse -> parallelWorker lib tools ctx toolUse = Panic.
Proof.
  unfold parallelWorker. intros [H|H].
  - destruct (toolUse !! "recipient_name") as [[]|] eqn:E; try reflexivity.
    now contradiction (H s).
  - destruct (toolUse !! "recipient_name") as [[]|]; try reflexivity.
    destruct (toolUse !! "parameters") as [[]|] eqn:E; try reflexivity.
    now contradiction (H m).
Qed.

(** One malformed entry in a wrapped batch (no text under
    "recipient_name", or no object under "parameters") makes the whole call
    panic, whatever the other entries are and in whatever order the
    workers complete. *)
Theorem malformed_tool_use_panics (lib : StdLib) (tools : list Tool) (ctx : Context)
    (toolCall : ToolCall) (rest : list ToolCall) (toolUses : list (gmap string Any))
    (toolUse : gmap string Any) (orders : list (list nat))
    (messages : list ChatCompletionMessage) :
  FunctionName toolCall = "parallel_tool_use" ->
  UnmarshalToolUses lib (Arguments toolCall) = Ok toolUses ->
  toolUse ∈ toolUses ->
  malformed toolUse ->
  processToolCalls lib tools ctx (toolCall :: rest) orders messages = Panic.
Proof.
  intros Hname Hparse Hin Hbad. simpl. rewrite decide_True by exact Hname. rewrite Hparse.
  unfold runParallel. rewrite workerResults_panic; [reflexivity|].
  apply list_elem_of_fmap. exists toolUse. split; [|exact Hin].
  symmetry. now apply parallelWorker_malformed.
Qed.

Lemma processToolCalls_appends_replies_witness :
  exists result,
    processToolCalls Fixtures.batchLib Fixtures.abcTools Fixtures.acme
      [Fixtures.batchCall] [[2; 0; 1]%nat] [plainMessage "user" "go"] = Return (Ok result)
    /\ exists replies,
         result = [plainMessage "user" "go"] ++ replies
         /\ Forall isToolReply replies
         /\ map ToolCallID replies `sublist_of` map ID [Fixtures.batchCall].
Proof.
  eexists. split.
  - vm_compute. reflexivity.
  - apply (processToolCalls_appends_replies Fixtures.batchLib Fixtures.abcTools Fixtures.acme
             [Fixtures.batchCall] [[2; 0; 1]%nat]).
    vm_compute. reflexivity.
Defined.

Lemma unknown_tool_aborts_turn_witness :
  toolTurn Fixtures.batchLib Fixtures.echoProvider Fixtures.acme "go" Fixtures.abcTools
    (applyOptions []) MoreFixtures.unknownChoice []
  = (Return (Err ("tool not found: " +:+ FunctionName MoreFixtures.unknownCall)), []).
Proof.
  apply (unknown_tool_aborts_turn Fixtures.batchLib Fixtures.echoProvider Fixtures.acme "go"
           Fixtures.abcTools (applyOptions []) MoreFixtures.unknownChoice [] []
           MoreFixtures.unknownCall []).
  - reflexivity.
  - constructor.
  - discriminate.
  - reflexivity.
Defined.

Lemma malformed_tool_use_panics_witness :
  processToolCalls MoreFixtures.emptyUseLib Fixtures.abcTools Fixtures.acme
    [Fixtures.batchCall] [] [] = Panic.
Proof.
  apply (malformed_tool_use_panics MoreFixtures.emptyUseLib Fixtures.abcTools Fixtures.acme
           Fixtures.batchCall [] [∅] ∅ [] []).
  - reflexivity.
  - reflexivity.
  - constructor.
  - left. intros name H. vm_compute in H. discriminate H.
Defined.

End ToolLoopShape.

Section AgentPaths.
Import Interfaces Tools ExecutionPlans LLMOptions Agents AgentSpec.
Context {MS : Type}.

(** The rule of sequencing: an error of the first step is the outcome; a
    result is handed on, and the events add up. *)
Lemma bind_post {A B} (m : M MS A) (k : A -> M MS B) (st : AgentState MS)
    (Qm : A -> AgentState MS -> list Event -> Prop)
    (Q : Res B -> AgentState MS -> list Event -> Prop) :
  post (fun r st1 log1 =>
          match r with Ok x => Qm x st1 log1 | Err e => Q (Err e) st1 log1 end) (m st) ->
  (forall x st1 log1, Qm x st1 log1 ->
     post (fun r st2 log2 => Q r st2 (log1 ++ log2)) (k x st1)) ->
  post Q (bind m k st).
Proof.
  unfold post, bind. intros Hm Hk. destruct (m st) as [[[x|e] st1] log1]; simpl in *; [|exact Hm].
  specialize (Hk x st1 log1 Hm). destruct (k x st1) as [[r st2] log2]. exact Hk.
Qed.

Lemma addToMemory_post (a : Agent MS) ctx message prefix st
    (Q : Res unit -> AgentState MS -> list Event -> Prop) :
  (forall r ms log,
     memory a <> None ->
     Forall (fun ev => exists c m, ev = EvAddMessage c m) log ->
     Q r (mkAgentState ms (planStore st) (planGenerator st)) log) ->
  (memory a = None -> Q (Ok tt) st []) ->
  post Q (addToMemory a ctx message prefix st).
Proof.
  intros Hsome Hnone. unfold post, addToMemory. destruct (memory a) as [mem|]; [|now apply Hnone].
  destruct (AddMessage mem ctx message (memState st)) as [[e|] ms]; simpl;
    (apply Hsome; [discriminate|]); repeat constructor; eauto.
Qed.

Lemma collectMCPTools_quiet ctx servers :
  Forall (fun ev => isToolUse ev = false /\ isOutputCheck ev = false)
    (snd (collectMCPTools ctx servers)).
Proof.
  induction servers as [|server rest IH]; simpl; [constructor|].
  destruct (collectMCPTools ctx rest) as [more log]. simpl in IH.
  destruct (ListTools server ctx); simpl; constructor; (split; reflexivity) || assumption.
Qed.

Lemma generateRoleResponse_ok (a : Agent MS) (st : AgentState MS) :
  exists response log,
    generateRoleResponse a st = (Ok response, st, log)
    /\ Forall (fun ev => exists prompt, ev = EvGenerate prompt) log.
Proof.
  unfold generateRoleResponse. repeat case_match; do 2 eexists; (split; [reflexivity|]);
    repeat constructor; eauto.
Qed.

(** With plan approval required and at least one tool of its own, [Run]
    never lets a tool run: it makes no generation with tools and executes
    no plan step. What it returns on success is a plan offer, with the
    plan stored under its task id, or the answer to a question about its
    role. *)
Theorem Run_approval_mode_runs_no_tool ext (a : Agent MS) (ctx : Context) (input : string)
    (st : AgentState MS) :
  requirePlanApproval a = true ->
  tools a <> [] ->
  Forall (fun ev => isToolUse ev = false) (snd (Run ext a ctx input st))
  /\ forall text,
       fst (fst (Run ext a ctx input st)) = Ok text ->
       (exists plan,
          text = offer ext plan
          /\ planStore (snd (fst (Run ext a ctx input st))) !! TaskID plan = Some plan)
       \/ (systemPrompt a <> EmptyString
           /\ planStore (snd (fst (Run ext a ctx input st))) = planStore st).
Proof.
  intros Happroval Htools.
  set (quiet := fun ev => isToolUse ev = false).
  set (Q := fun (r : Res string) (st' : AgentState MS) (log : list Event) =>
              Forall quiet log
              /\ forall text, r = Ok text ->
                   (exists plan, text = offer ext plan /\ planStore st' !! TaskID plan = Some plan)
                   \/ (systemPrompt a <> EmptyString /\ planStore st' = planStore st)).
  change (post Q (Run ext a ctx input st)).
  assert (Hadd : forall log, Forall (fun ev => exists c m, ev = EvAddMessage c m) log ->
                             Forall quiet log).
  { intros log H. eapply Forall_impl; [exact H|]. intros ev (c & m & ->). reflexivity. }
  unfold Run. set (ctx' := runContext a ctx).
  apply (bind_post _ _ _ (fun _ st1 log1 => Forall quiet log1 /\ planStore st1 = planStore st)).
  { apply addToMemory_post.
    - intros [[]|e] ms log _ Hlog; simpl; [split; [eauto|reflexivity]|].
      split; [eauto|discriminate].
    - intros _. split; [constructor|reflexivity]. }
  intros _ st1 log1 [Hlog1 Hstore1].
  apply (bind_post _ _ _ (fun _ st2 log2 =>
                            Forall quiet (log1 ++ log2) /\ planStore st2 = planStore st)).
  { unfold post, guardInput. destruct (guardrails a) as [g|]; simpl.
    - destruct (ProcessInput g ctx' input); simpl; split;
        try (apply Forall_app; split; [exact Hlog1|repeat constructor]);
        try exact Hstore1; discriminate.
    - rewrite app_nil_r. split; assumption. }
  intros guarded st2 log2 [Hlog2 Hstore2].
  unfold extractPlanAction.
  destruct (decide (EmptyString <> EmptyString)) as [Hne|_]; [now contradiction Hne|].
  destruct (bool_decide (systemPrompt a <> EmptyString) && isAskingAboutRole ext guarded)
    eqn:Hrole.
  - apply andb_true_iff in Hrole as [Hsys _]. apply bool_decide_eq_true in Hsys.
    apply (bind_post _ _ _ (fun _ st3 log3 =>
                              Forall quiet (log1 ++ log2 ++ log3)
                              /\ planStore st3 = planStore st)).
    { destruct (generateRoleResponse_ok a st2) as (response & log & -> & Hlog).
      unfold post. simpl. split; [|exact Hstore2]. rewrite app_assoc. apply Forall_app.
      split; [exact Hlog2|]. eapply Forall_impl; [exact Hlog|]. now intros ev [prompt ->]. }
    intros response st3 log3 [Hlog3 Hstore3].
    apply (bind_post _ _ _ (fun _ st4 log4 =>
                              Forall quiet (log1 ++ log2 ++ log3 ++ log4)
                              /\ planStore st4 = planStore st)).
    { apply addToMemory_post.
      - intros [[]|e] ms log _ Hlog; simpl.
        + split; [|exact Hstore3]. rewrite !app_assoc. apply Forall_app. split; [|eauto].
          now rewrite <- app_assoc.
        + split; [|discriminate]. rewrite !app_assoc. apply Forall_app. split; [|eauto].
          now rewrite <- app_assoc.
      - intros _. rewrite app_nil_r. split; assumption. }
    intros _ st4 log4 [Hlog4 Hstore4]. unfold post, ret. simpl. rewrite app_nil_r.
    split; [exact Hlog4|]. intros text _. right. split; assumption.
  - apply (bind_post _ _ _ (fun allTools st3 log3 =>
                              allTools <> [] /\ Forall quiet (log1 ++ log2 ++ log3)
                              /\ planStore st3 = planStore st)).
    { unfold post. destruct (decide (0 < Z.of_nat (length (mcpServers a)))).
      - pose proof (collectMCPTools_quiet ctx' (mcpServers a)) as Hq.
        destruct (collectMCPTools ctx' (mcpServers a)) as [mcpTools log]. simpl in *.
        split; [|split; [|exact Hstore2]].
        + intros Happ. apply app_eq_nil in Happ as [? _]. contradiction.
        + rewrite app_assoc. apply Forall_app. split; [exact Hlog2|].
          eapply Forall_impl; [exact Hq|]. now intros ev [? _].
      - simpl. rewrite app_nil_r. auto. }
    intros allTools st3 log3 (Hne & Hlog3 & Hstore3).
    rewrite bool_decide_true, Happroval by (destruct allTools; [contradiction|simpl; lia]).
    simpl andb. cbv iota.
    apply (bind_post _ _ _ (fun _ st4 log4 =>
                              Forall quiet (log1 ++ log2 ++ log3 ++ log4)
                              /\ planStore st4 = planStore st)).
    { unfold post. simpl. rewrite app_nil_r. auto. }
    intros _ st4 log4 [Hlog4 Hstore4].
    unfold runWithExecutionPlan.
    apply (bind_post _ _ _ (fun plan st5 log5 =>
                              Forall quiet (log1 ++ log2 ++ log3 ++ log4 ++ log5)
                              /\ planStore st5 !! TaskID plan = Some plan)).
    { unfold post. destruct (GenerateExecutionPlan _ ctx' guarded) as [plan|err]; simpl.
      - split; [|unfold StorePlan; apply lookup_insert_eq].
        rewrite !app_assoc. apply Forall_app. split; [|repeat constructor].
        now rewrite <- !app_assoc.
      - split; [|discriminate].
        rewrite !app_assoc. apply Forall_app. split; [|repeat constructor].
        now rewrite <- !app_assoc. }
    intros plan st5 log5 [Hlog5 Hstore5].
    apply (bind_post _ _ _ (fun _ st6 log6 =>
                              Forall quiet (log1 ++ log2 ++ log3 ++ log4 ++ log5 ++ log6)
                              /\ planStore st6 !! TaskID plan = Some plan)).
    { apply addToMemory_post.
      - intros [[]|e] ms log _ Hlog; simpl.
        + split; [|exact Hstore5]. rewrite !app_assoc. apply Forall_app. split; [|eauto].
          now rewrite <- !app_assoc.
        + split; [|discriminate]. rewrite !app_assoc. apply Forall_app. split; [|eauto].
          now rewrite <- !app_assoc.
      - intros _. rewrite app_nil_r. split; assumption. }
    intros _ st6 log6 [Hlog6 Hstore6]. unfold post, ret. simpl. rewrite app_nil_r.
    split; [exact Hlog6|]. intros text Htext. inversion Htext; subst. left. exists plan.
    split; [reflexivity|exact Hstore6].
Qed.

(** An approval marks the plan approved and changes nothing else of it
    but the status, which ends as approved, completed or failed: approved
    when the approval could not be written to the memory, and then no
    step has run; completed whenever a result is returned. *)
Theorem ApproveExecutionPlan_outcome (a : Agent MS) (ctx : Context) (plan : ExecutionPlan)
    (st : AgentState MS) :
  exists s,
    snd (fst (fst (ApproveExecutionPlan a ctx plan st)))
    = setStatus (setUserApproved plan true) s
    /\ (s = StatusApproved \/ s = StatusCompleted \/ s = StatusFailed)
    /\ (is_ok (fst (fst (fst (ApproveExecutionPlan a ctx plan st)))) = true ->
        s = StatusCompleted)
    /\ (s = StatusApproved ->
        is_ok (fst (fst (fst (ApproveExecutionPlan a ctx plan st)))) = false
        /\ Forall (fun ev => isToolUse ev = false)
             (snd (ApproveExecutionPlan a ctx plan st))).
Proof.
  unfold ApproveExecutionPlan, approvePlan.
  destruct (addToMemory a ctx _ "failed to add approval to memory: " st)
    as [[[[]|err] st1] log1] eqn:Hadd.
  - unfold ExecutePlan. cbn [UserApproved setStatus setUserApproved negb].
    destruct (executeSteps _ ctx 0 _ []) as [[results|err] log]; cbn [Steps].
    + destruct (addToMemory a ctx _ "failed to add execution result to memory: " st1)
        as [[[[]|err] st2] log3]; simpl;
        exists StatusCompleted; (split; [reflexivity|]); (split; [auto|]);
        split; auto; discriminate.
    + simpl. exists StatusFailed. split; [reflexivity|]. split; [auto|].
      split; discriminate.
  - simpl. exists StatusApproved. split; [reflexivity|]. split; [auto|].
    split; [discriminate|]. intros _. split; [reflexivity|].
    unfold addToMemory in Hadd. destruct (memory a) as [mem|]; [|discriminate].
    destruct (AddMessage mem ctx _ (memState st)) as [[e|] ms]; inversion Hadd; subst.
    repeat constructor.
Qed.

(** A question about the agent's role is answered apart from the rest:
    the answer goes through no output guardrail and no tool, an error of
    the model is replaced by a fixed text, and without a memory the call
    cannot fail. *)
Theorem Run_role_answer ext (a : Agent MS) (ctx : Context) (input guarded : string)
    (st : AgentState MS) :
  systemPrompt a <> EmptyString ->
  accepted a (runContext a ctx) input guarded ->
  isAskingAboutRole ext guarded = true ->
  Forall (fun ev => isToolUse ev = false /\ isOutputCheck ev = false)
    (snd (Run ext a ctx input st))
  /\ (memory a = None ->
      exists response, fst (Run ext a ctx input st) = (Ok response, st)).
Proof.
  intros Hsys Hacc Hrole.
  set (quiet := fun ev => isToolUse ev = false /\ isOutputCheck ev = false).
  set (Q := fun (r : Res string) (st' : AgentState MS) (log : list Event) =>
              Forall quiet log
              /\ (memory a = None -> exists response, (r, st') = (Ok response, st))).
  assert (Hgoal : post Q (Run ext a ctx input st)).
  { assert (Hadd : forall log, Forall (fun ev => exists c m, ev = EvAddMessage c m) log ->
                               Forall quiet log).
    { intros log H. eapply Forall_impl; [exact H|]. intros ev (c & m & ->). split; reflexivity. }
    unfold Run. set (ctx' := runContext a ctx) in *.
    apply (bind_post _ _ _ (fun _ st1 log1 =>
                              Forall quiet log1 /\ (memory a = None -> st1 = st))).
    { apply addToMemory_post.
      - intros r ms log Hsome Hlog. destruct r as [[]|e]; simpl; (split; [eauto|]);
          intros Hmem; contradiction.
      - intros _. split; [constructor|reflexivity]. }
    intros _ st1 log1 [Hlog1 Hst1].
    apply (bind_post _ _ _ (fun x st2 log2 =>
                              x = guarded /\ Forall quiet (log1 ++ log2)
                              /\ (memory a = None -> st2 = st))).
    { unfold post, guardInput, accepted in *. destruct (guardrails a) as [g|]; simpl.
      - rewrite Hacc. simpl. split; [reflexivity|]. split; [|exact Hst1].
        apply Forall_app. split; [exact Hlog1|]. repeat constructor.
      - rewrite app_nil_r. auto. }
    intros x st2 log2 (-> & Hlog2 & Hst2).
    unfold extractPlanAction.
    destruct (decide (EmptyString <> EmptyString)) as [Hne|_]; [now contradiction Hne|].
    rewrite bool_decide_true, Hrole by exact Hsys. simpl andb. cbv iota.
    destruct (generateRoleResponse_ok a st2) as (response & log & Hgen & Hlog).
    apply (bind_post _ _ _ (fun x st3 log3 =>
                              Forall quiet (log1 ++ log2 ++ log3)
                              /\ (memory a = None -> st3 = st))).
    { rewrite Hgen. unfold post. simpl. split; [|exact Hst2]. rewrite app_assoc.
      apply Forall_app. split; [exact Hlog2|]. eapply Forall_impl; [exact Hlog|].
      intros ev [prompt ->]. split; reflexivity. }
    intros response' st3 log3 [Hlog3 Hst3].
    apply (bind_post _ _ _ (fun _ st4 log4 =>
                              Forall quiet (log1 ++ log2 ++ log3 ++ log4)
                              /\ (memory a = None -> st4 = st))).
    { apply addToMemory_post.
      - intros r ms log' Hsome Hlog'.
        assert (Hall : Forall quiet (log1 ++ log2 ++ log3 ++ log')).
        { rewrite !app_assoc. apply Forall_app. split; [|eauto]. now rewrite <- app_assoc. }
        destruct r as [[]|e]; simpl; (split; [exact Hall|]); intros Hmem; contradiction.
      - intros _. rewrite app_nil_r. split; assumption. }
    intros _ st4 log4 [Hlog4 Hst4]. unfold post, ret. simpl. rewrite app_nil_r.
    split; [exact Hlog4|]. intros Hmem. exists response'. now rewrite Hst4. }
  unfold post, Q in Hgoal. destruct Hgoal as [Hlog Hres]. split; [exact Hlog|].
  intros Hmem. destruct (Hres Hmem) as [response Heq]. exists response.
  destruct (Run ext a ctx input st) as [[r st'] log]. exact Heq.
Qed.

(** With a memory, the direct path builds the prompt from the stored
    history alone: the input it is given, which is what the input
    guardrails returned, has no part in the call of the model. *)
Theorem direct_path_prompt_is_history (a : Agent MS) (ctx : Context) (input : string)
    (ts : list Tool) (st : AgentState MS) (mem : Memory MS) (history : list Message) :
  memory a = Some mem ->
  GetMessages mem ctx [] (memState st) = Ok history ->
  (forall input',
     runWithoutExecutionPlanWithTools a ctx input' ts st
     = runWithoutExecutionPlanWithTools a ctx input ts st)
  /\ exists rest,
       snd (runWithoutExecutionPlanWithTools a ctx input ts st)
       = EvGetMessages ctx
         :: (if decide (0 < Z.of_nat (length ts))
             then EvGenerateWithTools (formatHistoryIntoPrompt history) (map Name ts)
             else EvGenerate (formatHistoryIntoPrompt history))
         :: rest.
Proof.
  intros Hmem Hhist. split.
  - intros input'. unfold runWithoutExecutionPlanWithTools, bind. now rewrite Hmem.
  - unfold runWithoutExecutionPlanWithTools, bind. rewrite Hmem, Hhist.
    destruct (decide (0 < Z.of_nat (length ts))).
    + destruct (GenerateWithTools (llm a) ctx _ ts _) as [response|err]; [|simpl; eauto].
      destruct (guardOutput a ctx response st) as [[[guarded|err] st1] log1]; [|simpl; eauto].
      destruct (addToMemory a ctx (assistantMessage guarded) _ st1) as [[[[]|err] st2] log2];
        simpl; eauto.
    + destruct (Generate (llm a) ctx _ _) as [response|err]; [|simpl; eauto].
      destruct (guardOutput a ctx response st) as [[[guarded|err] st1] log1]; [|simpl; eauto].
      destruct (addToMemory a ctx (assistantMessage guarded) _ st1) as [[[[]|err] st2] log2];
        simpl; eauto.
Qed.

End AgentPaths.

Section AgentPathExamples.
Import Interfaces Tools ExecutionPlans LLMOptions Agents AgentSpec.

Lemma Run_approval_mode_runs_no_tool_witness :
  Forall (fun ev => isToolUse ev = false)
    (snd (Run Fixtures.demoExternals Fixtures.guardedAgent (mkContext None (Some "c1"))
            "compute 6*7" Fixtures.waitingState))
  /\ forall text,
       fst (fst (Run Fixtures.demoExternals Fixtures.guardedAgent (mkContext None (Some "c1"))
                   "compute 6*7" Fixtures.waitingState)) = Ok text ->
       (exists plan,
          text = offer Fixtures.demoExternals plan
          /\ planStore (snd (fst (Run Fixtures.demoExternals Fixtures.guardedAgent
                                    (mkContext None (Some "c1")) "compute 6*7"
                                    Fixtures.waitingState))) !! TaskID plan = Some plan)
       \/ (systemPrompt Fixtures.guardedAgent <> EmptyString
           /\ planStore (snd (fst (Run Fixtures.demoExternals Fixtures.guardedAgent
                                     (mkContext None (Some "c1")) "compute 6*7"
                                     Fixtures.waitingState)))
              = planStore Fixtures.waitingState).
Proof.
  apply (Run_approval_mode_runs_no_tool Fixtures.demoExternals Fixtures.guardedAgent
           (mkContext None (Some "c1")) "compute 6*7" Fixtures.waitingState).
  - reflexivity.
  - discriminate.
Defined.

Lemma Run_role_answer_witness :
  Forall (fun ev => isToolUse ev = false /\ isOutputCheck ev = false)
    (snd (Run Fixtures.demoExternals MoreFixtures.guide Background "who are you?"
            MoreFixtures.guideState))
  /\ (memory MoreFixtures.guide = None ->
      exists response,
        fst (Run Fixtures.demoExternals MoreFixtures.guide Background "who are you?"
               MoreFixtures.guideState) = (Ok response, MoreFixtures.guideState)).
Proof.
  apply (Run_role_answer Fixtures.demoExternals MoreFixtures.guide Background "who are you?"
           "who are you?" MoreFixtures.guideState).
  - discriminate.
  - reflexivity.
  - vm_compute. reflexivity.
Defined.

Lemma direct_path_prompt_is_history_witness :
  (forall input',
     runWithoutExecutionPlanWithTools Fixtures.guardedAgent Fixtures.acme input'
       [Fixtures.calculator] Fixtures.waitingState
     = runWithoutExecutionPlanWithTools Fixtures.guardedAgent Fixtures.acme "rewritten"
         [Fixtures.calculator] Fixtures.waitingState)
  /\ exists rest,
       snd (runWithoutExecutionPlanWithTools Fixtures.guardedAgent Fixtures.acme "rewritten"
              [Fixtures.calculator] Fixtures.waitingState)
       = EvGetMessages Fixtures.acme
         :: (if decide (0 < Z.of_nat (length [Fixtures.calculator]))
             then EvGenerateWithTools (formatHistoryIntoPrompt [])
                    (map Name [Fixtures.calculator])
             else EvGenerate (formatHistoryIntoPrompt []))
         :: rest.
Proof.
  apply (direct_path_prompt_is_history Fixtures.guardedAgent Fixtures.acme "rewritten"
           [Fixtures.calculator] Fixtures.waitingState Fixtures.bufferMemory []).
  - reflexivity.
  - vm_compute. reflexivity.
Defined.

End AgentPathExamples.

Section OrchestratorSchedules.
Import Orchestration OrchestrationSpec.

(** *** The counter of the wait group *)

Lemma filter_alter_length {A} (p : A -> bool) (f : A -> A) (l : list A) (w : nat) (x : A) :
  l !! w = Some x ->
  (length (List.filter p (alter f w l)) + (if p x then 1 else 0)
   = length (List.filter p l) + (if p (f x) then 1 else 0))%nat.
Proof.
  revert w. induction l as [|y l IH]; intros w Hw; [discriminate|].
  destruct w as [|w]; simpl in Hw.
  - inversion Hw; subst. cbn [alter list_alter List.filter].
    destruct (p x), (p (f x)); cbn [length]; lia.
  - specialize (IH w Hw). cbn [alter list_alter List.filter].
    change (list_alter f w l) with (alter f w l).
    destruct (p y); cbn [length]; lia.
Qed.

Lemma inFlight_setWorkerPC w i pc pc' c :
  workers c !! w = Some (mkWorker i pc) ->
  returned (mkWorker i pc) = false ->
  (inFlight (setWorkerPC w pc' c) + 1
   = inFlight c + (if returned (mkWorker i pc') then 0 else 1))%nat.
Proof.
  intros Hw Hpc. unfold inFlight. cbn [workers setWorkerPC].
  pose proof (filter_alter_length (fun wk => negb (returned wk))
                (fun wk => mkWorker (workerTask wk) pc') (workers c) w _ Hw) as H.
  cbv beta in H. rewrite Hpc in H. cbn [workerTask negb] in H.
  destruct (returned (mkWorker i pc')); cbn [negb] in H; lia.
Qed.

Lemma step_inFlight registry act c c' :
  step registry act c = Some c' -> wg c = inFlight c -> wg c' = inFlight c'.
Proof.
  intros Hstep Hwg.
  assert (Hspawn : forall i, wg (spawn i c) = inFlight (spawn i c)).
  { intros i. unfold inFlight. cbn [wg workers spawn]. rewrite List.filter_app, length_app.
    cbn [List.filter returned workerPC negb length]. unfold inFlight in Hwg.
    rewrite Hwg, Nat.add_1_r. reflexivity. }
  destruct act as [| |w| |w|]; simpl in Hstep.
  - unfold stepMain in Hstep. repeat case_match; simplify_eq; try exact Hwg; apply Hspawn.
  - unfold stepMonitor in Hstep. repeat case_match; simplify_eq; try exact Hwg; apply Hspawn.
  - unfold stepReceive in Hstep. destruct (monitor c); try discriminate.
    destruct (workers c !! w) as [[i pc]|] eqn:Hw; [|discriminate].
    destruct pc; try discriminate. destruct (Tasks (workflow c) !! i); [|discriminate].
    inversion Hstep; subst. pose proof (inFlight_setWorkerPC w i _ WReturning c Hw eq_refl) as H.
    cbn [returned workerPC] in H. unfold inFlight in *. cbn [wg workers setMonitor markCompleted setWorkerPC setWorkflow wgDone] in *. lia.
  - unfold stepMonitorDone in Hstep. repeat case_match; simplify_eq. exact Hwg.
  - unfold stepWorker in Hstep.
    destruct (workers c !! w) as [[i pc]|] eqn:Hw; [|discriminate].
    destruct (Tasks (workflow c) !! i) as [t|]; [|discriminate].
    destruct pc as [| |input| | |]; try discriminate.
    + inversion Hstep; subst.
      pose proof (inFlight_setWorkerPC w i _ WRunning c Hw eq_refl) as H.
      cbn [returned workerPC] in H. unfold inFlight in *. cbn [wg workers setMonitor markCompleted setWorkerPC setWorkflow wgDone] in *. lia.
    + destruct (registry (AgentID t)); inversion Hstep; subst.
      * pose proof (inFlight_setWorkerPC w i _ (WCalling (prepareInput (workflow c) t)) c Hw
                      eq_refl) as H.
        cbn [returned workerPC] in H. unfold inFlight in *. cbn [wg workers setMonitor markCompleted setWorkerPC setWorkflow wgDone] in *. lia.
      * pose proof (inFlight_setWorkerPC w i _ WSending c Hw eq_refl) as H.
        cbn [returned workerPC] in H. unfold inFlight in *. cbn [wg workers setMonitor markCompleted setWorkerPC setWorkflow wgDone] in *. lia.
    + destruct (registry (AgentID t)) as [agent|]; [|discriminate].
      pose proof (inFlight_setWorkerPC w i _ WSending c Hw eq_refl) as H.
      destruct (agent input); inversion Hstep; subst;
        cbn [returned workerPC] in H; unfold inFlight in *; cbn [wg workers setMonitor markCompleted setWorkerPC setWorkflow wgDone] in *; lia.
    + inversion Hstep; subst.
      pose proof (inFlight_setWorkerPC w i _ WDone c Hw eq_refl) as H.
      cbn [returned workerPC] in H. unfold inFlight in *. cbn [wg workers setMonitor markCompleted setWorkerPC setWorkflow wgDone] in *. lia.
  - inversion Hstep; subst. exact Hwg.
Qed.

Lemma exec_inFlight registry schedule c c' :
  exec registry schedule c = Some c' -> wg c = inFlight c -> wg c' = inFlight c'.
Proof.
  revert c. induction schedule as [|act rest IH]; intros c Hexec Hwg; simpl in Hexec.
  - now inversion Hexec; subst.
  - destruct (step registry act c) as [c1|] eqn:Hstep; [|discriminate].
    eapply IH; eauto using step_inFlight.
Qed.

(** The counter of the wait group is the number of [executeTask]
    goroutines that have not returned, in every configuration that
    [ExecuteWorkflow] reaches; so [wg.Wait()] lets the main goroutine go on
    only when each worker started so far has returned. *)
Theorem wg_counts_workers_in_flight (registry : AgentRegistry) (wf : Workflow)
    (schedule : list Action) (c : Config) :
  exec registry schedule (initial wf) = Some c ->
  wg c = inFlight c
  /\ (main c = MainWait -> is_Some (step registry ActMain c) ->
      Forall (fun wk => workerPC wk = WDone) (workers c)).
Proof.
  intros Hexec.
  assert (Hwg : wg c = inFlight c) by (eapply exec_inFlight; [exact Hexec|reflexivity]).
  split; [exact Hwg|]. intros Hmain [c' Hstep]. simpl in Hstep. unfold stepMain in Hstep.
  rewrite Hmain in Hstep. destruct (decide (wg c = 0%nat)) as [Hzero|]; [|discriminate].
  rewrite Hwg in Hzero. unfold inFlight in Hzero. apply nil_length_inv in Hzero.
  apply Forall_forall. intros wk Hin. apply list_elem_of_In in Hin.
  assert (Hnot : ~ In wk (List.filter (fun wk => negb (returned wk)) (workers c)))
    by (rewrite Hzero; intros []).
  rewrite List.filter_In in Hnot. unfold returned in Hnot.
  destruct (workerPC wk); try reflexivity; contradiction Hnot; auto.
Qed.

(** *** Tasks that can never start *)

(** What one step does to the tasks: ids and dependencies stay, and a
    status changes only for the task of a worker. *)
Lemma step_tasks registry act c c' :
  step registry act c = Some c' ->
  forall k t', Tasks (workflow c') !! k = Some t' ->
    exists t, Tasks (workflow c) !! k = Some t /\ ID t' = ID t
              /\ Dependencies t' = Dependencies t
              /\ (Status t' = Status t \/ exists j pc, workers c !! j = Some (mkWorker k pc)).
Proof.
  intros Hstep k t' Hk.
  assert (Hsame : workflow c' = workflow c -> exists t,
             Tasks (workflow c) !! k = Some t /\ ID t' = ID t
             /\ Dependencies t' = Dependencies t
             /\ (Status t' = Status t \/ exists j pc, workers c !! j = Some (mkWorker k pc))).
  { intros Heq. rewrite Heq in Hk. exists t'. auto. }
  assert (Hwrite : forall w i pc s,
             workers c !! w = Some (mkWorker i pc) ->
             taskStep (workflow c) (workflow c') i s -> exists t,
               Tasks (workflow c) !! k = Some t /\ ID t' = ID t
               /\ Dependencies t' = Dependencies t
               /\ (Status t' = Status t \/ exists j pc, workers c !! j = Some (mkWorker k pc))).
  { intros w i pc s Hw (_ & Hback & _). destruct (Hback k t' Hk) as (t & Ht & Hid & Hdeps & Hcase).
    exists t. repeat split; auto. destruct Hcase as [[-> _]|[_ Hst]]; eauto. }
  destruct act as [| |w| |w|]; simpl in Hstep.
  - unfold stepMain in Hstep. repeat case_match; simplify_eq; now apply Hsame.
  - unfold stepMonitor in Hstep. repeat case_match; simplify_eq; now apply Hsame.
  - unfold stepReceive in Hstep. repeat case_match; simplify_eq; now apply Hsame.
  - unfold stepMonitorDone in Hstep. repeat case_match; simplify_eq; now apply Hsame.
  - unfold stepWorker in Hstep.
    destruct (workers c !! w) as [[i pc]|] eqn:Hw; [|discriminate].
    destruct (Tasks (workflow c) !! i) as [t|]; [|discriminate].
    destruct pc as [| |input| | |]; try discriminate.
    + inversion Hstep; subst. eapply Hwrite; [exact Hw|]. apply setStatus_taskStep.
    + destruct (registry (AgentID t)); inversion Hstep; subst; [now apply Hsame|].
      eapply Hwrite; [exact Hw|]. apply failTask_taskStep.
    + destruct (registry (AgentID t)) as [agent|]; [|discriminate].
      destruct (agent input); inversion Hstep; subst; (eapply Hwrite; [exact Hw|]);
        [apply completeTask_taskStep|apply failTask_taskStep].
    + inversion Hstep; subst. now apply Hsame.
  - inversion Hstep; subst. now apply Hsame.
Qed.

(** What one step does to the workers: a worker keeps its task, and a new
    worker is for a task whose dependencies are all marked. *)
Lemma step_workers registry act c c' :
  step registry act c = Some c' ->
  (forall j wk, workers c !! j = Some wk ->
     exists wk', workers c' !! j = Some wk' /\ workerTask wk' = workerTask wk)
  /\ (forall j wk', workers c' !! j = Some wk' ->
        (exists wk, workers c !! j = Some wk /\ workerTask wk' = workerTask wk)
        \/ (exists t, Tasks (workflow c) !! workerTask wk' = Some t
                      /\ forall d, d ∈ Dependencies t -> completedTasks c !! d = Some true)).
Proof.
  intros Hstep.
  assert (Hsame : workers c' = workers c ->
            (forall j wk, workers c !! j = Some wk ->
               exists wk', workers c' !! j = Some wk' /\ workerTask wk' = workerTask wk)
            /\ (forall j wk', workers c' !! j = Some wk' ->
                  (exists wk, workers c !! j = Some wk /\ workerTask wk' = workerTask wk)
                  \/ (exists t, Tasks (workflow c) !! workerTask wk' = Some t
                                /\ forall d, d ∈ Dependencies t ->
                                     completedTasks c !! d = Some true))).
  { intros ->. split; eauto. }
  assert (Hspawn : forall i t,
            Tasks (workflow c) !! i = Some t ->
            (forall d, d ∈ Dependencies t -> completedTasks c !! d = Some true) ->
            workers c' = workers c ++ [mkWorker i WStart] ->
            (forall j wk, workers c !! j = Some wk ->
               exists wk', workers c' !! j = Some wk' /\ workerTask wk' = workerTask wk)
            /\ (forall j wk', workers c' !! j = Some wk' ->
                  (exists wk, workers c !! j = Some wk /\ workerTask wk' = workerTask wk)
                  \/ (exists t, Tasks (workflow c) !! workerTask wk' = Some t
                                /\ forall d, d ∈ Dependencies t ->
                                     completedTasks c !! d = Some true))).
  { intros i t Ht Hdeps ->. split.
    - intros j wk Hj. exists wk. split; [now apply lookup_app_l_Some|reflexivity].
    - intros j wk' Hj. apply lookup_app_Some in Hj as [Hj|[_ Hj]]; [eauto|].
      apply list_lookup_singleton_Some in Hj as [_ <-]. right. exists t. auto. }
  assert (Halter : forall w pc,
            workers c' = alter (fun wk => mkWorker (workerTask wk) pc) w (workers c) ->
            (forall j wk, workers c !! j = Some wk ->
               exists wk', workers c' !! j = Some wk' /\ workerTask wk' = workerTask wk)
            /\ (forall j wk', workers c' !! j = Some wk' ->
                  (exists wk, workers c !! j = Some wk /\ workerTask wk' = workerTask wk)
                  \/ (exists t, Tasks (workflow c) !! workerTask wk' = Some t
                                /\ forall d, d ∈ Dependencies t ->
                                     completedTasks c !! d = Some true))).
  { intros w pc ->. split.
    - intros j wk Hj. destruct (decide (j = w)) as [->|Hne].
      + rewrite list_lookup_alter_eq, Hj. simpl. eauto.
      + rewrite list_lookup_alter_ne by congruence. eauto.
    - intros j wk' Hj. left. destruct (decide (j = w)) as [->|Hne].
      + rewrite list_lookup_alter_eq in Hj.
        destruct (workers c !! w) as [wk|]; simpl in Hj; [|discriminate].
        inversion Hj; subst. eauto.
      + rewrite list_lookup_alter_ne in Hj by congruence. eauto. }
  destruct act as [| |w| |w|]; simpl in Hstep.
  - unfold stepMain in Hstep. destruct (main c) as [i| |r]; [| |discriminate].
    + destruct (Tasks (workflow c) !! i) as [t|] eqn:Ht.
      * destruct (decide (length (Dependencies t) = 0%nat)) as [Hlen|_];
          inversion Hstep; subst; [|now apply Hsame].
        apply (Hspawn i t Ht); [|reflexivity]. intros d Hd.
        apply nil_length_inv in Hlen. rewrite Hlen in Hd. now apply elem_of_nil in Hd.
      * inversion Hstep; subst. now apply Hsame.
    + destruct (decide (wg c = 0%nat)); [|discriminate]. inversion Hstep; subst.
      now apply Hsame.
  - unfold stepMonitor in Hstep. destruct (monitor c) as [|i|i|]; try discriminate.
    + repeat case_match; simplify_eq; now apply Hsame.
    + destruct (Tasks (workflow c) !! i) as [t|] eqn:Ht.
      * destruct (decide (Status t = TaskPending)).
        -- destruct (allDepsCompleted (completedTasks c) t) eqn:Hall;
             inversion Hstep; subst; [|now apply Hsame].
           apply (Hspawn i t Ht); [|reflexivity]. intros d Hd.
           unfold allDepsCompleted in Hall. rewrite forallb_forall in Hall.
           specialize (Hall d). rewrite <- list_elem_of_In in Hall. specialize (Hall Hd).
           destruct (completedTasks c !! d) as [[|]|]; simpl in Hall; congruence.
        -- inversion Hstep; subst. now apply Hsame.
      * inversion Hstep; subst. now apply Hsame.
  - unfold stepReceive in Hstep. repeat case_match; simplify_eq.
    eapply Halter. reflexivity.
  - unfold stepMonitorDone in Hstep. repeat case_match; simplify_eq. now apply Hsame.
  - unfold stepWorker in Hstep. repeat case_match; simplify_eq; eapply Halter; reflexivity.
  - inversion Hstep; subst. now apply Hsame.
Qed.

Lemma step_Idle blocked registry act c c' :
  step registry act c = Some c' -> Inv c -> Idle blocked c -> Idle blocked c'.
Proof.
  intros Hstep HI [H1 H2 H3].
  pose proof (step_tasks _ _ _ _ Hstep) as Htasks.
  destruct (step_workers _ _ _ _ Hstep) as [Hkeep Hnew].
  constructor.
  - intros k t' Hk Hb. destruct (Htasks k t' Hk) as (t & Ht & Hid & Hdeps & _).
    rewrite Hid in Hb. rewrite Hdeps. eauto.
  - intros j wk' t' Hj Ht'. unfold taskOf in Ht'.
    destruct (Htasks _ _ Ht') as (t & Ht & Hid & Hdeps & _). rewrite Hid.
    destruct (Hnew j wk' Hj) as [(wk & Hwk & Hsame)|(t0 & Ht0 & Hmarked)].
    + apply (H2 j wk t Hwk). unfold taskOf. now rewrite <- Hsame.
    + rewrite Ht in Ht0. inversion Ht0; subst t0.
      destruct (blocked (ID t)) eqn:Hb; [|reflexivity].
      destruct (H1 _ _ Ht Hb) as (d & Hd & Hbd).
      destruct (inv_signals c HI d (Hmarked d Hd)) as (j0 & wk0 & t0 & Hj0 & Ht0' & <- & _).
      rewrite (H2 j0 wk0 t0 Hj0 Ht0') in Hbd. discriminate.
  - intros k t' Hk Hst. destruct (Htasks k t' Hk) as (t & Ht & _ & _ & Hcase).
    destruct Hcase as [Heq|(j & pc & Hj)].
    + rewrite Heq in Hst. destruct (H3 k t Ht Hst) as (j & wk & Hj & Hwk).
      destruct (Hkeep j wk Hj) as (wk' & Hj' & Hsame). exists j, wk'. split; [exact Hj'|congruence].
    + destruct (Hkeep j _ Hj) as (wk' & Hj' & Hsame). exists j, wk'. split; [exact Hj'|exact Hsame].
Qed.

Lemma exec_Idle blocked registry schedule c c' :
  exec registry schedule c = Some c' -> Inv c -> Idle blocked c -> Idle blocked c'.
Proof.
  revert c. induction schedule as [|act rest IH]; intros c Hexec HI HJ; simpl in Hexec.
  - now inversion Hexec; subst.
  - destruct (step registry act c) as [c1|] eqn:Hstep; [|discriminate].
    eapply IH; eauto using step_Inv, step_Idle.
Qed.

Lemma buildWorkflow_Tasks specs finalTaskID :
  Tasks (buildWorkflow specs finalTaskID) = map newTask specs.
Proof.
  unfold buildWorkflow, SetFinalTask. cbn [Tasks].
  assert (H : forall w,
            Tasks (fold_left (fun w '(id, agentID, input, dependencies) =>
                                AddTask w id agentID input dependencies) specs w)
            = Tasks w ++ map newTask specs).
  { induction specs as [|[[[id agentID] input] deps] rest IH]; intros w; simpl.
    - now rewrite app_nil_r.
    - rewrite IH. unfold AddTask. cbn [Tasks]. now rewrite <- app_assoc. }
  apply H.
Qed.

Lemma Idle_initial blocked specs finalTaskID :
  closedUnder blocked specs = true ->
  Idle blocked (initial (buildWorkflow specs finalTaskID)).
Proof.
  intros Hclosed. constructor; cbn [workflow workers initial].
  - intros k t Hk Hb. rewrite buildWorkflow_Tasks in Hk.
    apply list_lookup_fmap_Some in Hk as (spec & -> & Hspec).
    unfold closedUnder in Hclosed. rewrite forallb_forall in Hclosed.
    apply list_elem_of_lookup_2, list_elem_of_In in Hspec.
    specialize (Hclosed spec Hspec). rewrite Hb in Hclosed. simpl in Hclosed.
    apply existsb_exists in Hclosed as (d & Hd & Hbd). exists d.
    split; [now apply list_elem_of_In|exact Hbd].
  - intros j wk t Hj. rewrite lookup_nil in Hj. discriminate.
  - intros k t Hk Hst. rewrite buildWorkflow_Tasks in Hk.
    apply list_lookup_fmap_Some in Hk as (spec & -> & Hspec).
    destruct spec as [[[id agentID] input] deps]. now contradiction Hst.
Qed.

(** The tasks of a closed set (a dependency cycle, or a task waiting
    for an id that no task has) are never run: in every configuration
    that [ExecuteWorkflow] reaches they are pending, no worker has been
    started for them, they have no result and no error, and they are not
    marked completed. *)
Theorem blocked_tasks_never_start (blocked : string -> bool) (registry : AgentRegistry)
    (specs : list TaskSpec) (finalTaskID : string) (schedule : list Action) (c : Config) :
  closedUnder blocked specs = true ->
  exec registry schedule (initial (buildWorkflow specs finalTaskID)) = Some c ->
  forall k t,
    Tasks (workflow c) !! k = Some t -> blocked (ID t) = true ->
    Status t = TaskPending
    /\ (forall j wk, workers c !! j = Some wk -> workerTask wk <> k)
    /\ Results (workflow c) !! ID t = None
    /\ Errors (workflow c) !! ID t = None
    /\ completedTasks c !! ID t <> Some true.
Proof.
  intros Hclosed Hexec k t Hk Hb.
  pose proof (reachable_Inv _ _ _ _ _ Hexec) as HI.
  assert (HJ : Idle blocked c).
  { eapply exec_Idle; [exact Hexec| |now apply Idle_initial].
    destruct (buildWorkflow_fresh specs finalTaskID) as (HR & HE & _). now apply Inv_initial. }
  destruct HJ as [H1 H2 H3].
  assert (Hnone : forall j wk, workers c !! j = Some wk -> workerTask wk <> k).
  { intros j wk Hj Heq. assert (Ht : taskOf c wk = Some t) by (unfold taskOf; now rewrite Heq).
    rewrite (H2 j wk t Hj Ht) in Hb. discriminate. }
  assert (Hback : forall P, ~ backedBy P c (ID t)).
  { intros P (j & wk & t0 & Hj & Ht0 & Hid & _). pose proof (H2 j wk t0 Hj Ht0) as Hb0.
    rewrite Hid, Hb in Hb0. discriminate. }
  split; [|split; [exact Hnone|split; [|split]]].
  - destruct (decide (Status t = TaskPending)) as [|Hst]; [assumption|].
    destruct (H3 k t Hk Hst) as (j & wk & Hj & Hwk). now contradiction (Hnone j wk Hj).
  - destruct (Results (workflow c) !! ID t) eqn:HR; [|reflexivity].
    contradiction (Hback finished). apply (inv_outputs c HI). left. rewrite HR. eauto.
  - destruct (Errors (workflow c) !! ID t) eqn:HE; [|reflexivity].
    contradiction (Hback finished). apply (inv_outputs c HI). right. rewrite HE. eauto.
  - intros Hmark. contradiction (Hback signalled). now apply (inv_signals c HI).
Qed.

(** *** Two races of [ExecuteWorkflow] *)

Lemma exec_app_Some registry s1 s2 c c1 c2 :
  exec registry s1 c = Some c1 -> exec registry s2 c1 = Some c2 ->
  exec registry (s1 ++ s2) c = Some c2.
Proof.
  revert c. induction s1 as [|act s1 IH]; intros c H1 H2; simpl in *.
  - inversion H1; subst. exact H2.
  - destruct (step registry act c); [eauto|discriminate].
Qed.

Lemma exec_one registry act c c' :
  step registry act c = Some c' -> exec registry [act] c = Some c'.
Proof. intros H. simpl. now rewrite H. Qed.

Lemma stepWorker_missing registry w i t c :
  workers c !! w = Some (mkWorker i WRunning) ->
  Tasks (workflow c) !! i = Some t ->
  registry (AgentID t) = None ->
  step registry (ActWorker w) c
  = Some (setWorkflow (failTask i ("agent not found: " +:+ AgentID t) (workflow c))
            (setWorkerPC w WSending c)).
Proof. intros Hw Ht Hreg. simpl. unfold stepWorker. now rewrite Hw, Ht, Hreg. Qed.

Lemma stepWorker_found registry w i t c agent :
  workers c !! w = Some (mkWorker i WRunning) ->
  Tasks (workflow c) !! i = Some t ->
  registry (AgentID t) = Some agent ->
  step registry (ActWorker w) c
  = Some (setWorkerPC w (WCalling (prepareInput (workflow c) t)) c).
Proof. intros Hw Ht Hreg. simpl. unfold stepWorker. now rewrite Hw, Ht, Hreg. Qed.

Lemma stepWorker_called registry w i t c agent input r :
  workers c !! w = Some (mkWorker i (WCalling input)) ->
  Tasks (workflow c) !! i = Some t ->
  registry (AgentID t) = Some agent ->
  agent input = r ->
  step registry (ActWorker w) c
  = Some (setWorkflow (recordOutcome i r (workflow c)) (setWorkerPC w WSending c)).
Proof.
  intros Hw Ht Hreg <-. simpl. unfold stepWorker, recordOutcome. rewrite Hw, Ht, Hreg.
  now destruct (agent input).
Qed.

(** A task can be started twice. Of two tasks without dependencies, let
    the second run to its end before the worker of the first has written
    [TaskRunning]: the monitor, told of the second, finds the first still
    pending with nothing to wait for and starts it again. Two workers for
    the first task are then in flight. *)
Theorem task_can_be_started_twice (registry : AgentRegistry)
    (id1 id2 agent1 agent2 input1 input2 finalTaskID : string) :
  exists c,
    exec registry (doubleStartSchedule registry agent2)
      (initial (buildWorkflow [(id1, agent1, input1, []); (id2, agent2, input2, [])]
                  finalTaskID)) = Some c
    /\ workers c = [mkWorker 0 WStart; mkWorker 1 WReturning; mkWorker 0 WStart]
    /\ wg c = 3%nat.
Proof.
  unfold doubleStartSchedule, runWorker.
  destruct (registry agent2) as [agent|] eqn:Hreg.
  - destruct (agent input2) as [result|err] eqn:Hrun; eexists; split.
    + (eapply (exec_app_Some _ [_; _]); [vm_compute; reflexivity|]).
      (eapply (exec_app_Some _ [_]); [vm_compute; reflexivity|]).
      (eapply (exec_app_Some _ [_]);
        [apply exec_one; eapply stepWorker_found; [reflexivity|reflexivity|exact Hreg]|]).
      (eapply (exec_app_Some _ [_]);
        [apply exec_one; eapply stepWorker_called;
         [reflexivity|reflexivity|exact Hreg|exact Hrun]|]).
      vm_compute. reflexivity.
    + split; reflexivity.
    + eapply (exec_app_Some _ [_; _]); [vm_compute; reflexivity|].
      eapply (exec_app_Some _ [_]); [vm_compute; reflexivity|].
      eapply (exec_app_Some _ [_]);
        [apply exec_one; eapply stepWorker_found; [reflexivity|reflexivity|exact Hreg]|].
      eapply (exec_app_Some _ [_]);
        [apply exec_one; eapply stepWorker_called;
         [reflexivity|reflexivity|exact Hreg|exact Hrun]|].
      vm_compute. reflexivity.
    + split; reflexivity.
  - eexists; split.
    + eapply (exec_app_Some _ [_; _]); [vm_compute; reflexivity|].
      eapply (exec_app_Some _ [_]); [vm_compute; reflexivity|].
      eapply (exec_app_Some _ [_]);
        [apply exec_one; eapply stepWorker_missing; [reflexivity|reflexivity|exact Hreg]|].
      vm_compute. reflexivity.
    + split; reflexivity.
Qed.

Lemma finalResult_not_found (wf : Workflow) :
  FinalTaskID wf <> EmptyString ->
  Errors wf !! FinalTaskID wf = None ->
  Results wf !! FinalTaskID wf = None ->
  finalResult wf = Err "final task result not found".
Proof.
  intros Hfinal HE HR. unfold finalResult. rewrite decide_True by exact Hfinal.
  now rewrite HE, HR.
Qed.

Lemma stepMain_returns registry c r :
  main c = MainWait -> wg c = 0%nat -> finalResult (workflow c) = r ->
  step registry ActMain c = Some (cancel (setMain (MainReturned r) c)).
Proof.
  intros Hmain Hwg <-. simpl. unfold stepMain. rewrite Hmain.
  now rewrite decide_True by exact Hwg.
Qed.

Lemma lookup_other_empty {A} (id1 id2 : string) (x : A) :
  id1 <> id2 -> (<[id1 := x]> (∅ : gmap string A)) !! id2 = None.
Proof. intros Hne. now rewrite lookup_insert_ne, lookup_empty. Qed.

(** [ExecuteWorkflow] can return before a dependent task has been
    started. In a chain of two tasks with the second as the final task,
    let the worker of the first return before the monitor has scanned:
    the wait group is at zero, the main goroutine goes on and returns
    "final task result not found", while the second task is pending and
    its only dependency is already marked completed. *)
Theorem ExecuteWorkflow_can_return_early (registry : AgentRegistry)
    (id1 id2 agent1 agent2 input1 input2 : string) :
  id1 <> id2 ->
  id2 <> EmptyString ->
  exists c,
    exec registry (earlyReturnSchedule registry agent1)
      (initial (buildWorkflow [(id1, agent1, input1, []); (id2, agent2, input2, [id1])] id2))
    = Some c
    /\ main c = MainReturned (Err "final task result not found")
    /\ workers c = [mkWorker 0 WDone]
    /\ completedTasks c = <[id1 := true]> ∅
    /\ Status <$> Tasks (workflow c) !! 1%nat = Some TaskPending.
Proof.
  intros Hne Hfinal. unfold earlyReturnSchedule, runWorker.
  destruct (registry agent1) as [agent|] eqn:Hreg.
  - destruct (agent input1) as [result|err] eqn:Hrun; eexists; split.
    + eapply (exec_app_Some _ [_; _; _]); [vm_compute; reflexivity|].
      eapply (exec_app_Some _ [_]); [vm_compute; reflexivity|].
      eapply (exec_app_Some _ [_]);
        [apply exec_one; eapply stepWorker_found; [reflexivity|reflexivity|exact Hreg]|].
      eapply (exec_app_Some _ [_]);
        [apply exec_one; eapply stepWorker_called;
         [reflexivity|reflexivity|exact Hreg|exact Hrun]|].
      eapply (exec_app_Some _ [_; _]); [vm_compute; reflexivity|].
      apply exec_one, stepMain_returns; [reflexivity|reflexivity|].
      apply finalResult_not_found; [exact Hfinal|reflexivity|].
      pose proof (lookup_other_empty id1 id2 result Hne) as H.
      vm_compute in H. vm_compute. exact H.
    + repeat split; vm_compute; reflexivity.
    + eapply (exec_app_Some _ [_; _; _]); [vm_compute; reflexivity|].
      eapply (exec_app_Some _ [_]); [vm_compute; reflexivity|].
      eapply (exec_app_Some _ [_]);
        [apply exec_one; eapply stepWorker_found; [reflexivity|reflexivity|exact Hreg]|].
      eapply (exec_app_Some _ [_]);
        [apply exec_one; eapply stepWorker_called;
         [reflexivity|reflexivity|exact Hreg|exact Hrun]|].
      eapply (exec_app_Some _ [_; _]); [vm_compute; reflexivity|].
      apply exec_one, stepMain_returns; [reflexivity|reflexivity|].
      apply finalResult_not_found; [exact Hfinal| |reflexivity].
      pose proof (lookup_other_empty id1 id2 ("agent execution failed: " +:+ err) Hne) as H.
      vm_compute in H. vm_compute. exact H.
    + repeat split; vm_compute; reflexivity.
  - eexists. split.
    + eapply (exec_app_Some _ [_; _; _]); [vm_compute; reflexivity|].
      eapply (exec_app_Some _ [_]); [vm_compute; reflexivity|].
      eapply (exec_app_Some _ [_]);
        [apply exec_one; eapply stepWorker_missing; [reflexivity|reflexivity|exact Hreg]|].
      eapply (exec_app_Some _ [_; _]); [vm_compute; reflexivity|].
      apply exec_one, stepMain_returns; [reflexivity|reflexivity|].
      apply finalResult_not_found; [exact Hfinal| |reflexivity].
      pose proof (lookup_other_empty id1 id2 ("agent not found: " +:+ agent1) Hne) as H.
      vm_compute in H. vm_compute. exact H.
    + repeat split; vm_compute; reflexivity.
Qed.

Lemma wg_counts_workers_in_flight_witness :
  exists c,
    exec Fixtures.demoRegistry Fixtures.failedDepSchedule
      (initial (buildWorkflow Fixtures.failedDepSpecs "T2")) = Some c
    /\ wg c = inFlight c
    /\ (main c = MainWait -> is_Some (step Fixtures.demoRegistry ActMain c) ->
        Forall (fun wk => workerPC wk = WDone) (workers c)).
Proof.
  eexists. split.
  - vm_compute. reflexivity.
  - apply (wg_counts_workers_in_flight Fixtures.demoRegistry
             (buildWorkflow Fixtures.failedDepSpecs "T2") Fixtures.failedDepSchedule).
    vm_compute. reflexivity.
Defined.

Lemma blocked_tasks_never_start_witness :
  exists c,
    exec Fixtures.demoRegistry MoreFixtures.cycleSchedule
      (initial (buildWorkflow MoreFixtures.cycleSpecs "T2")) = Some c
    /\ main c = MainReturned (Err "final task result not found")
    /\ forall k t,
         Tasks (workflow c) !! k = Some t -> MoreFixtures.inCycle (ID t) = true ->
         Status t = TaskPending
         /\ (forall j wk, workers c !! j = Some wk -> workerTask wk <> k)
         /\ Results (workflow c) !! ID t = None
         /\ Errors (workflow c) !! ID t = None
         /\ completedTasks c !! ID t <> Some true.
Proof.
  eexists. split; [|split].
  - vm_compute. reflexivity.
  - reflexivity.
  - apply (blocked_tasks_never_start MoreFixtures.inCycle Fixtures.demoRegistry
             MoreFixtures.cycleSpecs "T2" MoreFixtures.cycleSchedule).
    + reflexivity.
    + vm_compute. reflexivity.
Defined.

Lemma ExecuteWorkflow_can_return_early_witness :
  exists c,
    exec Fixtures.demoRegistry (earlyReturnSchedule Fixtures.demoRegistry "a")
      (initial (buildWorkflow [("T1", "a", "in1", []); ("T2", "a", "in2", ["T1"])] "T2"))
    = Some c
    /\ main c = MainReturned (Err "final task result not found")
    /\ workers c = [mkWorker 0 WDone]
    /\ completedTasks c = <["T1" := true]> ∅
    /\ Status <$> Tasks (workflow c) !! 1%nat = Some TaskPending.
Proof.
  apply (ExecuteWorkflow_can_return_early Fixtures.demoRegistry "T1" "T2" "a" "a" "in1" "in2");
    discriminate.
Defined.

End OrchestratorSchedules.
